(** * Recovery utilities of the audiobook creator: checkpoint, validation,
      clean-up and the assembly pipeline (utils/recovery_utils.py).

    The Python functions are embedded as executable Rocq functions in a
    small state-and-exception monad over a model of the file system, of
    standard output and of the stream of yielded status messages.  The
    retry script that calls them (retry_audiobook_assembly.py) and the
    title sanitizer of test_filename_sanitization.py are embedded in the
    same way. *)

From Stdlib Require Import ZArith String Ascii List Lia Bool.
From stdpp Require Import base tactics option list strings gmap pretty sorting.

Set Warnings "-register-all,-abstract-large-number".
Local Open Scope Z_scope.

(** ** Python values *)

(** The values [json.load] can return and [json.dump] can write.  A [PStr]
    holds the UTF-8 bytes of the text (a lone surrogate, which a [str] can
    hold and UTF-8 cannot, in the three bytes of its generalised form, which
    the strict codec refuses); a dictionary keeps its string keys in
    insertion order; a float is carried by its numeric literal. *)
Inductive pyval : Type :=
  | PNone
  | PBool (b : bool)
  | PInt (z : Z)
  | PFloat (lit : string)
  | PStr (s : string)
  | PList (l : list pyval)
  | PDict (kvs : list (string * pyval)).

(** Python exceptions that the modelled code can meet. *)
Inductive exn : Type :=
  | KeyError (key : string)
  | TypeError
  | AttributeError
  | FileNotFoundError
  | IsADirectoryError
  | NotADirectoryError
  | PermissionError
  | JSONDecodeError
  | UnicodeDecodeError
  | UnicodeEncodeError
  | ValueError
  | RecursionError
  | OverflowError
  | MemoryError
  | ExternalError (msg : string).

(** [IOError] is an alias of [OSError]; these are its subclasses. *)
Definition is_OSError (e : exn) : bool :=
  match e with
  | FileNotFoundError | IsADirectoryError | NotADirectoryError
  | PermissionError => true
  | _ => false
  end.

Definition is_JSONDecodeError (e : exn) : bool :=
  match e with JSONDecodeError => true | _ => false end.

Inductive result (A : Type) : Type :=
  | Ok (a : A)
  | Raise (e : exn).
Arguments Ok {A} a.
Arguments Raise {A} e.

(** ** The file system *)

(** A regular file holds bytes; [pinned] says that the operating system
    refuses to unlink it (read-only parent directory, immutable attribute,
    read-only mount).  A directory only shows the size [stat] reports. *)
Inductive node : Type :=
  | File (data : string) (pinned : bool)
  | Dir (st_size : nat).

(** Paths are keys as the program spells them. *)
Abbreviation filesystem := (gmap string node).

(** What [print] wrote, one entry per call. *)
Inductive printed : Type :=
  | CheckpointCreated (checkpoint_path : string)
  | WarnCheckpointLoad (e : exn)
  | CannotResume (missing : nat) (expected_lines : pyval)
  | AllSegmentsFound (expected_lines : pyval)
  | RemovedPartial (chapter_file : string)
  | WarnCouldNotRemove (chapter_file : string) (e : exn)
  | RemovedTemp (basename : string)
  | Resuming (chapters : nat).

(** One invocation of the external media interface (the ffmpeg wrappers of
    utils.audiobook_utils), with its arguments. *)
Inductive media_call : Type :=
  | Assemble (chapter_file : string) (lines : pyval)
      (temp_line_audio_dir temp_audio_dir : string)
  | AddSilence (chapter_path : string) (duration_ms : Z)
  | ConvertM4a (input_path output_path : string)
  | GenerateM4b (m4a_chapter_files : list string)
      (temp_audio_dir : string) (book_path : pyval) (narrator_gender : string).

Record world : Type := World {
  w_fs : filesystem;
  w_stdout : list printed;
  w_yielded : list string;
  w_calls : list media_call
}.

Definition set_fs (fs : filesystem) (w : world) : world :=
  World fs (w_stdout w) (w_yielded w) (w_calls w).

(** ** The monad: state passing over [world], with exceptions *)

Definition M (A : Type) : Type := world → result A * world.

#[global] Instance M_ret : MRet M := λ A (a : A) w, (Ok a, w).
#[global] Instance M_bind : MBind M := λ A B (f : A → M B) (m : M A) w,
  match m w with
  | (Ok a, w') => f a w'
  | (Raise e, w') => (Raise e, w')
  end.

Definition raise {A} (e : exn) : M A := λ w, (Raise e, w).

(** [try: body except (classes) as e: handler e] *)
Definition try_except {A} (body : M A) (catches : exn → bool)
    (handler : exn → M A) : M A := λ w,
  match body w with
  | (Raise e, w') => if catches e then handler e w' else (Raise e, w')
  | r => r
  end.

Definition lift_result {A} (r : result A) : M A := λ w, (r, w).

Definition print (p : printed) : M unit := λ w,
  (Ok (), World (w_fs w) (w_stdout w ++ [p]) (w_yielded w) (w_calls w)).

(** A [yield] of the generator: the message is handed to the consumer. *)
Definition yield (msg : string) : M unit := λ w,
  (Ok (), World (w_fs w) (w_stdout w) (w_yielded w ++ [msg]) (w_calls w)).

(** [for x in xs: body x] *)
Fixpoint for_each {A} (xs : list A) (body : A → M unit) : M unit :=
  match xs with
  | [] => mret ()
  | x :: xs' => body x ;; for_each xs' body
  end.

(** ** Strings and paths *)

(** [s.split(sep)] for a one-character separator. *)
Fixpoint py_split (sep : ascii) (s : string) : list string :=
  match s with
  | EmptyString => [""]
  | String c s' =>
      let r := py_split sep s' in
      if Ascii.eqb c sep then "" :: r
      else match r with
           | x :: xs => String c x :: xs
           | [] => [String c ""]
           end
  end.

Fixpoint endswith_slash (s : string) : bool :=
  match s with
  | EmptyString => false
  | String c EmptyString => Ascii.eqb c "/"
  | String _ s' => endswith_slash s'
  end.

Definition startswith_slash (s : string) : bool :=
  match s with
  | String c _ => Ascii.eqb c "/"
  | EmptyString => false
  end.

(** [os.path.join(a, b)] of posixpath. *)
Definition os_path_join (a b : string) : string :=
  if startswith_slash b then b
  else if (String.eqb a "" || endswith_slash a)%bool then a +:+ b
  else a +:+ "/" +:+ b.

(** [os.path.basename(p)]: what follows the last slash. *)
Definition os_path_basename (p : string) : string :=
  List.last (py_split "/" p) "".

Fixpoint all_slashes (s : string) : bool :=
  match s with
  | EmptyString => true
  | String c s' => (Ascii.eqb c "/" && all_slashes s')%bool
  end.

Fixpoint rstrip_slashes (s : string) : string :=
  match s with
  | EmptyString => ""
  | String c s' =>
      if all_slashes s then "" else String c (rstrip_slashes s')
  end.

(** The text up to and including the last slash. *)
Fixpoint upto_last_slash (s : string) : string :=
  match s with
  | EmptyString => ""
  | String c s' =>
      if existsb (Ascii.eqb "/") (list_ascii_of_string s)
      then String c (upto_last_slash s') else ""
  end.

(** [os.path.dirname(p)] of posixpath. *)
Definition os_path_dirname (p : string) : string :=
  let head := upto_last_slash p in
  if all_slashes head then head else rstrip_slashes head.

(** [n] times the character [c]. *)
Fixpoint repeat_char (c : ascii) (n : nat) : string :=
  match n with
  | O => ""
  | S n' => String c (repeat_char c n')
  end.

(** [f"{i:06d}"] for a non-negative [i]. *)
Definition fmt_06d (i : nat) : string :=
  let s := pretty i in
  repeat_char "0" (6 - String.length s) +:+ s.

(** ** File-system calls *)

Definition os_path_exists (path : string) : M bool := λ w,
  (Ok (bool_decide (is_Some (w_fs w !! path))), w).

Definition os_path_getsize (path : string) : M nat := λ w,
  match w_fs w !! path with
  | Some (File data _) => (Ok (String.length data), w)
  | Some (Dir n) => (Ok n, w)
  | None => (Raise FileNotFoundError, w)
  end.

(** [open(path, 'r')] followed by reading the whole file: its bytes. *)
Definition open_read (path : string) : M string := λ w,
  match w_fs w !! path with
  | Some (File data _) => (Ok data, w)
  | Some (Dir _) => (Raise IsADirectoryError, w)
  | None => (Raise FileNotFoundError, w)
  end.

(** [with open(path, 'w', encoding='utf-8') as f: block]: the file is
    created or emptied when it is opened; its directory must exist (the
    empty directory name is the current directory).  [block] is how the
    block ends and the text it has written to [f] by then: the file is
    closed with that text, also when the block ends in an exception, which
    is then the caller's. *)
Definition open_write (path : string) (block : result unit * string)
    : M unit := λ w,
  let '(r, data) := block in
  let parent := os_path_dirname path in
  match w_fs w !! path with
  | Some (Dir _) => (Raise IsADirectoryError, w)
  | Some (File _ pin) => (r, set_fs (<[path := File data pin]> (w_fs w)) w)
  | None =>
      if String.eqb parent "" then
        (r, set_fs (<[path := File data false]> (w_fs w)) w)
      else match w_fs w !! parent with
           | Some (Dir _) =>
               (r, set_fs (<[path := File data false]> (w_fs w)) w)
           | Some (File _ _) => (Raise NotADirectoryError, w)
           | None => (Raise FileNotFoundError, w)
           end
  end.

(** What [os.remove] does to the file system alone. *)
Definition unlink (path : string) (fs : filesystem) : result unit * filesystem :=
  match fs !! path with
  | Some (File _ false) => (Ok (), delete path fs)
  | Some (File _ true) => (Raise PermissionError, fs)
  | Some (Dir _) => (Raise IsADirectoryError, fs)
  | None => (Raise FileNotFoundError, fs)
  end.

Definition os_remove (path : string) : M unit := λ w,
  let '(r, fs) := unlink path (w_fs w) in (r, set_fs fs w).

(** ** [fnmatch] and [glob] *)

(** A shell pattern, parsed: [*], [?], a bracket class (negated or not, its
    items ranges [lo-hi], a single character being [c-c]) or a literal. *)
Inductive glob_token : Type :=
  | GStar
  | GAny
  | GClass (negated : bool) (items : list (ascii * ascii))
  | GLit (c : ascii).

(** The body of a bracket expression: [scan_class s] splits [s] at the first
    "]" that closes the class; a "]" in first position is a member. *)
Fixpoint scan_to_close (s : string) : option (string * string) :=
  match s with
  | EmptyString => None
  | String c s' =>
      if Ascii.eqb c "]" then Some ("", s')
      else match scan_to_close s' with
           | Some (body, rest) => Some (String c body, rest)
           | None => None
           end
  end.

Definition scan_class (s : string) : option (string * string) :=
  match s with
  | String c s' =>
      if Ascii.eqb c "]" then
        match scan_to_close s' with
        | Some (body, rest) => Some (String c body, rest)
        | None => None
        end
      else scan_to_close s
  | EmptyString => None
  end.

(** Members of a class body, left to right: [a-b] is a range when the hyphen
    is neither first nor last. *)
Fixpoint class_items (s : string) : list (ascii * ascii) :=
  match s with
  | EmptyString => []
  | String a s1 =>
      match s1 with
      | String h (String b s3) =>
          if Ascii.eqb h "-" then (a, b) :: class_items s3
          else (a, a) :: class_items s1
      | _ => (a, a) :: class_items s1
      end
  end.

(** [fnmatch.translate], as tokens; [fuel] bounds the length of the
    pattern. *)
Fixpoint glob_tokens (fuel : nat) (pat : string) : list glob_token :=
  match fuel, pat with
  | O, _ => []
  | _, EmptyString => []
  | S fuel', String c rest =>
      if Ascii.eqb c "*" then GStar :: glob_tokens fuel' rest
      else if Ascii.eqb c "?" then GAny :: glob_tokens fuel' rest
      else if Ascii.eqb c "[" then
        let '(neg, after) :=
          match rest with
          | String n rest' =>
              if Ascii.eqb n "!" then (true, rest') else (false, rest)
          | EmptyString => (false, rest)
          end in
        match scan_class after with
        | Some (body, rest') =>
            GClass neg (class_items body) :: glob_tokens fuel' rest'
        | None => GLit c :: glob_tokens fuel' rest
        end
      else GLit c :: glob_tokens fuel' rest
  end.

Definition in_class (items : list (ascii * ascii)) (c : ascii) : bool :=
  existsb (λ '(lo, hi),
    (nat_of_ascii lo <=? nat_of_ascii c)%nat
    && (nat_of_ascii c <=? nat_of_ascii hi)%nat)%bool items.

Definition token_accepts (t : glob_token) (c : ascii) : bool :=
  match t with
  | GStar | GAny => true
  | GClass neg items => xorb neg (in_class items c)
  | GLit l => Ascii.eqb l c
  end.

Fixpoint tokens_match (ts : list glob_token) (name : string) : bool :=
  match ts with
  | [] => String.eqb name ""
  | GStar :: ts' =>
      (fix star (s : string) : bool :=
         (tokens_match ts' s
          || match s with
             | EmptyString => false
             | String _ s' => star s'
             end)%bool) name
  | t :: ts' =>
      match name with
      | EmptyString => false
      | String c name' => (token_accepts t c && tokens_match ts' name')%bool
      end
  end.

(** [fnmatch.fnmatchcase(name, pat)] *)
Definition fnmatch (name pat : string) : bool :=
  tokens_match (glob_tokens (String.length pat) pat) name.

(** [glob.has_magic] *)
Definition has_magic (s : string) : bool :=
  existsb (λ c, Ascii.eqb c "*" || Ascii.eqb c "?" || Ascii.eqb c "[")%bool
    (list_ascii_of_string s).

Definition is_hidden (name : string) : bool :=
  match name with
  | String c _ => Ascii.eqb c "."
  | EmptyString => false
  end.

(** One path component against one pattern component: a component without
    wildcards is compared literally; one with wildcards is matched against
    directory entries, which are never empty, and hidden entries are only
    matched by a pattern that starts with a dot. *)
Definition component_match (pat name : string) : bool :=
  if has_magic pat then
    (negb (String.eqb name "")
     && (negb (is_hidden name) || is_hidden pat)
     && fnmatch name pat)%bool
  else String.eqb pat name.

Fixpoint components_match (pats names : list string) : bool :=
  match pats, names with
  | [], [] => true
  | p :: pats', n :: names' =>
      (component_match p n && components_match pats' names')%bool
  | _, _ => false
  end.

Definition glob_match (pathname path : string) : bool :=
  components_match (py_split "/" pathname) (py_split "/" path).

(** [glob.glob(pathname)]: the existing paths that match, component by
    component, spelled as the pattern spells their directories. *)
Definition glob_paths (pathname : string) (fs : filesystem) : list string :=
  List.filter (glob_match pathname) (map fst (map_to_list fs)).

Definition glob_glob (pathname : string) : M (list string) := λ w,
  (Ok (glob_paths pathname (w_fs w)), w).

(** ** Text files and JSON *)

Definition in_range (lo hi : nat) (c : ascii) : bool :=
  ((lo <=? nat_of_ascii c)%nat && (nat_of_ascii c <=? hi)%nat)%bool.

(** The strict UTF-8 decoder of a file opened with [encoding='utf-8']:
    whether the bytes decode (no overlong form, no surrogate, nothing above
    U+10FFFF). *)
Fixpoint utf8_valid (s : string) : bool :=
  match s with
  | EmptyString => true
  | String c0 r =>
      let b0 := nat_of_ascii c0 in
      if (b0 <? 128)%nat then utf8_valid r
      else if in_range 194 223 c0 then
        match r with
        | String c1 r1 => (in_range 128 191 c1 && utf8_valid r1)%bool
        | _ => false
        end
      else if in_range 224 239 c0 then
        match r with
        | String c1 (String c2 r2) =>
            (in_range (if (b0 =? 224)%nat then 160 else 128)
                      (if (b0 =? 237)%nat then 159 else 191) c1
             && in_range 128 191 c2 && utf8_valid r2)%bool
        | _ => false
        end
      else if in_range 240 244 c0 then
        match r with
        | String c1 (String c2 (String c3 r3)) =>
            (in_range (if (b0 =? 240)%nat then 144 else 128)
                      (if (b0 =? 244)%nat then 143 else 191) c1
             && in_range 128 191 c2 && in_range 128 191 c3
             && utf8_valid r3)%bool
        | _ => false
        end
      else false
  end.

(** The text file that a [with open(..., 'w', encoding='utf-8')] block
    writes to: [f.write(chunk)] for each chunk in turn, then the exception
    [failure] of the producer of the chunks, if it ends in one.  A chunk
    that does not encode (it holds a lone surrogate) raises
    [UnicodeEncodeError] and nothing of it is written; what was written
    before it stays. *)
Fixpoint write_chunks (chunks : list string) (failure : option exn)
    (written : string) : result unit * string :=
  match chunks with
  | [] => (match failure with Some e => Raise e | None => Ok () end, written)
  | chunk :: rest =>
      if utf8_valid chunk then write_chunks rest failure (written +:+ chunk)
      else (Raise UnicodeEncodeError, written)
  end.

(** The [json] module of the Python library, as the program calls it.
    [json_iterencode obj] is what the encoder of [json.dump(obj, f, indent=2,
    ensure_ascii=False)] produces: the chunks of text that are handed to
    [f.write] one after the other, and the exception that ends the encoding
    after the last of them, if any ([RecursionError] on data nested too
    deep, [ValueError] on an integer of more digits than the interpreter
    converts).  [json_loads text] is what [json.loads(text)] returns or
    raises: [JSONDecodeError] on text that is not JSON, and again
    [RecursionError] and [ValueError]. *)
Class JsonModule : Type := {
  json_iterencode : pyval → list string * option exn;
  json_loads : string → result pyval
}.

(** [sys.maxsize] of a 64-bit build: the greatest length of a list. *)
Definition sys_maxsize : Z := 2 ^ 63 - 1.

(** The machine the program runs on.  [list_capacity] is the greatest
    number of items for which [list(range(n))] is given its memory; a longer
    list ends in [MemoryError].  This is the one allocation of the program
    whose size is read from its input without any other work; elsewhere
    memory is taken to suffice. *)
Class Platform : Type := {
  list_capacity : N
}.

(** The media interface of utils.audiobook_utils: each call acts on the
    file system and may raise. *)
Class AudiobookUtils : Type := {
  run_media : media_call → filesystem → result unit * filesystem
}.

(** ** Python operations on values *)

(** Truth value of a float literal: false exactly when it denotes a number
    that rounds to zero in binary64, that is when its digits are all zero or
    its magnitude is at most 2^-1075. *)
Definition digit_of (c : ascii) : option Z :=
  let n := nat_of_ascii c in
  if ((48 <=? n) && (n <=? 57))%nat%bool then Some (Z.of_nat (n - 48)) else None.

(** Reads a run of digits: their value, how many there were, and the rest. *)
Fixpoint read_digits (acc : Z) (count : Z) (s : string) : Z * Z * string :=
  match s with
  | String c s' =>
      match digit_of c with
      | Some d => read_digits (10 * acc + d) (count + 1) s'
      | None => (acc, count, s)
      end
  | EmptyString => (acc, count, s)
  end.

Definition float_literal_is_zero (lit : string) : bool :=
  let body := match lit with
              | String c r => if Ascii.eqb c "-" then r else lit
              | _ => lit
              end in
  match body with
  | String c _ =>
      match digit_of c with
      | None => false (* NaN, Infinity *)
      | Some _ =>
          let '(m1, _, r1) := read_digits 0 0 body in
          let '(m, fl, r2) :=
            match r1 with
            | String d r => if Ascii.eqb d "." then read_digits m1 0 r
                            else (m1, 0, r1)
            | _ => (m1, 0, r1)
            end in
          let ex :=
            match r2 with
            | String _ (String sg r as r') =>
                if Ascii.eqb sg "-" then - (read_digits 0 0 r).1.1
                else if Ascii.eqb sg "+" then (read_digits 0 0 r).1.1
                else (read_digits 0 0 r').1.1
            | _ => 0
            end in
          let e10 := ex - fl in
          ((m =? 0) || ((e10 <? 0) && (m * 2 ^ 1075 <=? 10 ^ (- e10))))%bool
      end
  | EmptyString => false
  end.

(** [bool(v)] *)
Definition py_truthy (v : pyval) : bool :=
  match v with
  | PNone => false
  | PBool b => b
  | PInt z => negb (z =? 0)
  | PFloat lit => negb (float_literal_is_zero lit)
  | PStr s => negb (String.eqb s "")
  | PList l => match l with [] => false | _ => true end
  | PDict kvs => match kvs with [] => false | _ => true end
  end.

Fixpoint assoc (key : string) (kvs : list (string * pyval)) : option pyval :=
  match kvs with
  | [] => None
  | (k, v) :: kvs' => if String.eqb k key then Some v else assoc key kvs'
  end.

(** [d[key]] for a string key. *)
Definition py_getitem (d : pyval) (key : string) : result pyval :=
  match d with
  | PDict kvs =>
      match assoc key kvs with
      | Some v => Ok v
      | None => Raise (KeyError key)
      end
  | _ => Raise TypeError
  end.

(** [d.get(key, default)]: only a dictionary has the method. *)
Definition py_get (d : pyval) (key : string) (dflt : pyval) : result pyval :=
  match d with
  | PDict kvs => Ok (default dflt (assoc key kvs))
  | _ => Raise AttributeError
  end.

(** [range(n)], as the indices it yields when it is iterated: the argument
    must be an integer ([bool] is one). *)
Definition py_range (n : pyval) : result (list nat) :=
  match n with
  | PInt z => Ok (seq 0 (Z.to_nat z))
  | PBool b => Ok (seq 0 (if b then 1 else 0))
  | _ => Raise TypeError
  end.

(** [len(range(n))] *)
Definition range_len (n : pyval) : result Z :=
  match n with
  | PInt z => Ok (Z.max 0 z)
  | PBool b => Ok (if b then 1 else 0)
  | _ => Raise TypeError
  end.

(** [list(range(n))]: the length of the range must fit a C [ssize_t]
    ([OverflowError] otherwise) and the list must get its memory
    ([MemoryError] otherwise). *)
Definition py_list_range {P : Platform} (n : pyval) : result (list nat) :=
  match range_len n with
  | Raise e => Raise e
  | Ok len =>
      if sys_maxsize <? len then Raise OverflowError
      else if Z.of_N list_capacity <? len then Raise MemoryError
      else py_range n
  end.

(** Evaluates [f x for x in xs], stopping at the first exception. *)
Fixpoint map_result {A B} (f : A → result B) (xs : list A) : result (list B) :=
  match xs with
  | [] => Ok []
  | x :: xs' =>
      match f x with
      | Raise e => Raise e
      | Ok y =>
          match map_result f xs' with
          | Raise e => Raise e
          | Ok ys => Ok (y :: ys)
          end
      end
  end.

(** ** utils/recovery_utils.py *)

Section RecoveryUtils.
Context {J : JsonModule} {U : AudiobookUtils} {P : Platform}.

(** [json.load(f)] on a file opened in text mode: the bytes are decoded
    first, then parsed. *)
Definition json_load (data : string) : M pyval :=
  if utf8_valid data then lift_result (json_loads data)
  else raise UnicodeDecodeError.

(** [json.dump(obj, f, indent=2, ensure_ascii=False)] on a file opened for
    writing: the chunks of the encoder are written as they come. *)
Definition json_dump (obj : pyval) : result unit * string :=
  let '(chunks, failure) := json_iterencode obj in
  write_chunks chunks failure "".

(** One entry of ["results_metadata"]. *)
Definition result_metadata (r : pyval) : result pyval :=
  match py_getitem r "index" with
  | Raise e => Raise e
  | Ok index =>
      match py_getitem r "line" with
      | Raise e => Raise e
      | Ok line =>
          match py_getitem r "is_chapter_heading" with
          | Raise e => Raise e
          | Ok heading =>
              Ok (PDict [("index", index); ("line", line);
                         ("is_chapter_heading", heading)])
          end
      end
  end.

Definition checkpoint_data (chapter_line_map chapter_files : pyval)
    (results : list pyval) : result pyval :=
  match map_result result_metadata results with
  | Raise e => Raise e
  | Ok metadata =>
      Ok (PDict [("chapter_line_map", chapter_line_map);
                 ("chapter_files", chapter_files);
                 ("total_lines", PInt (Z.of_nat (length results)));
                 ("results_metadata", PList metadata)])
  end.

Definition create_recovery_checkpoint (temp_audio_dir : string)
    (chapter_line_map chapter_files : pyval) (results : list pyval) : M unit :=
  data ← lift_result (checkpoint_data chapter_line_map chapter_files results);
  let checkpoint_path := os_path_join temp_audio_dir "recovery_checkpoint.json" in
  open_write checkpoint_path (json_dump data);;
  print (CheckpointCreated checkpoint_path).

Definition load_recovery_checkpoint (temp_audio_dir : string) : M pyval :=
  let checkpoint_path := os_path_join temp_audio_dir "recovery_checkpoint.json" in
  present ← os_path_exists checkpoint_path;
  if negb present then mret PNone
  else
    try_except
      (data ← open_read checkpoint_path; json_load data)
      (λ e, is_JSONDecodeError e || is_OSError e)
      (λ e, print (WarnCheckpointLoad e);; mret PNone).

(** The body of the loop of [validate_line_segments], with the list of
    missing indices passed along. *)
Fixpoint scan_line_segments (temp_line_audio_dir : string) (indices : list nat)
    (missing_indices : list nat) : M (list nat) :=
  match indices with
  | [] => mret missing_indices
  | i :: rest =>
      let line_file :=
        os_path_join temp_line_audio_dir ("line_" +:+ fmt_06d i +:+ ".wav") in
      present ← os_path_exists line_file;
      absent ← (if negb present then mret true
                else size ← os_path_getsize line_file;
                     mret (size =? 0)%nat) : M bool;
      scan_line_segments temp_line_audio_dir rest
        (if absent : bool then missing_indices ++ [i] else missing_indices)
  end.

Definition validate_line_segments (temp_line_audio_dir : string)
    (expected_line_count : pyval) : M (bool * list nat) :=
  present ← os_path_exists temp_line_audio_dir;
  if negb present then
    indices ← lift_result (py_list_range expected_line_count);
    mret (false, indices)
  else
    indices ← lift_result (py_range expected_line_count);
    missing_indices ← scan_line_segments temp_line_audio_dir indices [];
    mret (bool_decide (length missing_indices = 0%nat), missing_indices).

Definition can_resume_from_assembly (temp_audio_dir temp_line_audio_dir : string)
    : M (bool * pyval) :=
  checkpoint ← load_recovery_checkpoint temp_audio_dir;
  if negb (py_truthy checkpoint) then mret (false, PNone)
  else
    expected_lines ← lift_result (py_get checkpoint "total_lines" (PInt 0));
    '(all_present, missing) ←
      validate_line_segments temp_line_audio_dir expected_lines;
    if negb all_present then
      print (CannotResume (length missing) expected_lines);;
      mret (false, PNone)
    else
      print (AllSegmentsFound expected_lines);;
      mret (true, checkpoint).

Definition cleanup_partial_chapters (temp_audio_dir : string)
    (chapter_files : list string) : M unit :=
  for_each chapter_files (λ chapter_file,
    let chapter_path := os_path_join temp_audio_dir chapter_file in
    present ← os_path_exists chapter_path;
    if present : bool then
      try_except
        (os_remove chapter_path;; print (RemovedPartial chapter_file))
        is_OSError
        (λ e, print (WarnCouldNotRemove chapter_file e))
    else mret ());;
  let temp_patterns :=
    [os_path_join temp_audio_dir "chapter_list_*.txt";
     os_path_join temp_audio_dir "*.temp.wav";
     os_path_join temp_audio_dir "*.concat_list.txt"] in
  for_each temp_patterns (λ pattern,
    temp_files ← glob_glob pattern;
    for_each temp_files (λ temp_file,
      try_except
        (os_remove temp_file;; print (RemovedTemp (os_path_basename temp_file)))
        is_OSError
        (λ _, mret ()))).

(** A call into the media interface: it is recorded, acts on the file
    system, and its exception, if any, is the caller's. *)
Definition external (c : media_call) : M unit := λ w,
  let '(r, fs) := run_media c (w_fs w) in
  (r, World fs (w_stdout w) (w_yielded w) (w_calls w ++ [c])).

Definition assemble_chapter_with_ffmpeg (chapter_file : string) (lines : pyval)
    (temp_line_audio_dir temp_audio_dir : string) : M unit :=
  external (Assemble chapter_file lines temp_line_audio_dir temp_audio_dir).

Definition add_silence_to_chapter_with_ffmpeg (chapter_path : string)
    (duration_ms : Z) : M unit :=
  external (AddSilence chapter_path duration_ms).

Definition convert_chapter_to_m4a_with_ffmpeg (input_path output_path : string)
    : M unit :=
  external (ConvertM4a input_path output_path).

Definition generate_m4b_audiobook_with_ffmpeg (m4a_chapter_files : list string)
    (temp_audio_dir : string) (book_path : pyval) (narrator_gender : string)
    : M unit :=
  external (GenerateM4b m4a_chapter_files temp_audio_dir book_path narrator_gender).

(** [f"{chapter_file.split('.')[0]}.m4a"] *)
Definition m4a_name (chapter_file : string) : string :=
  let chapter_name := hd "" (py_split "." chapter_file) in
  chapter_name +:+ ".m4a".

(** The conversion loop, with the list it appends to. *)
Fixpoint convert_chapters (temp_audio_dir : string) (chapter_files : list string)
    (m4a_chapter_files : list string) : M (list string) :=
  match chapter_files with
  | [] => mret m4a_chapter_files
  | chapter_file :: rest =>
      let m4a_chapter_file := m4a_name chapter_file in
      convert_chapter_to_m4a_with_ffmpeg
        (os_path_join temp_audio_dir chapter_file)
        (os_path_join temp_audio_dir m4a_chapter_file);;
      yield ("Converted to M4A: " +:+ m4a_chapter_file);;
      convert_chapters temp_audio_dir rest
        (m4a_chapter_files ++ [m4a_chapter_file])
  end.

Definition msg_m4b_generated : string :=
  "âœ… M4B audiobook file generated successfully".

Definition msg_completed : string :=
  "ðŸŽ‰ Audiobook generation completed successfully!".

(** The generator, run to its end or to the exception that ends it: the
    messages it yields are appended to [w_yielded] as they are produced. *)
Definition assembly_and_post_processing_phase (chapter_files : list string)
    (chapter_line_map : pyval) (temp_audio_dir temp_line_audio_dir : string)
    (output_format narrator_gender : string)
    (generate_m4b_audiobook_file : bool) (book_path : pyval)
    (add_emotion_tags : bool) : M unit :=
  for_each chapter_files (λ chapter_file,
    lines ← lift_result (py_getitem chapter_line_map chapter_file);
    assemble_chapter_with_ffmpeg chapter_file lines
      temp_line_audio_dir temp_audio_dir;;
    yield ("Assembled chapter: " +:+ chapter_file));;
  yield "Completed assembling all chapters";;
  for_each chapter_files (λ chapter_file,
    let chapter_path := os_path_join temp_audio_dir chapter_file in
    add_silence_to_chapter_with_ffmpeg chapter_path 1000;;
    yield ("Added silence to chapter: " +:+ chapter_file));;
  m4a_chapter_files ← convert_chapters temp_audio_dir chapter_files [];
  yield "Completed post-processing all chapters";;
  (if generate_m4b_audiobook_file then
     yield "Generating final M4B audiobook file...";;
     generate_m4b_audiobook_with_ffmpeg m4a_chapter_files temp_audio_dir
       book_path narrator_gender;;
     yield msg_m4b_generated
   else mret ());;
  yield msg_completed.

End RecoveryUtils.

(** ** More Python operations on values *)

(** The characters of a text, each as its UTF-8 bytes: the length of a
    character is read off its first byte. *)
Fixpoint utf8_chars (s : string) : list string :=
  match s with
  | EmptyString => []
  | String c0 r =>
      let b0 := nat_of_ascii c0 in
      if (b0 <? 192)%nat then String c0 "" :: utf8_chars r
      else if (b0 <? 224)%nat then
        match r with
        | String c1 r1 => String c0 (String c1 "") :: utf8_chars r1
        | _ => [s]
        end
      else if (b0 <? 240)%nat then
        match r with
        | String c1 (String c2 r2) =>
            String c0 (String c1 (String c2 "")) :: utf8_chars r2
        | _ => [s]
        end
      else
        match r with
        | String c1 (String c2 (String c3 r3)) =>
            String c0 (String c1 (String c2 (String c3 ""))) :: utf8_chars r3
        | _ => [s]
        end
  end.

(** What [for x in v] takes from [v]: the items of a list, the keys of a
    dictionary, the characters of a string; nothing else can be iterated. *)
Definition py_iter (v : pyval) : result (list pyval) :=
  match v with
  | PList l => Ok l
  | PDict kvs => Ok (map (λ kv, PStr kv.1) kvs)
  | PStr s => Ok (map PStr (utf8_chars s))
  | _ => Raise TypeError
  end.

(** [len(v)] *)
Definition py_len (v : pyval) : result nat :=
  match v with
  | PList l => Ok (length l)
  | PDict kvs => Ok (length kvs)
  | PStr s => Ok (length (utf8_chars s))
  | _ => Raise TypeError
  end.

(** The strings that [for x in v] takes from [v]; [TypeError] stands for
    what a loop body that needs strings does with another item. *)
Definition py_iter_strings (v : pyval) : result (list string) :=
  match py_iter v with
  | Raise e => Raise e
  | Ok items =>
      map_result (λ item, match item with
                          | PStr s => Ok s
                          | _ => Raise TypeError
                          end) items
  end.

Section RecoveryCallers.
Context {J : JsonModule} {U : AudiobookUtils} {P : Platform}.

(** One round of the first loop of [cleanup_partial_chapters]. *)
Definition remove_partial_chapter (temp_audio_dir chapter_file : string)
    : M unit :=
  let chapter_path := os_path_join temp_audio_dir chapter_file in
  present ← os_path_exists chapter_path;
  if present : bool then
    try_except
      (os_remove chapter_path;; print (RemovedPartial chapter_file))
      is_OSError
      (λ e, print (WarnCouldNotRemove chapter_file e))
  else mret ().

(** The second loop of [cleanup_partial_chapters]. *)
Definition remove_temp_files (temp_audio_dir : string) : M unit :=
  let temp_patterns :=
    [os_path_join temp_audio_dir "chapter_list_*.txt";
     os_path_join temp_audio_dir "*.temp.wav";
     os_path_join temp_audio_dir "*.concat_list.txt"] in
  for_each temp_patterns (λ pattern,
    temp_files ← glob_glob pattern;
    for_each temp_files (λ temp_file,
      try_except
        (os_remove temp_file;; print (RemovedTemp (os_path_basename temp_file)))
        is_OSError
        (λ _, mret ()))).

(** [cleanup_partial_chapters] as its callers use it, on the value that a
    checkpoint holds under ["chapter_files"], which need not be a list of
    strings: the first loop takes the items of the value, whatever it is,
    and [os.path.join] raises [TypeError] on an item that is not a string,
    which ends the function. *)
Definition cleanup_partial_chapters_dyn (temp_audio_dir : string)
    (chapter_files : pyval) : M unit :=
  items ← lift_result (py_iter chapter_files);
  for_each items (λ item,
    match item with
    | PStr chapter_file => remove_partial_chapter temp_audio_dir chapter_file
    | _ => raise TypeError
    end);;
  remove_temp_files temp_audio_dir.

Definition resume_from_assembly_phase
    (temp_audio_dir temp_line_audio_dir : string) (checkpoint_data : pyval)
    : M (pyval * pyval) :=
  chapter_files ← lift_result (py_getitem checkpoint_data "chapter_files");
  chapter_line_map ←
    lift_result (py_getitem checkpoint_data "chapter_line_map");
  cleanup_partial_chapters_dyn temp_audio_dir chapter_files;;
  chapters ← lift_result (py_len chapter_files);
  print (Resuming chapters);;
  mret (chapter_files, chapter_line_map).

Definition msg_recovery_mode : string :=
  "ðŸ”„ **Recovery Mode**: Found existing line segments, resuming from assembly phase...".

(** [assembly_and_post_processing_phase] called on values taken from a
    checkpoint: the loops of the pipeline take the strings of
    [chapter_files]. *)
Definition assembly_and_post_processing_phase_dyn (chapter_files : pyval)
    (chapter_line_map : pyval) (temp_audio_dir temp_line_audio_dir : string)
    (output_format narrator_gender : string)
    (generate_m4b_audiobook_file : bool) (book_path : pyval)
    (add_emotion_tags : bool) : M unit :=
  names ← lift_result (py_iter_strings chapter_files);
  assembly_and_post_processing_phase names chapter_line_map temp_audio_dir
    temp_line_audio_dir output_format narrator_gender
    generate_m4b_audiobook_file book_path add_emotion_tags.

(** The generator that [create_recovery_enabled_generator] returns for
    [original_generator_func], called with the arguments that the pipeline
    takes after its directories. *)
Definition create_recovery_enabled_generator
    (original_generator_func : string → string → bool → pyval → bool → M unit)
    (output_format narrator_gender : string)
    (generate_m4b_audiobook_file : bool) (book_path : pyval)
    (add_emotion_tags : bool) : M unit :=
  let temp_audio_dir := "temp_audio" in
  let temp_line_audio_dir := os_path_join temp_audio_dir "line_segments" in
  '(can_resume, checkpoint_data) ←
    can_resume_from_assembly temp_audio_dir temp_line_audio_dir;
  if can_resume : bool then
    yield msg_recovery_mode;;
    '(chapter_files, chapter_line_map) ←
      resume_from_assembly_phase temp_audio_dir temp_line_audio_dir
        checkpoint_data;
    assembly_and_post_processing_phase_dyn chapter_files chapter_line_map
      temp_audio_dir temp_line_audio_dir output_format narrator_gender
      generate_m4b_audiobook_file book_path add_emotion_tags
  else
    original_generator_func output_format narrator_gender
      generate_m4b_audiobook_file book_path add_emotion_tags.

End RecoveryCallers.

(** ** More file-system calls *)

(** [os.path.isfile(path)] *)
Definition os_path_isfile (path : string) : M bool := λ w,
  (Ok (match w_fs w !! path with
       | Some (File _ _) => true
       | _ => false
       end), w).

(** The names of the entries of the directory [path]: the last component
    of every path that is [path] joined with that component. *)
Definition dir_entries (path : string) (fs : filesystem) : list string :=
  omap (λ q, let name := os_path_basename q in
             if (negb (String.eqb name "")
                 && String.eqb (os_path_join path name) q)%bool
             then Some name else None)
       (map fst (map_to_list fs)).

(** [os.listdir(path)], in the order the file system gives. *)
Definition os_listdir (path : string) : M (list string) := λ w,
  match w_fs w !! path with
  | Some (Dir _) => (Ok (dir_entries path (w_fs w)), w)
  | Some (File _ _) => (Raise NotADirectoryError, w)
  | None => (Raise FileNotFoundError, w)
  end.

(** ** retry_audiobook_assembly.py *)

(** What [retry_assembly] prints itself, one entry per call of [print]. *)
Inductive retry_printed : Type :=
  | CheckingRecoveryData
  | CannotResumeMissingData
  | RunFullGenerationFirst
  | RecoveryDataFound
  | FoundLineSegments (total_lines : pyval)
  | ChaptersToAssemble (chapters : nat)
  | ForceCleanupEnabled
  | StartingAssembly
  | StatusMessage (status_message : string)
  | AssemblyCompleted
  | GeneratedFilesIn (generated_dir : string)
  | GeneratedFile (file : string) (size : nat)
  | AssemblyFailed (e : exn)
  | TroubleshootingTips
  | TipCheckFfmpeg
  | TipDiskSpace
  | TipForceCleanup
  | TipFilePermissions.

(** A line of the standard output of the script: printed by the recovery
    utilities, or by the script itself. *)
Inductive stdout_line : Type :=
  | UtilsLine (p : printed)
  | ScriptLine (p : retry_printed).

(** The state of the script: the world of the utilities, and the standard
    output with the lines of both in the order they were printed. *)
Record script_world : Type := ScriptWorld {
  sw_world : world;
  sw_stdout : list stdout_line
}.

Definition Script (A : Type) : Type := script_world → result A * script_world.

#[global] Instance Script_ret : MRet Script := λ A (a : A) s, (Ok a, s).
#[global] Instance Script_bind : MBind Script :=
  λ A B (f : A → Script B) (m : Script A) s,
  match m s with
  | (Ok a, s') => f a s'
  | (Raise e, s') => (Raise e, s')
  end.

(** [print] in the script. *)
Definition say (p : retry_printed) : Script unit := λ s,
  (Ok (), ScriptWorld (sw_world s) (sw_stdout s ++ [ScriptLine p])).

(** A call into the utilities: what they print goes to the standard output
    of the script. *)
Definition utils {A} (m : M A) : Script A := λ s,
  let w := sw_world s in
  let '(r, w') := m w in
  (r, ScriptWorld w'
        (sw_stdout s
         ++ map UtilsLine (drop (length (w_stdout w)) (w_stdout w')))).

(** [async for status_message in gen: print(status_message)]: every
    message is printed when it is yielded. *)
Definition print_each_status (gen : M unit) : Script unit := λ s,
  let w := sw_world s in
  let '(r, w') := gen w in
  (r, ScriptWorld w'
        (sw_stdout s
         ++ map UtilsLine (drop (length (w_stdout w)) (w_stdout w'))
         ++ map (λ msg, ScriptLine (StatusMessage msg))
              (drop (length (w_yielded w)) (w_yielded w')))).

(** [try: body except Exception as e: handler e] *)
Definition try_except_Exception {A} (body : Script A)
    (handler : exn → Script A) : Script A := λ s,
  match body s with
  | (Raise e, s') => handler e s'
  | r => r
  end.

Fixpoint script_for_each {A} (xs : list A) (body : A → Script unit)
    : Script unit :=
  match xs with
  | [] => mret ()
  | x :: xs' => body x ;; script_for_each xs' body
  end.

Section RetryAssembly.
Context {J : JsonModule} {U : AudiobookUtils} {P : Platform}.

(** [retry_assembly]; the import of the recovery utilities at its start
    succeeds. *)
Definition retry_assembly (temp_dir output_format narrator_gender : string)
    (book_path : pyval) (generate_m4b add_emotion_tags force_cleanup : bool)
    : Script Z :=
  let temp_line_audio_dir := os_path_join temp_dir "line_segments" in
  say CheckingRecoveryData;;
  '(can_resume, checkpoint_data) ←
    utils (can_resume_from_assembly temp_dir temp_line_audio_dir);
  if negb can_resume then
    say CannotResumeMissingData;;
    say RunFullGenerationFirst;;
    mret 1
  else
    say RecoveryDataFound;;
    total_lines ← utils (lift_result (py_getitem checkpoint_data "total_lines"));
    say (FoundLineSegments total_lines);;
    listed ← utils (lift_result (py_getitem checkpoint_data "chapter_files"));
    chapters ← utils (lift_result (py_len listed));
    say (ChaptersToAssemble chapters);;
    '(chapter_files, chapter_line_map) ←
      utils (resume_from_assembly_phase temp_dir temp_line_audio_dir
               checkpoint_data);
    (if force_cleanup then
       say ForceCleanupEnabled;;
       utils (cleanup_partial_chapters_dyn temp_dir chapter_files)
     else mret ());;
    say StartingAssembly;;
    try_except_Exception
      (print_each_status
         (assembly_and_post_processing_phase_dyn chapter_files
            chapter_line_map temp_dir temp_line_audio_dir output_format
            narrator_gender generate_m4b book_path add_emotion_tags);;
       say AssemblyCompleted;;
       let generated_dir := "generated_audiobooks" in
       present ← utils (os_path_exists generated_dir);
       (if present : bool then
          say (GeneratedFilesIn generated_dir);;
          files ← utils (os_listdir generated_dir);
          script_for_each files (λ file,
            let file_path := os_path_join generated_dir file in
            is_file ← utils (os_path_isfile file_path);
            if is_file : bool then
              size ← utils (os_path_getsize file_path);
              say (GeneratedFile file size)
            else mret ())
        else mret ());;
       mret 0)
      (λ e,
        say (AssemblyFailed e);;
        say TroubleshootingTips;;
        say TipCheckFfmpeg;;
        say TipDiskSpace;;
        say TipForceCleanup;;
        say TipFilePermissions;;
        mret 1).

End RetryAssembly.

(** The status messages among the lines of the script. *)
Definition status_messages (out : list stdout_line) : list string :=
  omap (λ l, match l with
             | ScriptLine (StatusMessage msg) => Some msg
             | _ => None
             end) out.

(** ** test_filename_sanitization.py *)

(** [s.replace(old, new)] for a one-character [old]. *)
Fixpoint py_replace (old : ascii) (new s : string) : string :=
  match s with
  | EmptyString => ""
  | String c s' =>
      (if Ascii.eqb c old then new else String c "") +:+ py_replace old new s'
  end.

(** [s.replace(old1, new1).replace(old2, new2)...], left to right. *)
Definition replace_chain (s : string) (pairs : list (ascii * string)) : string :=
  foldl (λ text '(old, new), py_replace old new text) s pairs.

(** The number of bytes of the white-space character that [s] starts with,
    0 when it starts with none.  White space is what [str.isspace] accepts:
    U+0009 to U+000D, U+001C to U+0020, U+0085, U+00A0, U+1680, U+2000 to
    U+200A, U+2028, U+2029, U+202F, U+205F and U+3000, here in UTF-8. *)
Definition space_width (s : string) : nat :=
  match s with
  | EmptyString => 0
  | String c0 r =>
      let b0 := nat_of_ascii c0 in
      if ((9 <=? b0) && (b0 <=? 13) || (28 <=? b0) && (b0 <=? 32))%nat%bool
      then 1
      else
        match r with
        | EmptyString => 0
        | String c1 r1 =>
            let b1 := nat_of_ascii c1 in
            if (b0 =? 194)%nat then
              if ((b1 =? 133) || (b1 =? 160))%nat%bool then 2 else 0
            else
              match r1 with
              | EmptyString => 0
              | String c2 _ =>
                  let b2 := nat_of_ascii c2 in
                  if ((b0 =? 225) && (b1 =? 154) && (b2 =? 128)
                      || (b0 =? 226) && (b1 =? 128)
                         && ((128 <=? b2) && (b2 <=? 138)
                             || (b2 =? 168) || (b2 =? 169) || (b2 =? 175))
                      || (b0 =? 226) && (b1 =? 129) && (b2 =? 159)
                      || (b0 =? 227) && (b1 =? 128) && (b2 =? 128))%nat%bool
                  then 3 else 0
              end
        end
  end.

(** The scan of [s.split()]: [skip] bytes of a white-space character are
    still to be passed over, [word] is the word read so far. *)
Fixpoint split_whitespace (skip : nat) (word s : string) : list string :=
  match s with
  | EmptyString => if String.eqb word "" then [] else [word]
  | String c s' =>
      match skip with
      | S skip' => split_whitespace skip' word s'
      | O =>
          match space_width s with
          | O => split_whitespace 0 (word +:+ String c "") s'
          | S skip' =>
              (if String.eqb word "" then [] else [word])
              ++ split_whitespace skip' "" s'
          end
      end
  end.

(** [s.split()]: the words between runs of white space. *)
Definition py_split_whitespace (s : string) : list string :=
  split_whitespace 0 "" s.

Definition sanitize_filename (text : string) : string :=
  let text :=
    replace_chain text
      [("'"%char, ""); ("034"%char, ""); ("/"%char, " "); ("."%char, " ")] in
  let text :=
    replace_chain text
      [(":"%char, ""); ("?"%char, ""); ("\"%char, ""); ("|"%char, "")] in
  let text :=
    replace_chain text
      [("*"%char, ""); ("<"%char, ""); (">"%char, ""); ("&"%char, "and")] in
  let text :=
    replace_chain text
      [(","%char, ""); (";"%char, ""); ("!"%char, ""); ("@"%char, "")] in
  let text :=
    replace_chain text
      [("#"%char, ""); ("$"%char, ""); ("%"%char, ""); ("^"%char, "")] in
  let text :=
    replace_chain text
      [("("%char, ""); (")"%char, ""); ("["%char, ""); ("]"%char, "")] in
  let text :=
    replace_chain text
      [("{"%char, ""); ("}"%char, ""); ("="%char, ""); ("+"%char, "")] in
  String.concat " " (py_split_whitespace text).

(** The characters that [sanitize_filename] removes or replaces. *)
Definition unsafe_characters : list ascii :=
  list_ascii_of_string "'/.:?\|*<>&,;!@#$%^()[]{}=+" ++ ["034"%char].

(** ** A reference implementation of the JSON module

    The printer writes the layout of [json.dump(..., indent=2,
    ensure_ascii=False)], in the chunks of its encoder; the parser follows
    the grammar of [json.loads].  They make the examples concrete.  The
    reference module knows no limit on the nesting of the data or on the
    digits of an integer: it never raises [RecursionError] or
    [ValueError]. *)

Module RefJson.

(** The double quote. *)
Definition dq : string := String "034" "".

Definition hex_digit (n : nat) : ascii :=
  ascii_of_nat (if (n <? 10)%nat then 48 + n else 87 + n).

(** One character of a string, as [json.dumps] writes it. *)
Definition escape_char (c : ascii) : string :=
  let n := nat_of_ascii c in
  if Ascii.eqb c "034" then String "\" dq
  else if Ascii.eqb c "\" then "\\"
  else if (n =? 8)%nat then "\b"
  else if (n =? 12)%nat then "\f"
  else if (n =? 10)%nat then "\n"
  else if (n =? 13)%nat then "\r"
  else if (n =? 9)%nat then "\t"
  else if (n <? 32)%nat then
    "\u00" +:+ String (hex_digit (n / 16)) (String (hex_digit (n mod 16)) "")
  else String c "".

Fixpoint escape (s : string) : string :=
  match s with
  | EmptyString => ""
  | String c s' => escape_char c +:+ escape s'
  end.

Definition quote (s : string) : string := dq +:+ escape s +:+ dq.

Definition newline_indent (level : nat) : string :=
  String (ascii_of_nat 10) (repeat_char " " (2 * level)).

(** [json.dumps(v, indent=2, ensure_ascii=False)] at nesting depth
    [level]: the items of a non-empty list or dictionary stand on lines of
    their own, two spaces deeper, separated by a comma. *)
Fixpoint dumps (level : nat) (v : pyval) : string :=
  match v with
  | PNone => "null"
  | PBool true => "true"
  | PBool false => "false"
  | PInt z => pretty z
  | PFloat lit => lit
  | PStr s => quote s
  | PList [] => "[]"
  | PList l =>
      "[" +:+ newline_indent (S level)
      +:+ String.concat ("," +:+ newline_indent (S level))
            (map (dumps (S level)) l)
      +:+ newline_indent level +:+ "]"
  | PDict [] => "{}"
  | PDict kvs =>
      "{" +:+ newline_indent (S level)
      +:+ String.concat ("," +:+ newline_indent (S level))
            (map (λ kv, quote kv.1 +:+ ": " +:+ dumps (S level) kv.2) kvs)
      +:+ newline_indent level +:+ "}"
  end.

(** The chunks in which the encoder yields that text: an item of a list
    that is not itself a list or a dictionary comes in one chunk with what
    precedes it; the brackets, the separators and the keys of a dictionary
    are chunks of their own. *)
Fixpoint iterencode (level : nat) (v : pyval) : list string :=
  match v with
  | PList [] => ["[]"]
  | PList (x :: l) =>
      let item (buf : string) (x : pyval) : list string :=
        match x with
        | PList _ | PDict _ => buf :: iterencode (S level) x
        | _ => [buf +:+ dumps (S level) x]
        end in
      item ("[" +:+ newline_indent (S level)) x
      ++ flat_map (item ("," +:+ newline_indent (S level))) l
      ++ [newline_indent level; "]"]
  | PDict [] => ["{}"]
  | PDict (kv :: kvs) =>
      let member (kv : string * pyval) : list string :=
        quote kv.1 :: ": " :: iterencode (S level) kv.2 in
      "{" :: newline_indent (S level) :: member kv
      ++ flat_map (λ kv, ("," +:+ newline_indent (S level)) :: member kv) kvs
      ++ [newline_indent level; "}"]
  | _ => [dumps level v]
  end.

Definition is_ws (c : ascii) : bool :=
  let n := nat_of_ascii c in
  ((n =? 32) || (n =? 9) || (n =? 10) || (n =? 13))%nat%bool.

Fixpoint skip_ws (s : string) : string :=
  match s with
  | String c s' => if is_ws c then skip_ws s' else s
  | EmptyString => s
  end.

Definition hex_value (c : ascii) : option N :=
  let n := N_of_ascii c in
  if ((48 <=? n) && (n <=? 57))%N%bool then Some (n - 48)%N
  else if ((97 <=? n) && (n <=? 102))%N%bool then Some (n - 87)%N
  else if ((65 <=? n) && (n <=? 70))%N%bool then Some (n - 55)%N
  else None.

(** Four hexadecimal digits. *)
Definition read_hex4 (s : string) : option (N * string) :=
  match s with
  | String a (String b (String c (String d r))) =>
      match hex_value a, hex_value b, hex_value c, hex_value d with
      | Some x, Some y, Some z, Some t =>
          Some (((x * 16 + y) * 16 + z) * 16 + t, r)%N
      | _, _, _, _ => None
      end
  | _ => None
  end.

(** The UTF-8 bytes of a code point (a lone surrogate gets the three bytes
    of its generalised form). *)
Definition utf8_encode (cp : N) : string :=
  let b (n : N) := ascii_of_N n in
  (if cp <? 128 then String (b cp) ""
   else if cp <? 2048 then
     String (b (192 + cp / 64)) (String (b (128 + cp mod 64)) "")
   else if cp <? 65536 then
     String (b (224 + cp / 4096))
       (String (b (128 + (cp / 64) mod 64)) (String (b (128 + cp mod 64)) ""))
   else
     String (b (240 + cp / 262144))
       (String (b (128 + (cp / 4096) mod 64))
          (String (b (128 + (cp / 64) mod 64))
             (String (b (128 + cp mod 64)) ""))))%N.

(** The body of a string, after its opening quote: the decoded text and
    what follows the closing quote. *)
Fixpoint scan_string (fuel : nat) (s : string) : option (string * string) :=
  match fuel with
  | O => None
  | S fuel' =>
      match s with
      | EmptyString => None
      | String c r =>
          if Ascii.eqb c "034" then Some ("", r)
          else if (nat_of_ascii c <? 32)%nat then None
          else if Ascii.eqb c "\" then
            match r with
            | String e r' =>
                let simple (t : string) :=
                  match scan_string fuel' r' with
                  | Some (body, rest) => Some (t +:+ body, rest)
                  | None => None
                  end in
                if Ascii.eqb e "034" then simple dq
                else if Ascii.eqb e "\" then simple "\"
                else if Ascii.eqb e "/" then simple "/"
                else if Ascii.eqb e "b" then simple (String (ascii_of_nat 8) "")
                else if Ascii.eqb e "f" then simple (String (ascii_of_nat 12) "")
                else if Ascii.eqb e "n" then simple (String (ascii_of_nat 10) "")
                else if Ascii.eqb e "r" then simple (String (ascii_of_nat 13) "")
                else if Ascii.eqb e "t" then simple (String (ascii_of_nat 9) "")
                else if Ascii.eqb e "u" then
                  match read_hex4 r' with
                  | Some (hi, r2) =>
                      let single :=
                        match scan_string fuel' r2 with
                        | Some (body, rest) => Some (utf8_encode hi +:+ body, rest)
                        | None => None
                        end in
                      if ((55296 <=? hi) && (hi <=? 56319))%N%bool then
                        match r2 with
                        | String b1 (String b2 r3) =>
                            if (Ascii.eqb b1 "\" && Ascii.eqb b2 "u")%bool then
                              match read_hex4 r3 with
                              | Some (lo, r4) =>
                                  if ((56320 <=? lo) && (lo <=? 57343))%N%bool
                                  then
                                    match scan_string fuel' r4 with
                                    | Some (body, rest) =>
                                        Some (utf8_encode
                                                (65536 + (hi - 55296) * 1024
                                                 + (lo - 56320))%N +:+ body,
                                              rest)
                                    | None => None
                                    end
                                  else single
                              | None => single
                              end
                            else single
                        | _ => single
                        end
                      else single
                  | None => None
                  end
                else None
            | EmptyString => None
            end
          else
            match scan_string fuel' r with
            | Some (body, rest) => Some (String c body, rest)
            | None => None
            end
      end
  end.
Fixpoint take_digits (s : string) : string * string :=
  match s with
  | String c s' =>
      match digit_of c with
      | Some _ => let '(ds, r) := take_digits s' in (String c ds, r)
      | None => ("", s)
      end
  | EmptyString => ("", s)
  end.

(** [s] without its prefix [p], if it starts with [p]. *)
Fixpoint starts_with (p s : string) : option string :=
  match p with
  | EmptyString => Some s
  | String a p' =>
      match s with
      | String b s' => if Ascii.eqb a b then starts_with p' s' else None
      | EmptyString => None
      end
  end.

(** The digits of a number, after its sign. *)
Definition scan_unsigned (sign body : string) : option (pyval * string) :=
  let '(ds, r1) := take_digits body in
  let '(int_part, r1) :=
    match ds with
    | String d ds' =>
        if Ascii.eqb d "0" then ("0", ds' +:+ r1) else (ds, r1)
    | EmptyString => ("", r1)
    end in
  if String.eqb int_part "" then None
  else
    let '(frac, r2) :=
      match r1 with
      | String c r =>
          if Ascii.eqb c "." then
            let '(fs, r') := take_digits r in
            if String.eqb fs "" then ("", r1) else ("." +:+ fs, r')
          else ("", r1)
      | EmptyString => ("", r1)
      end in
    let '(expo, r3) :=
      match r2 with
      | String c r =>
          if (Ascii.eqb c "e" || Ascii.eqb c "E")%bool then
            let '(sg, r') :=
              match r with
              | String g r'' =>
                  if (Ascii.eqb g "-" || Ascii.eqb g "+")%bool
                  then (String g "", r'') else ("", r)
              | EmptyString => ("", r)
              end in
            let '(es, r'') := take_digits r' in
            if String.eqb es "" then ("", r2)
            else (String c (sg +:+ es), r'')
          else ("", r2)
      | EmptyString => ("", r2)
      end in
    if (String.eqb frac "" && String.eqb expo "")%bool then
      let n := (read_digits 0 0 int_part).1.1 in
      Some (PInt (if String.eqb sign "-" then - n else n), r3)
    else Some (PFloat (sign +:+ int_part +:+ frac +:+ expo), r3).

(** A number: an optional minus, an integer part without a superfluous
    leading zero, an optional fraction, an optional exponent; an integer
    when it has neither fraction nor exponent. *)
Definition scan_number (s : string) : option (pyval * string) :=
  match s with
  | String c r => if Ascii.eqb c "-" then scan_unsigned "-" r
                  else scan_unsigned "" s
  | EmptyString => scan_unsigned "" s
  end.

(** [d[key] = v]: a key keeps its place, its value is replaced. *)
Fixpoint dict_set (key : string) (v : pyval) (kvs : list (string * pyval))
    : list (string * pyval) :=
  match kvs with
  | [] => [(key, v)]
  | (k, x) :: kvs' =>
      if String.eqb k key then (k, v) :: kvs' else (k, x) :: dict_set key v kvs'
  end.

(** A value at the head of [s] (no leading white space), and the rest. *)
Fixpoint parse_value (fuel : nat) (s : string) : option (pyval * string) :=
  match fuel with
  | O => None
  | S fuel' =>
      match s with
      | EmptyString => None
      | String c r =>
          if Ascii.eqb c "034" then
            match scan_string (String.length r) r with
            | Some (t, rest) => Some (PStr t, rest)
            | None => None
            end
          else if Ascii.eqb c "[" then
            let r := skip_ws r in
            match r with
            | String c' r' =>
                if Ascii.eqb c' "]" then Some (PList [], r')
                else parse_elements fuel' r []
            | EmptyString => None
            end
          else if Ascii.eqb c "{" then
            let r := skip_ws r in
            match r with
            | String c' r' =>
                if Ascii.eqb c' "}" then Some (PDict [], r')
                else parse_members fuel' r []
            | EmptyString => None
            end
          else
            match starts_with "null" s, starts_with "true" s,
                  starts_with "false" s, starts_with "NaN" s,
                  starts_with "Infinity" s, starts_with "-Infinity" s with
            | Some rest, _, _, _, _, _ => Some (PNone, rest)
            | _, Some rest, _, _, _, _ => Some (PBool true, rest)
            | _, _, Some rest, _, _, _ => Some (PBool false, rest)
            | _, _, _, Some rest, _, _ => Some (PFloat "NaN", rest)
            | _, _, _, _, Some rest, _ => Some (PFloat "Infinity", rest)
            | _, _, _, _, _, Some rest => Some (PFloat "-Infinity", rest)
            | _, _, _, _, _, _ => scan_number s
            end
      end
  end
with parse_elements (fuel : nat) (s : string) (acc : list pyval)
    : option (pyval * string) :=
  match fuel with
  | O => None
  | S fuel' =>
      match parse_value fuel' s with
      | Some (v, rest) =>
          match skip_ws rest with
          | String c r =>
              if Ascii.eqb c "]" then Some (PList (acc ++ [v]), r)
              else if Ascii.eqb c "," then
                parse_elements fuel' (skip_ws r) (acc ++ [v])
              else None
          | EmptyString => None
          end
      | None => None
      end
  end
with parse_members (fuel : nat) (s : string) (acc : list (string * pyval))
    : option (pyval * string) :=
  match fuel with
  | O => None
  | S fuel' =>
      match s with
      | String q r =>
          if Ascii.eqb q "034" then
            match scan_string (String.length r) r with
            | Some (key, rest) =>
                match skip_ws rest with
                | String c r1 =>
                    if Ascii.eqb c ":" then
                      match parse_value fuel' (skip_ws r1) with
                      | Some (v, rest') =>
                          match skip_ws rest' with
                          | String c' r2 =>
                              if Ascii.eqb c' "}"
                              then Some (PDict (dict_set key v acc), r2)
                              else if Ascii.eqb c' "," then
                                parse_members fuel' (skip_ws r2)
                                  (dict_set key v acc)
                              else None
                          | EmptyString => None
                          end
                      | None => None
                      end
                    else None
                | EmptyString => None
                end
            | None => None
            end
          else None
      | EmptyString => None
      end
  end.

(** [json.loads(text)]: one value, white space around it, nothing else. *)
Definition loads (text : string) : option pyval :=
  match parse_value (2 * String.length text + 2) (skip_ws text) with
  | Some (v, rest) =>
      if String.eqb (skip_ws rest) "" then Some v else None
  | None => None
  end.

#[export] Instance json : JsonModule := {|
  json_iterencode obj := (iterencode 0 obj, None);
  json_loads text :=
    match loads text with
    | Some v => Ok v
    | None => Raise JSONDecodeError
    end
|}.

End RefJson.

(** ** A media interface for the examples: the calls in [fails] raise, the
    others succeed and leave the file system as it is. *)

Module RefMedia.

Definition media (fails : media_call → bool) : AudiobookUtils := {|
  run_media c fs :=
    if fails c then (Raise (ExternalError "ffmpeg failed"), fs) else (Ok (), fs)
|}.

End RefMedia.

(** ** Worlds for the examples *)

Module Examples.

(** A machine with the memory for a list of 2^32 items. *)
#[export] Instance platform : Platform := {| list_capacity := 4294967296 |}.

(** The working directory [temp_audio], holding the checkpoint file
    [text]; [units] are further entries. *)
Definition workdir (text : string) (units : list (string * node)) : filesystem :=
  list_to_map
    (("temp_audio", Dir 4096)
     :: ("temp_audio/recovery_checkpoint.json", File text false)
     :: units).

(** A non-empty unit file. *)
Definition wav : node := File "RIFF" false.

(** Two chapters of one line each. *)
Definition two_chapters : pyval :=
  PDict [("chapter_line_map",
          PDict [("ch1.wav", PList [PInt 0]); ("ch2.wav", PList [PInt 1])]);
         ("chapter_files", PList [PStr "ch1.wav"; PStr "ch2.wav"]);
         ("total_lines", PInt 2);
         ("results_metadata",
          PList [PDict [("index", PInt 0); ("line", PStr "Chapter 1");
                        ("is_chapter_heading", PBool true)];
                 PDict [("index", PInt 1); ("line", PStr "Chapter 2");
                        ("is_chapter_heading", PBool true)]])].


(** A checkpoint that declares no unit and yet maps a chapter to unit 0. *)
Definition zero_total_with_reference : pyval :=
  PDict [("chapter_line_map", PDict [("ch1.wav", PList [PInt 0])]);
         ("chapter_files", PList [PStr "ch1.wav"]);
         ("total_lines", PInt 0); ("results_metadata", PList [])].

(** A checkpoint without the field [total_lines]. *)
Definition without_total : pyval :=
  PDict [("chapter_line_map", PDict [("ch1.wav", PList [PInt 0])]);
         ("chapter_files", PList [PStr "ch1.wav"])].

Definition line_segments : list (string * node) :=
  [("temp_audio/line_segments", Dir 4096);
   ("temp_audio/line_segments/line_000000.wav", wav);
   ("temp_audio/line_segments/line_000001.wav", wav)].

(** The first bytes of the checkpoint of a book whose only chapter file is
    [Café.wav], the writing having stopped inside the two-byte letter. *)
Definition interrupted_checkpoint : string :=
  String.substring 0 35
    (RefJson.dumps 0
       (PDict [("chapter_line_map", PDict [("Café.wav", PList [PInt 0])]);
               ("chapter_files", PList [PStr "Café.wav"]);
               ("total_lines", PInt 1);
               ("results_metadata",
                PList [PDict [("index", PInt 0); ("line", PStr "Café");
                              ("is_chapter_heading", PBool true)]])])).

(** The text of one character, the lone surrogate U+D800, in the three
    bytes of its generalised form. *)
Definition lone_surrogate : string :=
  String "237" (String "160" (String "128" "")).

(** A media interface that fails when silence is added to the second
    chapter. *)
Definition fails_on_second_silence (c : media_call) : bool :=
  match c with
  | AddSilence path _ => String.eqb path "temp_audio/ch2.wav"
  | _ => false
  end.

(** The results of the generation of two lines. *)
Definition two_results : list pyval :=
  [PDict [("index", PInt 0); ("line", PStr "Chapter 1");
          ("is_chapter_heading", PBool true);
          ("audio_path", PStr "temp_audio/line_segments/line_000000.wav")];
   PDict [("index", PInt 1); ("line", PStr "Chapter 2");
          ("is_chapter_heading", PBool true);
          ("audio_path", PStr "temp_audio/line_segments/line_000001.wav")]].

End Examples.

(** ** Notions the statements use *)

(** The path of the unit with index [i]. *)
Definition unit_path (temp_line_audio_dir : string) (i : nat) : string :=
  os_path_join temp_line_audio_dir ("line_" +:+ fmt_06d i +:+ ".wav").

Definition node_size (n : node) : nat :=
  match n with
  | File data _ => String.length data
  | Dir size => size
  end.

(** The unit file does not exist or has zero size. *)
Definition unit_missing (fs : filesystem) (dir : string) (i : nat) : Prop :=
  ∀ n, fs !! unit_path dir i = Some n → node_size n = 0%nat.

#[global] Instance unit_missing_dec fs dir i : Decision (unit_missing fs dir i).
Proof.
  unfold unit_missing. destruct (fs !! unit_path dir i) as [n|].
  - destruct (decide (node_size n = 0%nat)) as [e|ne].
    + left. intros ? [= <-]. exact e.
    + right. intros Hn. apply ne, Hn. reflexivity.
  - left. intros ? [=].
Defined.

Definition path_exists (fs : filesystem) (path : string) : Prop :=
  is_Some (fs !! path).

(** The units the checkpoint counts are all there: the unit directory
    exists and no index below [n] lacks a non-empty file. *)
Definition units_complete (fs : filesystem) (udir : string) (n : nat) : Prop :=
  path_exists fs udir ∧ ∀ i, (i < n)%nat → ¬ unit_missing fs udir i.

(** The checkpoint maps some chapter to a list that holds a unit index. *)
Definition references_a_unit (checkpoint : pyval) : Prop :=
  ∃ groups chapter units (i : Z),
    py_getitem checkpoint "chapter_line_map" = Ok (PDict groups)
    ∧ assoc chapter groups = Some (PList units)
    ∧ PInt i ∈ units.

(** [json.dumps(obj, indent=2, ensure_ascii=False)]: the chunks of the
    encoder, joined. *)
Definition json_dumps {J : JsonModule} (obj : pyval) : string :=
  String.concat "" (json_iterencode obj).1.

(** The JSON module writes [v] as text that decodes and that it reads back
    as [v]. *)
Definition json_round_trips {J : JsonModule} (v : pyval) : Prop :=
  utf8_valid (json_dumps v) = true ∧ json_loads (json_dumps v) = Ok v.

Definition has_char (ch : ascii) (s : string) : bool :=
  existsb (λ c, Ascii.eqb c ch) (list_ascii_of_string s).

Definition has_slash (s : string) : bool := has_char "/" s.

(** The file name with its extension replaced, in the words of the
    specification: the name up to its last dot (the whole name when it has
    no dot), then a dot and the new extension. *)
Definition with_extension (name ext : string) : string :=
  match py_split "." name with
  | [] | [_] => name +:+ "." +:+ ext
  | parts => String.concat "." (removelast parts) +:+ "." +:+ ext
  end.

(** The names of the transient files, as patterns. *)
Definition temp_name_patterns : list string :=
  ["chapter_list_*.txt"; "*.temp.wav"; "*.concat_list.txt"].

(** *** The pipeline as a schedule

    The phase pipeline of the specification: a fixed sequence of steps, run
    in order up to the first one that fails. *)
Inductive step : Type :=
  | Media (c : media_call)
  | Emit (msg : string)
  | Fail (e : exn).

Definition run_step {U : AudiobookUtils} (s : step) : M unit :=
  match s with
  | Media c => external c
  | Emit msg => yield msg
  | Fail e => raise e
  end.

Definition run_schedule {U : AudiobookUtils} (steps : list step) : M unit :=
  for_each steps run_step.

Definition emits (steps : list step) : list string :=
  flat_map (λ s, match s with Emit msg => [msg] | _ => [] end) steps.

Definition calls (steps : list step) : list media_call :=
  flat_map (λ s, match s with Media c => [c] | _ => [] end) steps.

Definition assembled (chapter_file : string) : string :=
  "Assembled chapter: " +:+ chapter_file.
Definition silenced (chapter_file : string) : string :=
  "Added silence to chapter: " +:+ chapter_file.
Definition converted (chapter_file : string) : string :=
  "Converted to M4A: " +:+ m4a_name chapter_file.

Section Schedule.
Variables (chapter_line_map : pyval) (temp_audio_dir temp_line_audio_dir : string).

Definition assembling_steps (chapter_files : list string) : list step :=
  flat_map (λ f,
    match py_getitem chapter_line_map f with
    | Ok lines =>
        [Media (Assemble f lines temp_line_audio_dir temp_audio_dir);
         Emit (assembled f)]
    | Raise e => [Fail e]
    end) chapter_files.

Definition silence_call (f : string) : media_call :=
  AddSilence (os_path_join temp_audio_dir f) 1000.

Definition post_processing_steps (chapter_files : list string) : list step :=
  flat_map (λ f, [Media (silence_call f); Emit (silenced f)]) chapter_files.

Definition convert_call (f : string) : media_call :=
  ConvertM4a (os_path_join temp_audio_dir f)
    (os_path_join temp_audio_dir (m4a_name f)).

Definition converting_steps (chapter_files : list string) : list step :=
  flat_map (λ f, [Media (convert_call f); Emit (converted f)]) chapter_files.

Definition final_merging_steps (chapter_files : list string)
    (generate_m4b_audiobook_file : bool) (book_path : pyval)
    (narrator_gender : string) : list step :=
  if generate_m4b_audiobook_file then
    [Emit "Generating final M4B audiobook file...";
     Media (GenerateM4b (map m4a_name chapter_files) temp_audio_dir
              book_path narrator_gender);
     Emit msg_m4b_generated]
  else [].

Definition schedule (chapter_files : list string)
    (generate_m4b_audiobook_file : bool) (book_path : pyval)
    (narrator_gender : string) : list step :=
  assembling_steps chapter_files
  ++ [Emit "Completed assembling all chapters"]
  ++ post_processing_steps chapter_files
  ++ converting_steps chapter_files
  ++ [Emit "Completed post-processing all chapters"]
  ++ final_merging_steps chapter_files generate_m4b_audiobook_file
       book_path narrator_gender
  ++ [Emit msg_completed].

(** The per-group states of the pipeline. *)
Inductive stage : Type := Assembling | PostProcessing | Converting.

(** What is scheduled before the operation of [stage] on the group that
    follows the groups [done], out of [chapter_files]. *)
Definition steps_before (s : stage) (chapter_files done : list string)
    : list step :=
  match s with
  | Assembling => assembling_steps done
  | PostProcessing =>
      assembling_steps chapter_files
      ++ [Emit "Completed assembling all chapters"]
      ++ post_processing_steps done
  | Converting =>
      assembling_steps chapter_files
      ++ [Emit "Completed assembling all chapters"]
      ++ post_processing_steps chapter_files
      ++ converting_steps done
  end.

(** The progress events of the groups that completed [stage], and of every
    group in the states before it. *)
Definition events_before (s : stage) (chapter_files done : list string)
    : list string :=
  match s with
  | Assembling => map assembled done
  | PostProcessing =>
      map assembled chapter_files
      ++ ["Completed assembling all chapters"]
      ++ map silenced done
  | Converting =>
      map assembled chapter_files
      ++ ["Completed assembling all chapters"]
      ++ map silenced chapter_files
      ++ map converted done
  end.

(** The operation of [stage] on group [g]. *)
Definition stage_call (s : stage) (g : string) : result media_call :=
  match s with
  | Assembling =>
      match py_getitem chapter_line_map g with
      | Ok lines => Ok (Assemble g lines temp_line_audio_dir temp_audio_dir)
      | Raise e => Raise e
      end
  | PostProcessing => Ok (silence_call g)
  | Converting => Ok (convert_call g)
  end.

End Schedule.

(** [os.remove] succeeds on this entry. *)
Definition is_deletable (n : node) : bool :=
  match n with
  | File _ false => true
  | _ => false
  end.

(** The patterns of transient files in the working directory. *)
Definition temp_patterns (temp_audio_dir : string) : list string :=
  [os_path_join temp_audio_dir "chapter_list_*.txt";
   os_path_join temp_audio_dir "*.temp.wav";
   os_path_join temp_audio_dir "*.concat_list.txt"].

(** A path the cleaner goes after: a listed group file, or a match of one
    of the transient patterns. *)
Definition stale (temp_audio_dir : string) (chapter_files : list string)
    (path : string) : bool :=
  bool_decide (path ∈ map (os_path_join temp_audio_dir) chapter_files)
  || existsb (λ pattern, glob_match pattern path) (temp_patterns temp_audio_dir).

(** The working directory without the stale entries that can be removed. *)
Definition cleaned (temp_audio_dir : string) (chapter_files : list string)
    (fs : filesystem) : filesystem :=
  filter (λ kv, ¬ (stale temp_audio_dir chapter_files kv.1
                   ∧ is_deletable kv.2)) fs.

(** Trying to remove each path in turn, failures ignored. *)
Definition sweep (paths : list string) (fs : filesystem) : filesystem :=
  foldl (λ fs path, (unlink path fs).2) fs paths.

(** The world with other files and some more printed lines. *)
Definition with_fs_out (fs : filesystem) (out : list printed) (w : world)
    : world :=
  World fs (w_stdout w ++ out) (w_yielded w) (w_calls w).

(** The fixed place of the checkpoint in the working directory. *)
Definition checkpoint_path (temp_audio_dir : string) : string :=
  os_path_join temp_audio_dir "recovery_checkpoint.json".

(** The world after one more printed line. *)
Definition printing (p : printed) (w : world) : world :=
  World (w_fs w) (w_stdout w ++ [p]) (w_yielded w) (w_calls w).

(** A world with the given files, where nothing has been printed, yielded
    or called yet. *)
Definition fresh_world (fs : filesystem) : world := World fs [] [] [].

(** ** Notions of the further statements *)

(** [v] is an integer for [range]: an [int], or a [bool]. *)
Definition is_integer (v : pyval) : bool :=
  match v with
  | PInt _ | PBool _ => true
  | _ => false
  end.

(** The first of the fields of a result that [create_recovery_checkpoint]
    reads and that the dictionary lacks. *)
Definition first_missing_field (kvs : list (string * pyval)) : option string :=
  List.find (λ field, negb (bool_decide (is_Some (assoc field kvs))))
    ["index"; "line"; "is_chapter_heading"].

(** The messages of a complete run of the pipeline, in order. *)
Definition events_of_run (chapter_files : list string)
    (generate_m4b_audiobook_file : bool) : list string :=
  map assembled chapter_files
  ++ ["Completed assembling all chapters"]
  ++ map silenced chapter_files
  ++ map converted chapter_files
  ++ ["Completed post-processing all chapters"]
  ++ (if generate_m4b_audiobook_file
      then ["Generating final M4B audiobook file..."; msg_m4b_generated]
      else [])
  ++ [msg_completed].



(** A list of [count] items can be built on the platform: the count fits
    a C [ssize_t] and the list gets its memory. *)
Definition list_fits {P : Platform} (count : Z) : Prop :=
  count ≤ sys_maxsize ∧ count ≤ Z.of_N list_capacity.

(** What [list(range(count))] raises when the list cannot be built. *)
Definition list_error (count : Z) : exn :=
  if sys_maxsize <? count then OverflowError else MemoryError.


(** What follows a word in normalized text: nothing, or a space. *)
Definition word_end (t : string) : Prop :=
  match t with
  | EmptyString => True
  | String c _ => c = " "%char
  end.

(** No white space starts inside [w], whatever word end follows it. *)
Definition no_space_in (w : string) : Prop :=
  ∀ a b t, w = a +:+ b → b ≠ "" → word_end t → space_width (b +:+ t) = 0%nat.

(** All the replacements of [sanitize_filename], in order. *)
Definition replacements : list (ascii * string) :=
  [("'"%char, ""); ("034"%char, ""); ("/"%char, " "); ("."%char, " ");
   (":"%char, ""); ("?"%char, ""); ("\"%char, ""); ("|"%char, "");
   ("*"%char, ""); ("<"%char, ""); (">"%char, ""); ("&"%char, "and");
   (","%char, ""); (";"%char, ""); ("!"%char, ""); ("@"%char, "");
   ("#"%char, ""); ("$"%char, ""); ("%"%char, ""); ("^"%char, "");
   ("("%char, ""); (")"%char, ""); ("["%char, ""); ("]"%char, "");
   ("{"%char, ""); ("}"%char, ""); ("="%char, ""); ("+"%char, "")].

(** ** Notions about the reference JSON module *)

Section ReferenceJsonNotions.
Import RefJson.

(** The result of scanning a string body, with one more character in front. *)
Definition scan_after (c : ascii) (r : option (string * string)) :=
  match r with
  | Some (body, rest) => Some (String c body, rest)
  | None => None
  end.

(** What may follow a number. *)
Definition number_end (rest : string) : Prop :=
  match rest with
  | EmptyString => True
  | String c _ => c = ","%char ∨ c = ascii_of_nat 10
  end.

(** The values the round trip is stated for: no float, and no key twice in
    a dictionary. *)
Fixpoint json_plain (v : pyval) : Prop :=
  match v with
  | PFloat _ => False
  | PList l => fold_right (λ x acc, json_plain x ∧ acc) True l
  | PDict kvs =>
      NoDup (map fst kvs)
      ∧ fold_right (λ kv acc, json_plain kv.2 ∧ acc) True kvs
  | _ => True
  end.

(** The first character of a printed value. *)
Definition value_head (c : ascii) : Prop :=
  is_ws c = false ∧ Ascii.eqb c "]" = false ∧ Ascii.eqb c "}" = false.

(** What the writer puts between two items at a nesting level. *)
Definition separator (level : nat) : string := "," +:+ newline_indent level.

(** The parser reads the text of [x] back as [x], whatever may follow a
    value, given fuel beyond the length of the text. *)
Definition round_trips (x : pyval) : Prop :=
  ∀ level rest f,
    number_end rest →
    (String.length (dumps level x) < f)%nat →
    parse_value f (dumps level x +:+ rest) = Some (x, rest).

(** The text of one dictionary member at a nesting level. *)
Definition member_text (L : nat) (kv : string * pyval) : string :=
  quote kv.1 +:+ ": " +:+ dumps L kv.2.

(** Every byte of the string is below 128. *)
Definition ascii_only (s : string) : Prop :=
  Forall (λ c, (nat_of_ascii c < 128)%nat) (list_ascii_of_string s).

(** The strings of a value are text: every string, key and float literal
    decodes. *)
Fixpoint text_valid (v : pyval) : Prop :=
  match v with
  | PFloat lit => utf8_valid lit = true
  | PStr s => utf8_valid s = true
  | PList l => fold_right (λ x acc, text_valid x ∧ acc) True l
  | PDict kvs =>
      fold_right (λ kv acc, (utf8_valid kv.1 = true ∧ text_valid kv.2) ∧ acc)
                 True kvs
  | _ => True
  end.

End ReferenceJsonNotions.

(** * Properties *)

(** ** The monad *)

Lemma bind_run {A B} (m : M A) (f : A → M B) w :
  (m ≫= f) w = match m w with
               | (Ok a, w') => f a w'
               | (Raise e, w') => (Raise e, w')
               end.
Proof. reflexivity. Qed.

Lemma ret_run {A} (a : A) w : (mret a : M A) w = (Ok a, w).
Proof. reflexivity. Qed.

Lemma world_eta w : World (w_fs w) (w_stdout w) (w_yielded w) (w_calls w) = w.
Proof. destruct w; reflexivity. Qed.

Lemma set_fs_same w : set_fs (w_fs w) w = w.
Proof. apply world_eta. Qed.

(** ** Strings *)

Lemma append_nil_l s : "" +:+ s = s.
Proof. reflexivity. Qed.

Lemma append_cons c a b : String c a +:+ b = String c (a +:+ b).
Proof. reflexivity. Qed.

Lemma append_assoc a b c : (a +:+ b) +:+ c = a +:+ (b +:+ c).
Proof.
  induction a as [|x a IH]; [reflexivity|]. rewrite !append_cons, IH.
  reflexivity.
Qed.

Lemma append_nil_r s : s +:+ "" = s.
Proof. induction s as [|c s IH]; [reflexivity|]. rewrite append_cons, IH. reflexivity. Qed.

Lemma concat_join_cons x l : String.concat "" (x :: l) = x +:+ String.concat "" l.
Proof.
  destruct l as [|y l]; [symmetry; apply append_nil_r|reflexivity].
Qed.

(** ** Segment validation *)

Lemma scan_line_segments_run dir indices acc w :
  scan_line_segments dir indices acc w
  = (Ok (acc ++ filter (λ i, unit_missing (w_fs w) dir i) indices), w).
Proof.
  revert acc. induction indices as [|i rest IH]; intros acc.
  - simpl. rewrite app_nil_r. reflexivity.
  - cbn [scan_line_segments]. rewrite bind_run. unfold os_path_exists at 1.
    fold (unit_path dir i). rewrite filter_cons.
    destruct (decide (unit_missing (w_fs w) dir i)) as [Hm|Hm];
      unfold unit_missing in Hm;
      destruct (w_fs w !! unit_path dir i) as [n|] eqn:E.
    + rewrite bool_decide_eq_true_2 by eauto. cbn [negb].
      rewrite !bind_run. unfold os_path_getsize. rewrite E.
      assert (node_size n = 0%nat) as Hz by auto.
      destruct n; simpl in Hz; rewrite ret_run, Hz; cbn [Nat.eqb];
        rewrite IH, <- app_assoc; reflexivity.
    + rewrite bool_decide_eq_false_2 by (intros [? [=]]). cbn [negb].
      rewrite bind_run, ret_run, IH, <- app_assoc. reflexivity.
    + rewrite bool_decide_eq_true_2 by eauto. cbn [negb].
      rewrite !bind_run. unfold os_path_getsize. rewrite E.
      assert (node_size n ≠ 0%nat) as Hz by (intros Hz; apply Hm; congruence).
      destruct n; simpl in Hz; apply Nat.eqb_neq in Hz;
        rewrite ret_run, Hz; apply IH.
    + exfalso. apply Hm. intros ? [=].
Qed.

Section Validation.
Context {P : Platform}.

(** [list(range(z))] gives the indices below [z] when the list can be
    built, and raises otherwise. *)
Lemma py_list_range_int (z : Z) :
  py_list_range (PInt z)
  = if decide (list_fits z) then Ok (seq 0 (Z.to_nat z))
    else Raise (list_error z).
Proof.
  unfold py_list_range, list_fits, list_error. cbn [range_len py_range].
  assert (0 ≤ Z.of_N list_capacity) as Hcap by apply N2Z.is_nonneg.
  assert (0 ≤ sys_maxsize) as Hmax by (vm_compute; discriminate).
  destruct (Z.ltb_spec sys_maxsize (Z.max 0 z)) as [Hbig|Hbig];
    destruct (Z.ltb_spec sys_maxsize z) as [Hbig'|Hbig']; try lia.
  - rewrite decide_False by lia. reflexivity.
  - destruct (Z.ltb_spec (Z.of_N list_capacity) (Z.max 0 z)) as [Hmem|Hmem].
    + rewrite decide_False by lia. reflexivity.
    + rewrite decide_True by lia. reflexivity.
Qed.

Lemma list_fits_zero : list_fits 0.
Proof.
  split; [vm_compute; discriminate|apply N2Z.is_nonneg].
Qed.

Lemma validate_line_segments_run dir (z : Z) w :
  let missing :=
    filter (λ i, unit_missing (w_fs w) dir i) (seq 0 (Z.to_nat z)) in
  validate_line_segments dir (PInt z) w
  = if decide (path_exists (w_fs w) dir)
    then (Ok (bool_decide (missing = []), missing), w)
    else if decide (list_fits z) then (Ok (false, seq 0 (Z.to_nat z)), w)
    else (Raise (list_error z), w).
Proof.
  intros missing. unfold validate_line_segments.
  rewrite bind_run. unfold os_path_exists at 1. fold (path_exists (w_fs w) dir).
  destruct (decide (path_exists (w_fs w) dir)) as [He|He].
  - rewrite bool_decide_eq_true_2 by exact He. cbn [negb].
    rewrite bind_run. cbn [py_range lift_result].
    rewrite bind_run, scan_line_segments_run, ret_run. cbn [app].
    fold missing. do 3 f_equal. apply bool_decide_ext.
    destruct missing; simpl; split; congruence.
  - rewrite bool_decide_eq_false_2 by exact He. cbn [negb].
    rewrite bind_run. unfold lift_result at 1. rewrite py_list_range_int.
    destruct (decide (list_fits z)); reflexivity.
Qed.

Lemma validate_line_segments_zero dir w :
  validate_line_segments dir (PInt 0) w
  = (Ok (bool_decide (path_exists (w_fs w) dir), []), w).
Proof.
  rewrite validate_line_segments_run. change (Z.to_nat 0) with 0%nat.
  cbn [seq]. rewrite filter_nil.
  destruct (decide (path_exists (w_fs w) dir)) as [He|He].
  - rewrite (bool_decide_eq_true_2 _ He). reflexivity.
  - rewrite (bool_decide_eq_false_2 _ He).
    rewrite decide_True by apply list_fits_zero. reflexivity.
Qed.

End Validation.



Lemma filter_nil_iff {A} (P : A → Prop) `{!∀ x, Decision (P x)} (l : list A) :
  filter P l = [] ↔ ∀ x, x ∈ l → ¬ P x.
Proof.
  induction l as [|x l IH]; [split; [intros _ ? []%elem_of_nil|reflexivity]|].
  rewrite filter_cons. destruct (decide (P x)) as [Hp|Hp].
  - split; [discriminate|]. intros Hall. destruct (Hall x); [left|exact Hp].
  - rewrite IH. split.
    + intros Hall y [->|Hy]%elem_of_cons; auto.
    + intros Hall y Hy. apply Hall. right. exact Hy.
Qed.



(** C2 as stated fails for large counts too: with no unit directory, a
    count above [sys.maxsize] is not reported index by index; the call
    raises [OverflowError]. *)
Lemma validate_line_segments_overflow :
  validate_line_segments (P := Examples.platform) "temp_audio/line_segments"
    (PInt (2 ^ 63)) (World ∅ [] [] [])
  = (Raise OverflowError, World ∅ [] [] []).
Proof. vm_compute. reflexivity. Qed.

(** ** Loading the checkpoint *)

Section Loading.
Context {J : JsonModule} {P : Platform}.

Lemma load_recovery_checkpoint_absent dir w :
  w_fs w !! checkpoint_path dir = None →
  load_recovery_checkpoint dir w = (Ok PNone, w).
Proof.
  intros Hnone. unfold load_recovery_checkpoint. fold (checkpoint_path dir).
  rewrite bind_run. unfold os_path_exists. rewrite Hnone.
  rewrite bool_decide_eq_false_2 by (intros [? [=]]). reflexivity.
Qed.

Lemma load_recovery_checkpoint_file dir w data pin :
  w_fs w !! checkpoint_path dir = Some (File data pin) →
  load_recovery_checkpoint dir w
  = if utf8_valid data then
      match json_loads data with
      | Ok v => (Ok v, w)
      | Raise e =>
          if is_JSONDecodeError e || is_OSError e
          then (Ok PNone, printing (WarnCheckpointLoad e) w)
          else (Raise e, w)
      end
    else (Raise UnicodeDecodeError, w).
Proof.
  intros Hfile. unfold load_recovery_checkpoint. fold (checkpoint_path dir).
  rewrite bind_run. unfold os_path_exists. rewrite Hfile.
  rewrite bool_decide_eq_true_2 by eauto. cbn [negb].
  unfold try_except. rewrite bind_run. unfold open_read. rewrite Hfile.
  unfold json_load. destruct (utf8_valid data); [|reflexivity].
  unfold lift_result. destruct (json_loads data) as [v|e]; [reflexivity|].
  destruct (is_JSONDecodeError e || is_OSError e); reflexivity.
Qed.

Lemma load_recovery_checkpoint_directory dir w size :
  w_fs w !! checkpoint_path dir = Some (Dir size) →
  load_recovery_checkpoint dir w
  = (Ok PNone, printing (WarnCheckpointLoad IsADirectoryError) w).
Proof.
  intros Hdir. unfold load_recovery_checkpoint. fold (checkpoint_path dir).
  rewrite bind_run. unfold os_path_exists. rewrite Hdir.
  rewrite bool_decide_eq_true_2 by eauto. cbn [negb].
  unfold try_except. rewrite bind_run. unfold open_read. rewrite Hdir.
  reflexivity.
Qed.

(** Loading only reads: whatever it returns, the files are as before. *)
Lemma load_recovery_checkpoint_fs dir w r w' :
  load_recovery_checkpoint dir w = (r, w') → w_fs w' = w_fs w.
Proof.
  destruct (w_fs w !! checkpoint_path dir) as [[data pin|size]|] eqn:E.
  - rewrite (load_recovery_checkpoint_file _ _ _ _ E).
    destruct (utf8_valid data);
      [destruct (json_loads data) as [v|e];
       [|destruct (is_JSONDecodeError e || is_OSError e)]|];
      intros [= <- <-]; reflexivity.
  - rewrite (load_recovery_checkpoint_directory _ _ _ E).
    intros [= <- <-]; reflexivity.
  - rewrite (load_recovery_checkpoint_absent _ _ E).
    intros [= <- <-]; reflexivity.
Qed.

End Loading.

(** ** Deciding whether to resume *)

Section Resuming.
Context {J : JsonModule} {P : Platform}.

Lemma can_resume_from_assembly_raise dir udir w e w' :
  load_recovery_checkpoint dir w = (Raise e, w') →
  can_resume_from_assembly dir udir w = (Raise e, w').
Proof.
  intros Hload. unfold can_resume_from_assembly.
  rewrite bind_run, Hload. reflexivity.
Qed.

Lemma can_resume_from_assembly_falsy dir udir w cp w' :
  load_recovery_checkpoint dir w = (Ok cp, w') →
  py_truthy cp = false →
  can_resume_from_assembly dir udir w = (Ok (false, PNone), w').
Proof.
  intros Hload Hfalsy. unfold can_resume_from_assembly.
  rewrite bind_run, Hload, Hfalsy. reflexivity.
Qed.

(** A truthy value that is not a dictionary has no [get]. *)
Lemma can_resume_from_assembly_not_dict dir udir w cp w' :
  load_recovery_checkpoint dir w = (Ok cp, w') →
  py_truthy cp = true →
  (∀ kvs, cp ≠ PDict kvs) →
  can_resume_from_assembly dir udir w = (Raise AttributeError, w').
Proof.
  intros Hload Htruthy Hnd. unfold can_resume_from_assembly.
  rewrite bind_run, Hload, Htruthy. cbn [negb].
  destruct cp; try reflexivity. exfalso. eapply Hnd. reflexivity.
Qed.

Lemma units_complete_filter fs udir n :
  units_complete fs udir n
  ↔ path_exists fs udir ∧ filter (λ i, unit_missing fs udir i) (seq 0 n) = [].
Proof.
  unfold units_complete. apply and_iff_compat_l.
  rewrite filter_nil_iff. split.
  - intros Hall i Hi. apply elem_of_seq in Hi. apply Hall. lia.
  - intros Hall i Hi. apply Hall, elem_of_seq. lia.
Qed.

Lemma can_resume_from_assembly_validates dir udir w kvs (z : Z) w' :
  load_recovery_checkpoint dir w = (Ok (PDict kvs), w') →
  kvs ≠ [] →
  default (PInt 0) (assoc "total_lines" kvs) = PInt z →
  can_resume_from_assembly dir udir w
  = (validate_line_segments udir (PInt z) ≫= λ '(all_present, missing),
       if negb all_present then
         print (CannotResume (length missing) (PInt z));;
         mret (false, PNone)
       else
         print (AllSegmentsFound (PInt z));;
         mret (true, PDict kvs)) w'.
Proof.
  intros Hload Hne Htotal.
  unfold can_resume_from_assembly. rewrite bind_run, Hload.
  destruct kvs as [|kv kvs']; [congruence|]. cbn [py_truthy negb].
  rewrite bind_run. cbn [py_get lift_result]. rewrite Htotal. reflexivity.
Qed.

Lemma can_resume_from_assembly_dict dir udir w kvs (z : Z) w' :
  load_recovery_checkpoint dir w = (Ok (PDict kvs), w') →
  kvs ≠ [] →
  default (PInt 0) (assoc "total_lines" kvs) = PInt z →
  path_exists (w_fs w') udir ∨ list_fits z →
  ∃ all_present missing,
    validate_line_segments udir (PInt z) w' = (Ok (all_present, missing), w')
    ∧ (all_present = true ↔ units_complete (w_fs w') udir (Z.to_nat z))
    ∧ can_resume_from_assembly dir udir w
      = if all_present
        then (Ok (true, PDict kvs), printing (AllSegmentsFound (PInt z)) w')
        else (Ok (false, PNone),
              printing (CannotResume (length missing) (PInt z)) w').
Proof.
  intros Hload Hne Htotal Hbuilt.
  pose proof (validate_line_segments_run udir z w') as Hval. cbv zeta in Hval.
  set (missing := filter _ _) in Hval.
  rewrite (can_resume_from_assembly_validates _ _ _ _ _ _ Hload Hne Htotal).
  rewrite bind_run, Hval.
  destruct (decide (path_exists (w_fs w') udir)) as [He|He].
  - exists (bool_decide (missing = [])), missing. split; [reflexivity|].
    rewrite units_complete_filter. fold missing.
    split; [rewrite bool_decide_eq_true; tauto|].
    destruct (bool_decide (missing = [])); reflexivity.
  - destruct Hbuilt as [He'|Hfits]; [tauto|].
    rewrite decide_True by exact Hfits.
    exists false, (seq 0 (Z.to_nat z)). split; [reflexivity|].
    rewrite units_complete_filter.
    split; [split; [discriminate|tauto]|reflexivity].
Qed.

(** With no unit directory, a count whose list cannot be built ends the
    check with the exception of [list(range(count))]. *)
Lemma can_resume_from_assembly_dict_raise dir udir w kvs (z : Z) w' :
  load_recovery_checkpoint dir w = (Ok (PDict kvs), w') →
  kvs ≠ [] →
  default (PInt 0) (assoc "total_lines" kvs) = PInt z →
  ¬ path_exists (w_fs w') udir → ¬ list_fits z →
  can_resume_from_assembly dir udir w = (Raise (list_error z), w').
Proof.
  intros Hload Hne Htotal He Hfits.
  rewrite (can_resume_from_assembly_validates _ _ _ _ _ _ Hload Hne Htotal).
  rewrite bind_run, validate_line_segments_run. cbv zeta.
  rewrite decide_False by exact He. rewrite decide_False by exact Hfits.
  reflexivity.
Qed.

End Resuming.

Section ResumeClaims.
Context {J : JsonModule} {P : Platform}.


(** C9: a checkpoint file that exists, decodes and parses to a falsy value
    (an empty object or list, [null], zero, [false], an empty string) makes
    [can_resume_from_assembly] return [(False, None)], printing nothing and
    changing nothing, exactly as it does when the file is absent. *)
Theorem can_resume_from_assembly_falsy_checkpoint dir udir w data pin v :
  w_fs w !! checkpoint_path dir = Some (File data pin) →
  utf8_valid data = true →
  json_loads data = Ok v →
  py_truthy v = false →
  can_resume_from_assembly dir udir w = (Ok (false, PNone), w)
  ∧ ∀ w0, w_fs w0 !! checkpoint_path dir = None →
          can_resume_from_assembly dir udir w0 = (Ok (false, PNone), w0).
Proof.
  intros Hfile Hutf Hparse Hfalsy. split.
  - apply can_resume_from_assembly_falsy with (cp := v); [|exact Hfalsy].
    rewrite (load_recovery_checkpoint_file _ _ _ _ Hfile), Hutf, Hparse.
    reflexivity.
  - intros w0 Hnone.
    apply can_resume_from_assembly_falsy with (cp := PNone); [|reflexivity].
    apply load_recovery_checkpoint_absent, Hnone.
Qed.

(** C10 (as the code has it): a loaded, non-empty checkpoint without the
    field [total_lines] is validated against an expected count of zero: it
    is resumable, and returned, whenever the unit directory exists, whatever
    that directory holds and whatever the group mapping references; when the
    unit directory does not exist the answer is [(False, None)]. *)
Theorem can_resume_from_assembly_without_total_lines dir udir w kvs w' :
  load_recovery_checkpoint dir w = (Ok (PDict kvs), w') →
  kvs ≠ [] →
  assoc "total_lines" kvs = None →
  (path_exists (w_fs w) udir →
     can_resume_from_assembly dir udir w
     = (Ok (true, PDict kvs), printing (AllSegmentsFound (PInt 0)) w'))
  ∧ (¬ path_exists (w_fs w) udir →
     can_resume_from_assembly dir udir w
     = (Ok (false, PNone), printing (CannotResume 0 (PInt 0)) w')).
Proof.
  intros Hload Hne Hnone.
  assert (default (PInt 0) (assoc "total_lines" kvs) = PInt 0) as Htotal
    by (rewrite Hnone; reflexivity).
  destruct (can_resume_from_assembly_dict dir udir w kvs 0 w' Hload Hne Htotal
              (or_intror list_fits_zero))
    as (ap & missing & Hval & Hiff & Hrun).
  rewrite validate_line_segments_zero in Hval.
  rewrite (load_recovery_checkpoint_fs _ _ _ _ Hload) in Hval.
  injection Hval as <- <-.
  split; intros He.
  - rewrite (bool_decide_eq_true_2 _ He) in Hrun. exact Hrun.
  - rewrite (bool_decide_eq_false_2 _ He) in Hrun. exact Hrun.
Qed.

(** C3 (as the code has it): a checkpoint that declares a total of zero is
    validated without a look at its group mapping: no index is reported
    missing, and [all_present] is true exactly when the unit directory
    exists; so a checkpoint that declares zero units and yet references
    unit indices is accepted as resumable whenever the unit directory
    exists, and refused only when it does not. *)
Theorem can_resume_from_assembly_zero_total dir udir w kvs w' :
  load_recovery_checkpoint dir w = (Ok (PDict kvs), w') →
  assoc "total_lines" kvs = Some (PInt 0) →
  references_a_unit (PDict kvs) →
  validate_line_segments udir (PInt 0) w'
    = (Ok (bool_decide (path_exists (w_fs w) udir), []), w')
  ∧ (path_exists (w_fs w) udir →
       can_resume_from_assembly dir udir w
       = (Ok (true, PDict kvs), printing (AllSegmentsFound (PInt 0)) w'))
  ∧ (¬ path_exists (w_fs w) udir →
       can_resume_from_assembly dir udir w
       = (Ok (false, PNone), printing (CannotResume 0 (PInt 0)) w')).
Proof.
  intros Hload Hsome _.
  assert (kvs ≠ []) as Hne by (intros ->; discriminate).
  assert (default (PInt 0) (assoc "total_lines" kvs) = PInt 0) as Htotal
    by (rewrite Hsome; reflexivity).
  destruct (can_resume_from_assembly_dict dir udir w kvs 0 w' Hload Hne Htotal
              (or_intror list_fits_zero))
    as (ap & missing & Hval & Hiff & Hrun).
  rewrite validate_line_segments_zero in Hval |- *.
  rewrite (load_recovery_checkpoint_fs _ _ _ _ Hload) in Hval |- *.
  injection Hval as <- <-.
  split; [reflexivity|]. split; intros He.
  - rewrite (bool_decide_eq_true_2 _ He) in Hrun. exact Hrun.
  - rewrite (bool_decide_eq_false_2 _ He) in Hrun. exact Hrun.
Qed.

End ResumeClaims.

(** *** The resume claims on concrete working directories *)

Section ResumeExamples.
Import Examples.
Let unit_dir := "temp_audio/line_segments".



(** A checkpoint that declares more units than a list can hold, in a
    working directory without unit directory: the check raises. *)
Lemma can_resume_from_assembly_count_overflows :
  let cp := PDict [("chapter_files", PList []); ("total_lines", PInt (2 ^ 63))] in
  let w := fresh_world (workdir (RefJson.dumps 0 cp) []) in
  can_resume_from_assembly (J := RefJson.json) "temp_audio" unit_dir w
  = (Raise OverflowError, w).
Proof. vm_compute. reflexivity. Qed.

(** The same with a count that fits [sys.maxsize] and not the memory of
    the machine of the examples. *)
Lemma can_resume_from_assembly_count_out_of_memory :
  let cp := PDict [("chapter_files", PList []); ("total_lines", PInt (2 ^ 40))] in
  let w := fresh_world (workdir (RefJson.dumps 0 cp) []) in
  can_resume_from_assembly (J := RefJson.json) "temp_audio" unit_dir w
  = (Raise MemoryError, w).
Proof. vm_compute. reflexivity. Qed.

Lemma can_resume_from_assembly_falsy_checkpoint_witness :
  let w := fresh_world (workdir "{}" line_segments) in
  can_resume_from_assembly (J := RefJson.json) "temp_audio" unit_dir w
    = (Ok (false, PNone), w).
Proof.
  intros w.
  destruct (can_resume_from_assembly_falsy_checkpoint (J := RefJson.json)
              "temp_audio" unit_dir w "{}" false (PDict []))
    as [Hrun _]; [vm_compute; reflexivity ..|exact Hrun].
Defined.

Lemma can_resume_from_assembly_without_total_lines_witness :
  let w := fresh_world (workdir (RefJson.dumps 0 without_total)
                          [("temp_audio/line_segments", Dir 4096)]) in
  can_resume_from_assembly (J := RefJson.json) "temp_audio" unit_dir w
    = (Ok (true, without_total), printing (AllSegmentsFound (PInt 0)) w).
Proof.
  intros w.
  edestruct (can_resume_from_assembly_without_total_lines (J := RefJson.json)
               "temp_audio" unit_dir w) as [Hrun _];
    [vm_compute; reflexivity | discriminate | reflexivity |].
  apply Hrun. vm_compute. eauto.
Defined.

(** C10 as stated fails: without unit directory the checkpoint that lacks
    [total_lines] is refused. *)
Lemma can_resume_from_assembly_without_total_lines_refused :
  ¬ (∀ (J : JsonModule) (P : Platform) dir udir w kvs w',
       load_recovery_checkpoint dir w = (Ok (PDict kvs), w') →
       kvs ≠ [] →
       assoc "total_lines" kvs = None →
       ∃ w'', can_resume_from_assembly dir udir w
              = (Ok (true, PDict kvs), w'')).
Proof.
  intros Hclaim.
  pose (w := fresh_world (workdir (RefJson.dumps 0 without_total) [])).
  edestruct (Hclaim RefJson.json platform "temp_audio" unit_dir w)
    as [w'' Hrun]; [vm_compute; reflexivity | discriminate | reflexivity |].
  vm_compute in Hrun. discriminate Hrun.
Qed.

Lemma zero_total_with_reference_references :
  references_a_unit zero_total_with_reference.
Proof.
  exists [("ch1.wav", PList [PInt 0])], "ch1.wav", [PInt 0], 0.
  repeat split. apply list_elem_of_here.
Qed.

Lemma can_resume_from_assembly_zero_total_witness :
  let w := fresh_world (workdir (RefJson.dumps 0 zero_total_with_reference)
                          [("temp_audio/line_segments", Dir 4096)]) in
  references_a_unit zero_total_with_reference
  ∧ can_resume_from_assembly (J := RefJson.json) "temp_audio" unit_dir w
    = (Ok (true, zero_total_with_reference),
       printing (AllSegmentsFound (PInt 0)) w).
Proof.
  intros w. split; [exact zero_total_with_reference_references|].
  edestruct (can_resume_from_assembly_zero_total (J := RefJson.json)
               "temp_audio" unit_dir w) as (_ & Hrun & _);
    [vm_compute; reflexivity | reflexivity
    | exact zero_total_with_reference_references |].
  apply Hrun. vm_compute. eauto.
Defined.

(** C3 as stated fails: the unit directory exists, the checkpoint declares
    zero units and maps a chapter to unit 0, and validation reports
    [all_present = True]. *)
Lemma validate_line_segments_accepts_zero_total :
  ¬ (∀ (J : JsonModule) (P : Platform) dir udir w kvs w' all_present missing,
       load_recovery_checkpoint dir w = (Ok (PDict kvs), w') →
       assoc "total_lines" kvs = Some (PInt 0) →
       references_a_unit (PDict kvs) →
       validate_line_segments udir (PInt 0) w'
         = (Ok (all_present, missing), w') →
       all_present = false).
Proof.
  intros Hclaim.
  pose (w := fresh_world (workdir (RefJson.dumps 0 zero_total_with_reference)
                            [("temp_audio/line_segments", Dir 4096)])).
  enough (true = false) by discriminate.
  eapply (Hclaim RefJson.json platform "temp_audio" unit_dir w);
    [vm_compute; reflexivity | reflexivity
    | exact zero_total_with_reference_references | vm_compute; reflexivity].
Qed.

End ResumeExamples.

(** ** The checkpoint file *)

(** C6 fails on the code: a checkpoint file whose bytes are not UTF-8 (here
    one whose writing stopped inside a two-byte character) cannot be parsed,
    and [load_recovery_checkpoint] does not return [None]: the
    [UnicodeDecodeError] of the read is neither a [JSONDecodeError] nor an
    [IOError], and reaches the caller. *)
Theorem load_recovery_checkpoint_raises_on_undecodable_bytes {J : JsonModule} :
  let w := fresh_world (Examples.workdir Examples.interrupted_checkpoint []) in
  load_recovery_checkpoint "temp_audio" w = (Raise UnicodeDecodeError, w).
Proof.
  intros w.
  rewrite (load_recovery_checkpoint_file "temp_audio" w
             Examples.interrupted_checkpoint false) by reflexivity.
  reflexivity.
Qed.

(** What C6 says does hold for a file that decodes and does not parse: a
    warning is printed and the result is [None], as for a missing file. *)
Lemma load_recovery_checkpoint_unparseable {J : JsonModule} dir w data pin :
  w_fs w !! checkpoint_path dir = Some (File data pin) →
  utf8_valid data = true →
  json_loads data = Raise JSONDecodeError →
  load_recovery_checkpoint dir w
  = (Ok PNone, printing (WarnCheckpointLoad JSONDecodeError) w).
Proof.
  intros Hfile Hutf Hparse.
  rewrite (load_recovery_checkpoint_file _ _ _ _ Hfile), Hutf, Hparse.
  reflexivity.
Qed.

(** Another exception of the parser, one that is neither a
    [JSONDecodeError] nor an [IOError], reaches the caller as well. *)
Lemma load_recovery_checkpoint_parser_exception {J : JsonModule} dir w data
    pin e :
  w_fs w !! checkpoint_path dir = Some (File data pin) →
  utf8_valid data = true →
  json_loads data = Raise e →
  is_JSONDecodeError e || is_OSError e = false →
  load_recovery_checkpoint dir w = (Raise e, w).
Proof.
  intros Hfile Hutf Hparse Hother.
  rewrite (load_recovery_checkpoint_file _ _ _ _ Hfile), Hutf, Hparse, Hother.
  reflexivity.
Qed.

Lemma open_write_ok path block w w1 :
  open_write path block w = (Ok (), w1) →
  block.1 = Ok ()
  ∧ ∃ pin, w1 = set_fs (<[path := File block.2 pin]> (w_fs w)) w.
Proof.
  unfold open_write. destruct block as [r data]. cbn [fst snd].
  destruct (w_fs w !! path) as [[old pin|size]|].
  - intros [= -> <-]. eauto.
  - discriminate.
  - destruct (String.eqb _ _); [intros [= -> <-]; eauto|].
    destruct (w_fs w !! os_path_dirname path) as [[? ?|?]|];
      try discriminate. intros [= -> <-]. eauto.
Qed.

(** Chunks that are all written make the text of their concatenation. *)
Lemma write_chunks_ok chunks failure written text :
  write_chunks chunks failure written = (Ok (), text) →
  failure = None ∧ text = written +:+ String.concat "" chunks.
Proof.
  revert written. induction chunks as [|chunk rest IH]; intros written.
  - cbn [write_chunks]. destruct failure; [discriminate|].
    intros [= <-]. rewrite append_nil_r. auto.
  - cbn [write_chunks]. destruct (utf8_valid chunk); [|discriminate].
    intros [Hf ->]%IH. split; [exact Hf|].
    rewrite concat_join_cons, append_assoc. reflexivity.
Qed.

(** A dump that succeeds has written the text of [json.dumps]. *)
Lemma json_dump_ok {J : JsonModule} obj text :
  json_dump obj = (Ok (), text) → text = json_dumps obj.
Proof.
  unfold json_dump, json_dumps.
  destruct (json_iterencode obj) as [chunks failure].
  intros [_ ->]%write_chunks_ok. reflexivity.
Qed.

(** What [create_recovery_checkpoint] leaves when it succeeds. *)
Lemma create_recovery_checkpoint_ok {J : JsonModule} dir clm cf results w w' :
  create_recovery_checkpoint dir clm cf results w = (Ok (), w') →
  ∃ cp pin,
    checkpoint_data clm cf results = Ok cp
    ∧ w' = printing (CheckpointCreated (checkpoint_path dir))
             (set_fs (<[checkpoint_path dir := File (json_dumps cp) pin]>
                        (w_fs w)) w).
Proof.
  intros Hcreate. unfold create_recovery_checkpoint in Hcreate.
  rewrite bind_run in Hcreate. unfold lift_result in Hcreate.
  destruct (checkpoint_data clm cf results) as [cp|e] eqn:Hcp;
    [|discriminate].
  rewrite bind_run in Hcreate. fold (checkpoint_path dir) in Hcreate.
  destruct (open_write (checkpoint_path dir) (json_dump cp) w)
    as [[[]|e] w1] eqn:Hwrite; [|discriminate].
  injection Hcreate as <-.
  destruct (open_write_ok _ _ _ _ Hwrite) as [Hdump [pin ->]].
  exists cp, pin. split; [reflexivity|].
  destruct (json_dump cp) as [r text] eqn:Hjson. cbn [fst snd] in *.
  subst r. rewrite (json_dump_ok _ _ Hjson). reflexivity.
Qed.

Lemma map_result_length {A B} (f : A → result B) xs ys :
  map_result f xs = Ok ys → length ys = length xs.
Proof.
  revert ys. induction xs as [|x xs IH]; intros ys; simpl.
  - intros [= <-]. reflexivity.
  - destruct (f x); [|discriminate].
    destruct (map_result f xs); [|discriminate].
    intros [= <-]. simpl. f_equal. apply IH. reflexivity.
Qed.

(** C4: if [create_recovery_checkpoint] succeeds, and the JSON module reads
    back the text it writes for the checkpoint, then
    [load_recovery_checkpoint] from the same directory returns the
    checkpoint that was written: its [chapter_line_map] and [chapter_files]
    are the ones given, its [total_lines] is the length of the results
    list, and its [results_metadata] holds, in order, the index, line and
    heading flag of each result. *)
Theorem checkpoint_round_trip {J : JsonModule} dir clm cf results w w' :
  create_recovery_checkpoint dir clm cf results w = (Ok (), w') →
  (∀ cp, checkpoint_data clm cf results = Ok cp → json_round_trips cp) →
  ∃ cp metadata,
    checkpoint_data clm cf results = Ok cp
    ∧ load_recovery_checkpoint dir w' = (Ok cp, w')
    ∧ py_getitem cp "chapter_line_map" = Ok clm
    ∧ py_getitem cp "chapter_files" = Ok cf
    ∧ py_getitem cp "total_lines" = Ok (PInt (Z.of_nat (length results)))
    ∧ py_getitem cp "results_metadata" = Ok (PList metadata)
    ∧ map_result result_metadata results = Ok metadata
    ∧ length metadata = length results.
Proof.
  intros Hcreate Hjson.
  destruct (create_recovery_checkpoint_ok _ _ _ _ _ _ Hcreate)
    as (cp & pin & Hcp & ->).
  destruct (Hjson cp Hcp) as [Hutf Hparse].
  pose proof Hcp as Hdata. unfold checkpoint_data in Hcp.
  destruct (map_result result_metadata results) as [metadata|] eqn:Hmeta;
    [|discriminate].
  injection Hcp as <-.
  set (cp := PDict _) in *.
  exists cp, metadata. split; [exact Hdata|]. split.
  - rewrite (load_recovery_checkpoint_file _ _ (json_dumps cp) pin).
    + rewrite Hutf, Hparse. reflexivity.
    + cbn. apply lookup_insert_eq.
  - repeat split; try reflexivity. eapply map_result_length, Hmeta.
Qed.

(** ** Cleaning up *)

Lemma unlink_lookup path fs q :
  (unlink path fs).2 !! q
  = match fs !! q with
    | Some n => if bool_decide (q = path) && is_deletable n then None else Some n
    | None => None
    end.
Proof.
  unfold unlink. destruct (decide (q = path)) as [->|Hne].
  - rewrite bool_decide_eq_true_2 by reflexivity.
    destruct (fs !! path) as [[d [|]|sz]|] eqn:E; cbn; rewrite ?E; try reflexivity.
    apply lookup_delete_eq.
  - rewrite bool_decide_eq_false_2 by exact Hne. cbn [andb].
    destruct (fs !! path) as [[d [|]|sz]|] eqn:E; cbn;
      rewrite ?lookup_delete_ne by congruence;
      destruct (fs !! q); reflexivity.
Qed.

Lemma sweep_lookup paths fs q :
  sweep paths fs !! q
  = match fs !! q with
    | Some n =>
        if bool_decide (q ∈ paths) && is_deletable n then None else Some n
    | None => None
    end.
Proof.
  revert fs. induction paths as [|p paths IH]; intros fs.
  - cbn. destruct (fs !! q); reflexivity.
  - cbn [sweep foldl]. fold (sweep paths (unlink p fs).2).
    rewrite IH, unlink_lookup. destruct (fs !! q) as [n|]; [|reflexivity].
    destruct (decide (q = p)) as [->|Hne].
    + rewrite bool_decide_eq_true_2 by reflexivity.
      rewrite (bool_decide_eq_true_2 (p ∈ p :: paths)) by left.
      cbn [andb]. destruct (is_deletable n) eqn:Hd; [reflexivity|].
      rewrite Hd, andb_false_r. reflexivity.
    + rewrite bool_decide_eq_false_2 by exact Hne. cbn [andb].
      rewrite (bool_decide_ext (q ∈ p :: paths) (q ∈ paths)); [reflexivity|].
      rewrite elem_of_cons. tauto.
Qed.

Lemma elem_of_glob_paths pattern fs q :
  q ∈ glob_paths pattern fs ↔ glob_match pattern q = true ∧ is_Some (fs !! q).
Proof.
  unfold glob_paths. rewrite list_elem_of_In, filter_In, <- list_elem_of_In.
  change (map fst) with (fmap (M := list) (@fst string node)).
  rewrite list_elem_of_fmap. split.
  - intros [([q' n] & -> & Hin%elem_of_map_to_list) Hm]. cbn in *. eauto.
  - intros [Hm [n Hn]]. split; [|exact Hm].
    exists (q, n). split; [reflexivity|]. apply elem_of_map_to_list, Hn.
Qed.

Lemma sweep_glob_lookup pattern fs q :
  sweep (glob_paths pattern fs) fs !! q
  = match fs !! q with
    | Some n => if glob_match pattern q && is_deletable n then None else Some n
    | None => None
    end.
Proof.
  rewrite sweep_lookup. destruct (fs !! q) as [n|] eqn:E; [|reflexivity].
  rewrite (bool_decide_ext _ (glob_match pattern q = true)).
  - destruct (glob_match pattern q).
    + rewrite bool_decide_eq_true_2 by reflexivity. reflexivity.
    + rewrite bool_decide_eq_false_2 by discriminate. reflexivity.
  - rewrite elem_of_glob_paths, E. split; [tauto|]. eauto.
Qed.

Lemma cleaned_lookup dir files fs q :
  cleaned dir files fs !! q
  = match fs !! q with
    | Some n => if stale dir files q && is_deletable n then None else Some n
    | None => None
    end.
Proof.
  unfold cleaned. apply option_eq. intros n.
  rewrite map_lookup_filter_Some. cbn [fst snd].
  destruct (fs !! q) as [n'|]; [|split; [intros [[=] _]|discriminate]].
  destruct (stale dir files q) eqn:Hs, (is_deletable n') eqn:Hd; cbn [andb].
  - split; [|discriminate]. intros [[= <-] Hn]. exfalso. apply Hn.
    rewrite Hd. split; exact I.
  - split; [intros [[= <-] _]; reflexivity|]. intros [= <-].
    split; [reflexivity|]. rewrite Hd. intros [_ []].
  - split; [intros [[= <-] _]; reflexivity|]. intros [= <-].
    split; [reflexivity|]. intros [[] _].
  - split; [intros [[= <-] _]; reflexivity|]. intros [= <-].
    split; [reflexivity|]. intros [[] _].
Qed.

Lemma with_fs_out_twice fs1 out1 fs2 out2 w :
  with_fs_out fs2 out2 (with_fs_out fs1 out1 w)
  = with_fs_out fs2 (out1 ++ out2) w.
Proof. unfold with_fs_out. cbn. rewrite app_assoc. reflexivity. Qed.

Lemma with_fs_out_nil w : with_fs_out (w_fs w) [] w = w.
Proof. unfold with_fs_out. rewrite app_nil_r. apply world_eta. Qed.

(** A loop whose body tries one removal per element is a sweep. *)
Lemma for_each_sweep {A} (path_of : A → string) (body : A → M unit) xs :
  (∀ x w, ∃ out,
     body x w = (Ok (), with_fs_out (unlink (path_of x) (w_fs w)).2 out w)) →
  ∀ w, ∃ out,
    for_each xs body w
    = (Ok (), with_fs_out (sweep (map path_of xs) (w_fs w)) out w).
Proof.
  intros Hbody. induction xs as [|x xs IH]; intros w.
  - exists []. cbn. rewrite with_fs_out_nil. reflexivity.
  - destruct (Hbody x w) as [out1 Hx].
    destruct (IH (with_fs_out (unlink (path_of x) (w_fs w)).2 out1 w))
      as [out2 Hxs].
    exists (out1 ++ out2). cbn [for_each]. rewrite bind_run, Hx, Hxs.
    rewrite with_fs_out_twice. reflexivity.
Qed.

Lemma map_id_eq {A} (l : list A) : map (λ x, x) l = l.
Proof. induction l; simpl; congruence. Qed.

(** The run of the cleaner: it never raises, and leaves the working
    directory without its removable stale entries. *)
Lemma cleanup_partial_chapters_run dir files w :
  ∃ out, cleanup_partial_chapters dir files w
         = (Ok (), with_fs_out (cleaned dir files (w_fs w)) out w).
Proof.
  unfold cleanup_partial_chapters.
  match goal with
  | |- context [for_each files ?body] =>
      pose proof (for_each_sweep (os_path_join dir) body files) as H0
  end.
  lapply H0; [clear H0; intros H0|].
  2: { intros f w0. rewrite bind_run. unfold os_path_exists, unlink.
    destruct (w_fs w0 !! os_path_join dir f) as [[d [|]|sz]|] eqn:E.
    - rewrite bool_decide_eq_true_2 by eauto.
      exists [WarnCouldNotRemove f PermissionError].
      unfold try_except. rewrite bind_run. unfold os_remove, unlink.
      rewrite E. reflexivity.
    - rewrite bool_decide_eq_true_2 by eauto.
      exists [RemovedPartial f].
      unfold try_except. rewrite bind_run. unfold os_remove, unlink.
      rewrite E. reflexivity.
    - rewrite bool_decide_eq_true_2 by eauto.
      exists [WarnCouldNotRemove f IsADirectoryError].
      unfold try_except. rewrite bind_run. unfold os_remove, unlink.
      rewrite E. reflexivity.
    - rewrite bool_decide_eq_false_2 by (intros [? [=]]).
      exists []. cbn. rewrite with_fs_out_nil. reflexivity. }
  assert (∀ pattern w0, ∃ out,
            (glob_glob pattern ≫= λ temp_files,
               for_each temp_files (λ temp_file,
                 try_except
                   (os_remove temp_file;;
                    print (RemovedTemp (os_path_basename temp_file)))
                   is_OSError (λ _, mret ()))) w0
            = (Ok (), with_fs_out
                        (sweep (glob_paths pattern (w_fs w0)) (w_fs w0))
                        out w0)) as Hpattern.
  { intros pattern w0. rewrite bind_run. unfold glob_glob.
    match goal with
    | |- context [for_each _ ?body] =>
        pose proof (for_each_sweep (λ x, x) body
                      (glob_paths pattern (w_fs w0))) as H1
    end.
    lapply H1; [clear H1; intros H1; destruct (H1 w0) as [out H2]|].
    2: { intros f w1. unfold try_except. rewrite bind_run.
      unfold os_remove, unlink.
      destruct (w_fs w1 !! f) as [[d [|]|sz]|] eqn:E;
        try (exists []; cbn; rewrite with_fs_out_nil, ?set_fs_same;
             reflexivity).
      exists [RemovedTemp (os_path_basename f)]. reflexivity. }
    exists out. rewrite H2, map_id_eq. reflexivity. }
  destruct (H0 w) as [out0 H0w].
  rewrite bind_run, H0w. cbn [for_each]. clear H0 H0w.
  set (p1 := os_path_join dir "chapter_list_*.txt").
  set (p2 := os_path_join dir "*.temp.wav").
  set (p3 := os_path_join dir "*.concat_list.txt").
  set (fs0 := sweep (map (os_path_join dir) files) (w_fs w)).
  set (fs1 := sweep (glob_paths p1 fs0) fs0).
  set (fs2 := sweep (glob_paths p2 fs1) fs1).
  set (fs3 := sweep (glob_paths p3 fs2) fs2).
  destruct (Hpattern p1 (with_fs_out fs0 out0 w)) as [out1 H1].
  change (w_fs (with_fs_out fs0 out0 w)) with fs0 in H1. fold fs1 in H1.
  rewrite bind_run, H1, with_fs_out_twice.
  destruct (Hpattern p2 (with_fs_out fs1 (out0 ++ out1) w)) as [out2 H2].
  change (w_fs (with_fs_out fs1 (out0 ++ out1) w)) with fs1 in H2.
  fold fs2 in H2. rewrite bind_run, H2, with_fs_out_twice.
  destruct (Hpattern p3 (with_fs_out fs2 ((out0 ++ out1) ++ out2) w))
    as [out3 H3].
  change (w_fs (with_fs_out fs2 ((out0 ++ out1) ++ out2) w)) with fs2 in H3.
  fold fs3 in H3. rewrite bind_run, H3, with_fs_out_twice, ret_run.
  eexists. do 2 f_equal. apply map_eq. intros q.
  rewrite cleaned_lookup. unfold fs3, fs2, fs1, fs0.
  rewrite !sweep_glob_lookup, sweep_lookup.
  unfold stale, temp_patterns. cbn [existsb]. fold p1 p2 p3.
  destruct (w_fs w !! q) as [n|]; [|reflexivity].
  destruct (is_deletable n) eqn:Hd;
    destruct (bool_decide (q ∈ map (os_path_join dir) files));
    destruct (glob_match p1 q), (glob_match p2 q), (glob_match p3 q);
    repeat (progress (cbn [andb orb]; rewrite ?Hd)); reflexivity.
Qed.





(** *** Names in the working directory against the transient patterns *)

Lemma py_split_nonempty sep s : py_split sep s ≠ [].
Proof.
  destruct s as [|c s]; cbn [py_split]; [discriminate|].
  destruct (Ascii.eqb c sep); [discriminate|].
  destruct (py_split sep s); discriminate.
Qed.

Lemma py_split_app sep a b :
  py_split sep (a +:+ String sep b) = py_split sep a ++ py_split sep b.
Proof.
  induction a as [|c a IH];
    rewrite ?append_nil_l, ?append_cons; cbn [py_split].
  - rewrite Ascii.eqb_refl. reflexivity.
  - rewrite IH. destruct (Ascii.eqb c sep); [reflexivity|].
    pose proof (py_split_nonempty sep a).
    destruct (py_split sep a); [congruence|reflexivity].
Qed.

Lemma py_split_no_sep sep x : has_char sep x = false → py_split sep x = [x].
Proof.
  unfold has_char. induction x as [|c x IH]; cbn; [reflexivity|].
  intros [Hc Hx]%orb_false_iff. rewrite Hc, (IH Hx). reflexivity.
Qed.

Lemma py_split_no_slash x : has_slash x = false → py_split "/" x = [x].
Proof. apply py_split_no_sep. Qed.

Lemma endswith_slash_inv d :
  endswith_slash d = true → ∃ d', d = d' +:+ "/".
Proof.
  induction d as [|c d IH]; cbn; [discriminate|].
  destruct d as [|c' d'].
  - intros ->%Ascii.eqb_eq. exists "". reflexivity.
  - intros [d0 ->]%IH. exists (String c d0). reflexivity.
Qed.










(** ** The phase pipeline *)

Lemma for_each_app {A} (body : A → M unit) xs ys w :
  for_each (xs ++ ys) body w = (for_each xs body;; for_each ys body) w.
Proof.
  revert w. induction xs as [|x xs IH]; intros w; [reflexivity|].
  cbn [app for_each]. rewrite !bind_run.
  destruct (body x w) as [[[]|e] w1]; [|reflexivity].
  rewrite IH, bind_run. reflexivity.
Qed.

Section Pipeline.
Context {U : AudiobookUtils}.

Lemma run_schedule_app pre post w :
  run_schedule (pre ++ post) w
  = match run_schedule pre w with
    | (Ok _, w1) => run_schedule post w1
    | (Raise e, w1) => (Raise e, w1)
    end.
Proof. unfold run_schedule. rewrite for_each_app, bind_run. reflexivity. Qed.

Lemma run_schedule_cons s steps w :
  run_schedule (s :: steps) w
  = match run_step s w with
    | (Ok _, w1) => run_schedule steps w1
    | (Raise e, w1) => (Raise e, w1)
    end.
Proof. reflexivity. Qed.

Lemma run_schedule_nil w : run_schedule [] w = (Ok (), w).
Proof. reflexivity. Qed.

(** A loop whose body runs the steps of its element runs the steps of all
    its elements. *)
Lemma for_each_steps {A} (body : A → M unit) (steps_of : A → list step) xs :
  (∀ x w, body x w = run_schedule (steps_of x) w) →
  ∀ w, for_each xs body w = run_schedule (flat_map steps_of xs) w.
Proof.
  intros Hbody. induction xs as [|x xs IH]; intros w; [reflexivity|].
  cbn [for_each flat_map]. rewrite bind_run, run_schedule_app, Hbody.
  destruct (run_schedule (steps_of x) w) as [[[]|e] w1]; [apply IH|reflexivity].
Qed.

Lemma call_then_yield c msg w :
  (external c;; yield msg) w = run_schedule [Media c; Emit msg] w.
Proof.
  rewrite bind_run, !run_schedule_cons. cbn [run_step].
  destruct (external c w) as [[[]|e] w1]; reflexivity.
Qed.

(** What a run of steps does to the world: the printed lines stay, the
    yielded messages and the recorded calls grow by those of the steps that
    ran. *)
Lemma run_schedule_ok steps w w1 :
  run_schedule steps w = (Ok (), w1) →
  w_stdout w1 = w_stdout w
  ∧ w_yielded w1 = w_yielded w ++ emits steps
  ∧ w_calls w1 = w_calls w ++ calls steps.
Proof.
  revert w. induction steps as [|s steps IH]; intros w.
  - intros [= <-]. cbn. rewrite !app_nil_r. auto.
  - rewrite run_schedule_cons.
    destruct s as [c|msg|e]; cbn [run_step emits calls flat_map].
    + unfold external. destruct (run_media c (w_fs w)) as [[[]|e] fs1];
        [|discriminate].
      intros (Hout & Hy & Hc)%IH. cbn in *.
      rewrite Hout, Hy, Hc, <- app_assoc. auto.
    + unfold yield. intros (Hout & Hy & Hc)%IH. cbn in *.
      rewrite Hout, Hy, Hc, <- app_assoc. auto.
    + discriminate.
Qed.

(** The first failing call of a schedule ends the run: nothing scheduled
    after it is called or yielded. *)
Lemma run_schedule_abort pre c post w w1 e fs' :
  run_schedule pre w = (Ok (), w1) →
  run_media c (w_fs w1) = (Raise e, fs') →
  run_schedule (pre ++ Media c :: post) w
  = (Raise e, World fs' (w_stdout w) (w_yielded w ++ emits pre)
                (w_calls w ++ calls pre ++ [c])).
Proof.
  intros Hpre Hc. rewrite run_schedule_app, Hpre, run_schedule_cons.
  cbn [run_step]. unfold external. rewrite Hc.
  destruct (run_schedule_ok _ _ _ Hpre) as (-> & -> & ->).
  rewrite <- app_assoc. reflexivity.
Qed.

End Pipeline.

Section PipelineSchedule.
Context {U : AudiobookUtils}.
Variables (chapter_line_map : pyval) (temp_audio_dir temp_line_audio_dir : string).

Lemma convert_chapters_run files acc w :
  convert_chapters temp_audio_dir files acc w
  = match run_schedule (converting_steps temp_audio_dir files) w with
    | (Ok _, w1) => (Ok (acc ++ map m4a_name files), w1)
    | (Raise e, w1) => (Raise e, w1)
    end.
Proof.
  revert acc w. induction files as [|f files IH]; intros acc w.
  - cbn. rewrite app_nil_r. reflexivity.
  - cbn [convert_chapters converting_steps flat_map].
    change (Media (convert_call temp_audio_dir f) :: Emit (converted f)
            :: flat_map _ files)
      with ([Media (convert_call temp_audio_dir f); Emit (converted f)]
            ++ converting_steps temp_audio_dir files).
    rewrite run_schedule_app, <- call_then_yield, !bind_run.
    unfold convert_chapter_to_m4a_with_ffmpeg. fold (convert_call temp_audio_dir f).
    destruct (external (convert_call temp_audio_dir f) w) as [[[]|e] w1];
      [|reflexivity].
    rewrite bind_run. cbn [yield]. rewrite IH, <- app_assoc. reflexivity.
Qed.

(** The generator runs the schedule of the specification. *)
Lemma assembly_and_post_processing_phase_schedule files output_format
    narrator_gender generate book_path add_emotion_tags w :
  assembly_and_post_processing_phase files chapter_line_map temp_audio_dir
    temp_line_audio_dir output_format narrator_gender generate book_path
    add_emotion_tags w
  = run_schedule
      (schedule chapter_line_map temp_audio_dir temp_line_audio_dir files
         generate book_path narrator_gender) w.
Proof.
  unfold assembly_and_post_processing_phase, schedule.
  rewrite bind_run, run_schedule_app.
  rewrite (for_each_steps _
             (λ f, match py_getitem chapter_line_map f with
                   | Ok lines =>
                       [Media (Assemble f lines temp_line_audio_dir
                                 temp_audio_dir);
                        Emit (assembled f)]
                   | Raise e => [Fail e]
                   end)).
  2: { intros f w0. rewrite bind_run. unfold lift_result.
       destruct (py_getitem chapter_line_map f) as [lines|e]; [|reflexivity].
       apply call_then_yield. }
  fold (assembling_steps chapter_line_map temp_audio_dir temp_line_audio_dir
          files).
  destruct (run_schedule (assembling_steps _ _ _ files) w) as [[[]|e] w1];
    [|reflexivity].
  rewrite bind_run. cbn [app]. rewrite run_schedule_cons. cbn [run_step].
  destruct (yield "Completed assembling all chapters" w1) as [[[]|e] w2];
    [|reflexivity].
  rewrite bind_run, run_schedule_app.
  rewrite (for_each_steps _
             (λ f, [Media (silence_call temp_audio_dir f); Emit (silenced f)])).
  2: { intros f w0. apply call_then_yield. }
  fold (post_processing_steps temp_audio_dir files).
  destruct (run_schedule (post_processing_steps _ files) w2) as [[[]|e] w3];
    [|reflexivity].
  rewrite bind_run, run_schedule_app, convert_chapters_run.
  destruct (run_schedule (converting_steps _ files) w3) as [[[]|e] w4];
    [|reflexivity].
  cbn [app]. rewrite bind_run, run_schedule_cons. cbn [run_step].
  destruct (yield "Completed post-processing all chapters" w4)
    as [[[]|e] w5]; [|reflexivity].
  rewrite bind_run, run_schedule_app.
  destruct generate; cbn [final_merging_steps].
  - rewrite !bind_run, !run_schedule_cons. cbn [run_step].
    destruct (yield "Generating final M4B audiobook file..." w5)
      as [[[]|e] w6]; [|reflexivity].
    unfold generate_m4b_audiobook_with_ffmpeg.
    rewrite call_then_yield.
    destruct (run_schedule _ w6) as [[[]|e] w7]; reflexivity.
  - rewrite ret_run, run_schedule_nil. reflexivity.
Qed.

End PipelineSchedule.

Lemma emits_app a b : emits (a ++ b) = emits a ++ emits b.
Proof. unfold emits. rewrite !flat_map_concat_map, map_app, concat_app. reflexivity. Qed.

Section PipelineAbort.
Context {U : AudiobookUtils}.
Variables (chapter_line_map : pyval) (temp_audio_dir temp_line_audio_dir : string).

Local Abbreviation assembling :=
  (assembling_steps chapter_line_map temp_audio_dir temp_line_audio_dir).
Local Abbreviation post_processing := (post_processing_steps temp_audio_dir).
Local Abbreviation converting := (converting_steps temp_audio_dir).

(** A run of the assembling steps that succeeds met no failing look-up: it
    yielded one event per group. *)
Lemma emits_assembling files w w1 :
  run_schedule (assembling files) w = (Ok (), w1) →
  emits (assembling files) = map assembled files.
Proof.
  revert w. induction files as [|f files IH]; intros w; [reflexivity|].
  cbn [assembling_steps flat_map map].
  destruct (py_getitem chapter_line_map f) as [lines|e].
  - cbn [app]. rewrite !run_schedule_cons. cbn [run_step].
    destruct (external _ w) as [[[]|e] w2]; [|discriminate].
    intros Hrest%IH. cbn. f_equal. exact Hrest.
  - discriminate.
Qed.

Lemma emits_post_processing files :
  emits (post_processing files) = map silenced files.
Proof.
  unfold post_processing_steps.
  induction files as [|f files IH]; [reflexivity|].
  cbn [flat_map map app].
  change (emits (?a :: ?b :: ?l)) with (emits [a; b] ++ emits l).
  rewrite IH. reflexivity.
Qed.

Lemma emits_converting files :
  emits (converting files) = map converted files.
Proof.
  unfold converting_steps.
  induction files as [|f files IH]; [reflexivity|].
  cbn [flat_map map app].
  change (emits (?a :: ?b :: ?l)) with (emits [a; b] ++ emits l).
  rewrite IH. reflexivity.
Qed.

Lemma emits_steps_before s files done w w1 :
  run_schedule
    (steps_before chapter_line_map temp_audio_dir temp_line_audio_dir
       s files done) w = (Ok (), w1) →
  emits (steps_before chapter_line_map temp_audio_dir temp_line_audio_dir
           s files done)
  = events_before s files done.
Proof.
  destruct s; cbn [steps_before events_before].
  - apply emits_assembling.
  - rewrite run_schedule_app.
    destruct (run_schedule (assembling files) w) as [[[]|e] w2] eqn:Ha;
      [|discriminate].
    intros _. rewrite !emits_app, (emits_assembling _ _ _ Ha),
      emits_post_processing. reflexivity.
  - rewrite run_schedule_app.
    destruct (run_schedule (assembling files) w) as [[[]|e] w2] eqn:Ha;
      [|discriminate].
    intros _. rewrite !emits_app, (emits_assembling _ _ _ Ha),
      emits_post_processing, emits_converting. reflexivity.
Qed.

(** The schedule up to the operation of a stage on one group. *)
Lemma schedule_split s files done g rest c generate book_path narrator_gender :
  files = done ++ g :: rest →
  stage_call chapter_line_map temp_audio_dir temp_line_audio_dir s g = Ok c →
  ∃ post,
    schedule chapter_line_map temp_audio_dir temp_line_audio_dir files
      generate book_path narrator_gender
    = steps_before chapter_line_map temp_audio_dir temp_line_audio_dir
        s files done
      ++ Media c :: post.
Proof.
  intros Hfiles Hcall. unfold schedule.
  destruct s; cbn [steps_before stage_call] in *.
  - destruct (py_getitem chapter_line_map g) as [lines|e] eqn:Hg;
      [|discriminate]. injection Hcall as <-.
    eexists. rewrite Hfiles at 1. unfold assembling_steps at 1.
    rewrite flat_map_app. cbn [flat_map]. rewrite Hg.
    rewrite <- app_assoc. reflexivity.
  - injection Hcall as <-. eexists.
    rewrite Hfiles at 2. unfold post_processing_steps at 1.
    rewrite flat_map_app. cbn [flat_map].
    rewrite <- !app_assoc. reflexivity.
  - injection Hcall as <-. eexists.
    rewrite Hfiles at 3. unfold converting_steps at 1.
    rewrite flat_map_app. cbn [flat_map].
    rewrite <- !app_assoc. reflexivity.
Qed.

(** C7: when the operation of a per-group state (assembling,
    post-processing, converting) on a group raises, every operation
    scheduled before it having succeeded, the pipeline ends with that
    exception; what it has yielded is exactly the progress events of the
    groups that completed this state before the failing one and of every
    group in the earlier states (with the line that closes the assembling
    state), and the failing call is the last one made: nothing is yielded
    for the failing operation, for a later group or for a later state. *)
Theorem pipeline_aborts_at_first_failure (s : stage) files done g rest c
    output_format narrator_gender generate book_path add_emotion_tags
    w w1 e fs' :
  files = done ++ g :: rest →
  stage_call chapter_line_map temp_audio_dir temp_line_audio_dir s g = Ok c →
  run_schedule
    (steps_before chapter_line_map temp_audio_dir temp_line_audio_dir
       s files done) w = (Ok (), w1) →
  run_media c (w_fs w1) = (Raise e, fs') →
  assembly_and_post_processing_phase files chapter_line_map temp_audio_dir
    temp_line_audio_dir output_format narrator_gender generate book_path
    add_emotion_tags w
  = (Raise e,
     World fs' (w_stdout w)
       (w_yielded w ++ events_before s files done)
       (w_calls w
        ++ calls (steps_before chapter_line_map temp_audio_dir
                    temp_line_audio_dir s files done)
        ++ [c])).
Proof.
  intros Hfiles Hcall Hbefore Hraise.
  rewrite assembly_and_post_processing_phase_schedule.
  destruct (schedule_split s files done g rest c generate book_path
              narrator_gender Hfiles Hcall) as [post ->].
  rewrite (run_schedule_abort _ c post w w1 e fs' Hbefore Hraise).
  rewrite (emits_steps_before _ _ _ _ _ Hbefore). reflexivity.
Qed.

End PipelineAbort.

(** Scenario E: the media interface fails on the second group during
    post-processing. *)
Lemma pipeline_aborts_at_first_failure_witness :
  let U := RefMedia.media Examples.fails_on_second_silence in
  let groups := PDict [("ch1.wav", PList [PInt 0]); ("ch2.wav", PList [PInt 1])] in
  let w := fresh_world (Examples.workdir "{}" Examples.line_segments) in
  ∃ w',
    assembly_and_post_processing_phase (U := U) ["ch1.wav"; "ch2.wav"] groups
      "temp_audio" "temp_audio/line_segments" "m4a" "male" false PNone false w
    = (Raise (ExternalError "ffmpeg failed"), w')
    ∧ w_yielded w'
      = ["Assembled chapter: ch1.wav"; "Assembled chapter: ch2.wav";
         "Completed assembling all chapters";
         "Added silence to chapter: ch1.wav"]
    ∧ last (w_calls w') = Some (AddSilence "temp_audio/ch2.wav" 1000).
Proof.
  intros U groups w. eexists. split.
  - eapply (pipeline_aborts_at_first_failure (U := U) groups "temp_audio"
              "temp_audio/line_segments" PostProcessing
              ["ch1.wav"; "ch2.wav"] ["ch1.wav"] "ch2.wav" []);
      [reflexivity | reflexivity | vm_compute; reflexivity | reflexivity].
  - split; reflexivity.
Defined.

(** ** Converting *)

Lemma m4a_name_single_dot stem ext :
  has_char "." stem = false →
  m4a_name (stem +:+ "." +:+ ext) = stem +:+ ".m4a".
Proof.
  intros Hstem. unfold m4a_name.
  change (stem +:+ "." +:+ ext) with (stem +:+ String "." ext).
  rewrite py_split_app, (py_split_no_sep "." stem Hstem). reflexivity.
Qed.

Lemma with_extension_single_dot stem ext new :
  has_char "." stem = false → has_char "." ext = false →
  with_extension (stem +:+ "." +:+ ext) new = stem +:+ "." +:+ new.
Proof.
  intros Hstem Hext. unfold with_extension.
  change (stem +:+ "." +:+ ext) with (stem +:+ String "." ext).
  rewrite py_split_app, (py_split_no_sep "." stem Hstem),
    (py_split_no_sep "." ext Hext).
  cbn. reflexivity.
Qed.

(** C8 (as the code has it): when the converting loop completes, it has
    called the conversion once per group, in group order, from the group
    file to its sibling named by the code, has yielded one event per group,
    and returns these names collected in group order; for a group file
    [stem.ext] with no dot in [stem] or [ext], that name is [stem.m4a], the
    group file name with its extension replaced by [m4a]. *)
Theorem convert_chapters_names {U : AudiobookUtils} dir files acc w names w1 :
  convert_chapters dir files acc w = (Ok names, w1) →
  names = acc ++ map m4a_name files
  ∧ w_calls w1
    = w_calls w
      ++ map (λ f, ConvertM4a (os_path_join dir f)
                     (os_path_join dir (m4a_name f))) files
  ∧ w_yielded w1 = w_yielded w ++ map converted files
  ∧ ∀ stem ext,
      has_char "." stem = false → has_char "." ext = false →
      m4a_name (stem +:+ "." +:+ ext) = stem +:+ ".m4a"
      ∧ m4a_name (stem +:+ "." +:+ ext)
        = with_extension (stem +:+ "." +:+ ext) "m4a".
Proof.
  rewrite convert_chapters_run.
  destruct (run_schedule (converting_steps dir files) w) as [[[]|e] w2] eqn:Hrun;
    [|discriminate].
  intros [= <- <-].
  destruct (run_schedule_ok _ _ _ Hrun) as (_ & Hy & Hc).
  split; [reflexivity|]. split; [|split].
  - rewrite Hc. f_equal. clear. unfold converting_steps.
    induction files as [|f files IH]; [reflexivity|].
    cbn [flat_map map app].
    change (calls (?a :: ?b :: ?l)) with (calls [a; b] ++ calls l).
    rewrite IH. reflexivity.
  - rewrite Hy, emits_converting. reflexivity.
  - intros stem ext Hstem Hext.
    rewrite (with_extension_single_dot stem ext "m4a" Hstem Hext).
    split; apply m4a_name_single_dot, Hstem.
Qed.

Lemma convert_chapters_names_witness :
  let U := RefMedia.media (λ _, false) in
  let w := fresh_world (Examples.workdir "{}" []) in
  ∃ w1,
    convert_chapters (U := U) "temp_audio" ["ch1.wav"; "ch2.wav"] [] w
    = (Ok ["ch1.m4a"; "ch2.m4a"], w1)
    ∧ w_calls w1
      = [ConvertM4a "temp_audio/ch1.wav" "temp_audio/ch1.m4a";
         ConvertM4a "temp_audio/ch2.wav" "temp_audio/ch2.m4a"].
Proof.
  intros U w. eexists. split; [vm_compute; reflexivity|].
  edestruct (convert_chapters_names (U := U) "temp_audio"
               ["ch1.wav"; "ch2.wav"] [] w) as (_ & Hcalls & _);
    [vm_compute; reflexivity|].
  exact Hcalls.
Defined.

(** C8 as stated fails: the code keeps the name up to its first dot, so a
    group file with a dot inside its name does not get its extension
    replaced. *)
Lemma m4a_name_cuts_at_first_dot :
  ¬ (∀ chapter_file,
       m4a_name chapter_file = with_extension chapter_file "m4a").
Proof.
  intros Hclaim. specialize (Hclaim "Part 1.5.wav").
  vm_compute in Hclaim. discriminate Hclaim.
Qed.

(** A checkpoint written for two results and read back. *)
Lemma checkpoint_round_trip_witness :
  let clm := PDict [("ch1.wav", PList [PInt 0]); ("ch2.wav", PList [PInt 1])] in
  let cf := PList [PStr "ch1.wav"; PStr "ch2.wav"] in
  let w := fresh_world (list_to_map [("temp_audio", Dir 4096)]) in
  ∃ w',
    create_recovery_checkpoint (J := RefJson.json) "temp_audio" clm cf
      Examples.two_results w = (Ok (), w')
    ∧ load_recovery_checkpoint (J := RefJson.json) "temp_audio" w'
      = (Ok Examples.two_chapters, w').
Proof.
  intros clm cf w. eexists. split; [vm_compute; reflexivity|].
  edestruct (checkpoint_round_trip (J := RefJson.json) "temp_audio" clm cf
               Examples.two_results w) as (cp & md & Hcp & Hload & _).
  - vm_compute. reflexivity.
  - intros cp Hcp. vm_compute in Hcp. injection Hcp as <-.
    split; vm_compute; reflexivity.
  - vm_compute in Hcp. injection Hcp as <-. exact Hload.
Defined.

(** ** The reference JSON module reads back what it writes *)

Section ReferenceJson.
Import RefJson.

(** *** Strings *)

Lemma ascii_of_nat_of c n : nat_of_ascii c = n → c = ascii_of_nat n.
Proof. intros <-. symmetry. apply ascii_nat_embedding. Qed.

Lemma scan_string_escaped_low f T :
  Forall (λ n, scan_string (S f) (escape_char (ascii_of_nat n) +:+ T)
               = scan_after (ascii_of_nat n) (scan_string f T))
    (seq 0 32 ++ [34; 92]%nat).
Proof.
  repeat (constructor; [reflexivity|]). constructor.
Qed.

Lemma scan_string_escape_char c f T :
  scan_string (S f) (escape_char c +:+ T) = scan_after c (scan_string f T).
Proof.
  assert (∀ n, (n < 32)%nat ∨ n = 34%nat ∨ n = 92%nat →
               scan_string (S f) (escape_char (ascii_of_nat n) +:+ T)
               = scan_after (ascii_of_nat n) (scan_string f T)) as Hlow.
  { intros n Hn. pose proof (scan_string_escaped_low f T) as Hall.
    rewrite Forall_forall in Hall. apply Hall.
    apply elem_of_app. destruct Hn as [?|[->| ->]].
    - left. apply elem_of_seq. lia.
    - right. left.
    - right. right. left. }
  destruct (Ascii.eqb c "034") eqn:Hq.
  { apply Ascii.eqb_eq in Hq as ->. apply (Hlow 34%nat). auto. }
  destruct (Ascii.eqb c "\") eqn:Hb.
  { apply Ascii.eqb_eq in Hb as ->. apply (Hlow 92%nat). auto. }
  destruct (nat_of_ascii c <? 32)%nat eqn:Hlt.
  { apply Nat.ltb_lt in Hlt.
    rewrite (ascii_of_nat_of c _ eq_refl). apply Hlow. auto. }
  assert (escape_char c = String c "") as ->.
  { unfold escape_char. rewrite Hq, Hb, Hlt.
    apply Nat.ltb_ge in Hlt.
    repeat match goal with
           | |- context [Nat.eqb ?a ?b] =>
               destruct (Nat.eqb_spec a b); [lia|]
           end.
    reflexivity. }
  rewrite append_cons, append_nil_l. cbn [scan_string].
  rewrite Hq, Hlt, Hb. reflexivity.
Qed.

Lemma length_append a b : String.length (a +:+ b) = (String.length a + String.length b)%nat.
Proof. induction a as [|x a IH]; [reflexivity|]. rewrite append_cons. cbn. congruence. Qed.

Lemma escape_char_length c : (1 <= String.length (escape_char c))%nat.
Proof.
  unfold escape_char.
  repeat (case_match; [rewrite ?length_append; cbn; lia|]). cbn. lia.
Qed.

Lemma scan_string_escape s rest fuel :
  (String.length (escape s) < fuel)%nat →
  scan_string fuel (escape s +:+ dq +:+ rest) = Some (s, rest).
Proof.
  revert fuel. induction s as [|c s IH]; intros fuel Hfuel.
  - destruct fuel; [cbn in Hfuel; lia|]. reflexivity.
  - destruct fuel as [|f]; [lia|]. cbn [escape] in *.
    rewrite append_assoc, scan_string_escape_char, IH; [reflexivity|].
    rewrite length_append in Hfuel. pose proof (escape_char_length c). lia.
Qed.

(** *** Numbers *)

Lemma digit_of_pretty_N_char k :
  (k < 10)%N → digit_of (pretty_N_char k) = Some (Z.of_N k).
Proof.
  intros Hk.
  assert (k = 0 ∨ k = 1 ∨ k = 2 ∨ k = 3 ∨ k = 4 ∨ k = 5 ∨ k = 6 ∨ k = 7
          ∨ k = 8 ∨ k = 9)%N as Hc by lia.
  repeat (destruct Hc as [->|Hc]; [reflexivity|]). subst. reflexivity.
Qed.

Lemma take_digits_pretty_N_go x s :
  take_digits (pretty_N_go x s)
  = (pretty_N_go x (take_digits s).1, (take_digits s).2).
Proof.
  revert s. induction (N.lt_wf_0 x) as [x _ IH]; intros s.
  destruct (decide (x = 0)%N) as [->|Hx].
  - rewrite !pretty_N_go_0. destruct (take_digits s); reflexivity.
  - rewrite (pretty_N_go_step x s) by lia.
    rewrite IH by (apply N.div_lt; lia).
    cbn [take_digits].
    rewrite digit_of_pretty_N_char by (apply N.mod_lt; lia).
    destruct (take_digits s) as [ds r]. cbn [fst snd].
    rewrite (pretty_N_go_step x ds) by lia. reflexivity.
Qed.

Lemma read_digits_pretty_N_go x a c s :
  ∃ a' c',
    read_digits a c (pretty_N_go x s) = read_digits a' c' s
    ∧ (a = 0 → a' = Z.of_N x).
Proof.
  revert a c s. induction (N.lt_wf_0 x) as [x _ IH]; intros a c s.
  destruct (decide (x = 0)%N) as [->|Hx].
  - rewrite pretty_N_go_0. eauto.
  - rewrite pretty_N_go_step by lia.
    destruct (IH (x `div` 10)%N ltac:(apply N.div_lt; lia) a c
                (String (pretty_N_char (x `mod` 10)) s))
      as (a1 & c1 & Heq & Ha1).
    rewrite Heq. cbn [read_digits].
    rewrite digit_of_pretty_N_char by (apply N.mod_lt; lia).
    eexists _, _. split; [reflexivity|].
    intros Ha. rewrite (Ha1 Ha).
    change 10 with (Z.of_N 10). rewrite <- N2Z.inj_mul, <- N2Z.inj_add.
    f_equal. symmetry. apply N.div_mod. lia.
Qed.

Lemma pretty_N_go_head x s :
  (0 < x)%N →
  ∃ d k r, pretty_N_go x s = String d r
           ∧ digit_of d = Some k ∧ d ≠ "0"%char.
Proof.
  revert s. induction (N.lt_wf_0 x) as [x _ IH]; intros s Hx.
  rewrite pretty_N_go_step by lia.
  destruct (decide (x `div` 10 = 0)%N) as [Hz|Hnz].
  - rewrite Hz, pretty_N_go_0. eexists _, _, _. split; [reflexivity|].
    assert (x < 10)%N by (apply N.div_small_iff in Hz; lia).
    rewrite N.mod_small by lia.
    split; [apply digit_of_pretty_N_char; lia|].
    assert (x = 1 ∨ x = 2 ∨ x = 3 ∨ x = 4 ∨ x = 5 ∨ x = 6 ∨ x = 7
            ∨ x = 8 ∨ x = 9)%N as Hc by lia.
    repeat (destruct Hc as [->|Hc]; [discriminate|]). subst. discriminate.
  - apply IH; [apply N.div_lt; lia | apply N.neq_0_lt_0, Hnz].
Qed.

Lemma take_digits_end rest : number_end rest → take_digits rest = ("", rest).
Proof.
  destruct rest as [|c r]; [reflexivity|]. intros [-> | ->]; reflexivity.
Qed.

Lemma digit_facts c :
  is_Some (digit_of c) →
  Ascii.eqb c "-" = false ∧ Ascii.eqb c "034" = false
  ∧ Ascii.eqb c "[" = false ∧ Ascii.eqb c "{" = false
  ∧ String.prefix "null" (String c "") = false.
Proof.
  intros [k Hk]. revert Hk.
  destruct c as [[] [] [] [] [] [] [] []]; try discriminate;
    intros _; repeat split; reflexivity.
Qed.

Lemma pretty_N_go_append x s t : pretty_N_go x s +:+ t = pretty_N_go x (s +:+ t).
Proof.
  revert s. induction (N.lt_wf_0 x) as [x _ IH]; intros s.
  destruct (decide (x = 0)%N) as [->|Hx].
  - rewrite !pretty_N_go_0. reflexivity.
  - rewrite (pretty_N_go_step x s), (pretty_N_go_step x (s +:+ t)) by lia.
    rewrite IH by (apply N.div_lt; lia). reflexivity.
Qed.

Lemma scan_unsigned_digits sign T rest :
  take_digits (T +:+ rest) = (T, rest) →
  (T = "0" ∨ ∃ d r, T = String d r ∧ d ≠ "0"%char) →
  number_end rest →
  scan_unsigned sign (T +:+ rest)
  = Some (PInt (if String.eqb sign "-"
                then - (read_digits 0 0 T).1.1 else (read_digits 0 0 T).1.1),
          rest).
Proof.
  intros Htake Hshape Hend. unfold scan_unsigned. rewrite Htake.
  destruct Hshape as [-> | (d & r & -> & Hd)].
  - destruct rest as [|c r']; [reflexivity|].
    destruct Hend as [-> | ->]; reflexivity.
  - rewrite (proj2 (Ascii.eqb_neq d "0") Hd).
    destruct rest as [|c r']; [reflexivity|].
    destruct Hend as [-> | ->]; reflexivity.
Qed.

(** The unsigned decimal of [n], followed by [rest], is read as [n]. *)
Lemma scan_unsigned_pretty sign (n : N) rest :
  number_end rest →
  scan_unsigned sign (pretty n +:+ rest)
  = Some (PInt (if String.eqb sign "-" then - Z.of_N n else Z.of_N n), rest).
Proof.
  intros Hend. unfold pretty, pretty_N. destruct (decide (n = 0)%N) as [->|Hn].
  - rewrite scan_unsigned_digits; auto.
    rewrite append_cons, append_nil_l. cbn [take_digits].
    change (digit_of "0") with (Some 0).
    rewrite (take_digits_end rest Hend). reflexivity.
  - destruct (pretty_N_go_head n "" ltac:(lia))
      as (d & k & r & Hhead & Hd & Hnz).
    destruct (read_digits_pretty_N_go n 0 0 "") as (a' & c' & Hread & Ha).
    rewrite scan_unsigned_digits; auto.
    + rewrite Hread. cbn [read_digits fst snd]. rewrite (Ha eq_refl).
      reflexivity.
    + rewrite pretty_N_go_append, append_nil_l, take_digits_pretty_N_go.
      rewrite (take_digits_end rest Hend). reflexivity.
    + right. eauto.
Qed.

Lemma scan_number_pretty (z : Z) rest :
  number_end rest → scan_number (pretty z +:+ rest) = Some (PInt z, rest).
Proof.
  intros Hend. unfold pretty, pretty_Z. destruct z as [|p|p].
  - apply (scan_unsigned_pretty "" 0%N rest Hend).
  - unfold pretty at 1, pretty_positive.
    pose proof (scan_unsigned_pretty "" (Npos p) rest Hend) as Hscan.
    unfold scan_number.
    destruct (pretty (N.pos p) +:+ rest) as [|c r] eqn:E; [exact Hscan|].
    assert (Ascii.eqb c "-" = false) as ->; [|exact Hscan].
    revert E. unfold pretty, pretty_N.
    destruct (decide (N.pos p = 0%N)); [discriminate|].
    destruct (pretty_N_go_head (N.pos p) "" ltac:(lia))
      as (d & k & r' & -> & Hd & _).
    rewrite append_cons. intros [= <- _]. apply digit_facts. eauto.
  - unfold pretty at 1, pretty_positive. rewrite append_assoc.
    change ("-" +:+ ?x) with (String "-" x). unfold scan_number.
    rewrite Ascii.eqb_refl.
    apply (scan_unsigned_pretty "-" (Npos p) rest Hend).
Qed.

(** *** Values *)

Lemma pyval_nested_ind (P : pyval → Prop) :
  P PNone → (∀ b, P (PBool b)) → (∀ z, P (PInt z)) → (∀ lit, P (PFloat lit)) →
  (∀ s, P (PStr s)) →
  (∀ l, Forall P l → P (PList l)) →
  (∀ kvs, Forall (λ kv, P kv.2) kvs → P (PDict kvs)) →
  ∀ v, P v.
Proof.
  intros HN HB HI HF HS HL HD. fix IH 1. intros [ |b|z|lit|s|l|kvs].
  - exact HN.
  - apply HB.
  - apply HI.
  - apply HF.
  - apply HS.
  - apply HL. induction l as [|x l IHl]; constructor; [apply IH|exact IHl].
  - apply HD. induction kvs as [|[k x] kvs IHk]; constructor;
      [apply IH|exact IHk].
Qed.

Lemma json_plain_list l : json_plain (PList l) ↔ Forall json_plain l.
Proof.
  cbn [json_plain]. induction l as [|x l IH]; cbn [fold_right].
  - split; [constructor|auto].
  - rewrite Forall_cons, IH. reflexivity.
Qed.

Lemma json_plain_dict kvs :
  json_plain (PDict kvs)
  ↔ NoDup (map fst kvs) ∧ Forall (λ kv, json_plain kv.2) kvs.
Proof.
  cbn [json_plain]. apply and_iff_compat_l.
  induction kvs as [|x l IH]; cbn [fold_right].
  - split; [constructor|auto].
  - rewrite Forall_cons, IH. reflexivity.
Qed.

Lemma skip_ws_newline_indent level t :
  skip_ws (newline_indent level +:+ t) = skip_ws t.
Proof.
  unfold newline_indent. rewrite append_cons. cbn [skip_ws].
  change (is_ws (ascii_of_nat 10)) with true. cbv iota.
  induction (2 * level)%nat as [|n IH]; [reflexivity|].
  cbn [repeat_char]. rewrite append_cons. exact IH.
Qed.

Lemma parse_value_string f r :
  parse_value (S f) (String "034" r)
  = match scan_string (String.length r) r with
    | Some (t, rest) => Some (PStr t, rest)
    | None => None
    end.
Proof. reflexivity. Qed.

Lemma parse_value_list f r :
  parse_value (S f) (String "[" r)
  = match skip_ws r with
    | String c' r' =>
        if Ascii.eqb c' "]" then Some (PList [], r')
        else parse_elements f (skip_ws r) []
    | EmptyString => None
    end.
Proof. reflexivity. Qed.

Lemma parse_value_dict f r :
  parse_value (S f) (String "{" r)
  = match skip_ws r with
    | String c' r' =>
        if Ascii.eqb c' "}" then Some (PDict [], r')
        else parse_members f (skip_ws r) []
    | EmptyString => None
    end.
Proof. reflexivity. Qed.

Lemma parse_elements_step f s acc :
  parse_elements (S f) s acc
  = match parse_value f s with
    | Some (v, rest) =>
        match skip_ws rest with
        | String c r =>
            if Ascii.eqb c "]" then Some (PList (acc ++ [v]), r)
            else if Ascii.eqb c "," then
              parse_elements f (skip_ws r) (acc ++ [v])
            else None
        | EmptyString => None
        end
    | None => None
    end.
Proof. reflexivity. Qed.

Lemma parse_members_step f r acc :
  parse_members (S f) (String "034" r) acc
  = match scan_string (String.length r) r with
    | Some (key, rest) =>
        match skip_ws rest with
        | String c r1 =>
            if Ascii.eqb c ":" then
              match parse_value f (skip_ws r1) with
              | Some (v, rest') =>
                  match skip_ws rest' with
                  | String c' r2 =>
                      if Ascii.eqb c' "}"
                      then Some (PDict (dict_set key v acc), r2)
                      else if Ascii.eqb c' "," then
                        parse_members f (skip_ws r2) (dict_set key v acc)
                      else None
                  | EmptyString => None
                  end
              | None => None
              end
            else None
        | EmptyString => None
        end
    | None => None
    end.
Proof. reflexivity. Qed.

Lemma digit_value_head c : is_Some (digit_of c) → value_head c.
Proof.
  intros [k Hk]. revert Hk.
  destruct c as [[] [] [] [] [] [] [] []]; try discriminate;
    intros _; repeat split; reflexivity.
Qed.

Lemma pretty_Z_head (z : Z) :
  ∃ c r, pretty z = String c r
         ∧ (is_Some (digit_of c)
            ∨ c = "-"%char ∧ ∃ d r', r = String d r' ∧ is_Some (digit_of d)).
Proof.
  assert (∀ p, ∃ d r, pretty (N.pos p) = String d r ∧ is_Some (digit_of d))
    as Hpos.
  { intros p. unfold pretty, pretty_N.
    destruct (decide (N.pos p = 0%N)); [discriminate|].
    destruct (pretty_N_go_head (N.pos p) "" ltac:(lia))
      as (d & k & r & -> & Hd & _). eauto. }
  unfold pretty, pretty_Z. destruct z as [|p|p].
  - exists "0"%char, "". split; [reflexivity|]. left. eauto.
  - destruct (Hpos p) as (d & r & Hp & Hd). exists d, r. split; [exact Hp|].
    left. exact Hd.
  - destruct (Hpos p) as (d & r & Hp & Hd).
    exists "-"%char, (String d r). split.
    + unfold pretty at 1, pretty_positive. rewrite Hp. reflexivity.
    + right. split; [reflexivity|]. eauto.
Qed.

Lemma parse_value_number f d r :
  is_Some (digit_of d)
  ∨ d = "-"%char ∧ (∃ d2 r2, r = String d2 r2 ∧ is_Some (digit_of d2)) →
  parse_value (S f) (String d r) = scan_number (String d r).
Proof.
  intros [[k Hk] | [-> (d2 & r2 & -> & [k Hk])]]; revert Hk.
  - destruct d as [[] [] [] [] [] [] [] []]; try discriminate;
      intros _; reflexivity.
  - destruct d2 as [[] [] [] [] [] [] [] []]; try discriminate;
      intros _; reflexivity.
Qed.

Lemma dumps_head level v :
  json_plain v → ∃ c r, dumps level v = String c r ∧ value_head c.
Proof.
  destruct v as [ |[|]|z|lit|s|[|x l]|[|kv kvs]]; intros Hplain;
    try (eexists _, _; split; [reflexivity|repeat split; reflexivity]).
  - destruct (pretty_Z_head z) as (c & r & Hz & [Hd | [-> _]]).
    + exists c, r. split; [exact Hz|]. apply digit_value_head, Hd.
    + eexists _, _. split; [exact Hz|]. repeat split; reflexivity.
  - destruct Hplain.
Qed.

Lemma concat_cons2 sep x y l :
  String.concat sep (x :: y :: l) = x +:+ sep +:+ String.concat sep (y :: l).
Proof. reflexivity. Qed.

Lemma skip_ws_head c r : is_ws c = false → skip_ws (String c r) = String c r.
Proof. intros H. cbn [skip_ws]. rewrite H. reflexivity. Qed.

Lemma dumps_length level v : json_plain v → (1 <= String.length (dumps level v))%nat.
Proof.
  intros Hp. destruct (dumps_head level v Hp) as (c & r & -> & _). cbn. lia.
Qed.

Lemma newline_indent_length level : (1 <= String.length (newline_indent level))%nat.
Proof. unfold newline_indent. cbn. lia. Qed.

Lemma number_end_newline level t : number_end (newline_indent level +:+ t).
Proof. unfold newline_indent. rewrite append_cons. right. reflexivity. Qed.

Lemma number_end_comma t : number_end (String "," t).
Proof. left. reflexivity. Qed.

Lemma parse_elements_items L lvl rest xs :
  xs ≠ [] →
  Forall (λ x, json_plain x ∧ round_trips x) xs →
  ∀ acc f,
    (String.length (String.concat (separator L) (map (dumps L) xs)) + 1 < f)%nat →
    parse_elements f
      (String.concat (separator L) (map (dumps L) xs)
       +:+ newline_indent lvl +:+ "]" +:+ rest) acc
    = Some (PList (acc ++ xs), rest).
Proof.
  intros Hne Hall. induction Hall as [|x xs [Hplain Hx] Hxs IH]; [congruence|].
  clear Hne. intros acc f Hf. destruct f as [|f]; [lia|].
  rewrite parse_elements_step. destruct xs as [|y ys].
  - cbn [map String.concat] in *.
    rewrite (Hx L _ f (number_end_newline lvl _)) by lia.
    rewrite skip_ws_newline_indent. reflexivity.
  - cbn [map] in *. rewrite concat_cons2 in *.
    rewrite !length_append in Hf.
    pose proof (dumps_length L x Hplain).
    rewrite !append_assoc. unfold separator at 1.
    rewrite append_assoc. change ("," +:+ ?t) with (String "," t).
    rewrite (Hx L _ f (number_end_comma _)) by lia.
    rewrite skip_ws_head by reflexivity.
    change (Ascii.eqb "," "]") with false. change (Ascii.eqb "," ",") with true.
    cbv iota. rewrite skip_ws_newline_indent.
    apply Forall_cons in Hxs as [[Hyp _] _].
    destruct (dumps_head L y Hyp) as (c & r & Hy & Hws & _).
    assert (∀ t, skip_ws (String.concat (separator L)
                            (dumps L y :: map (dumps L) ys) +:+ t)
                 = String.concat (separator L)
                     (dumps L y :: map (dumps L) ys) +:+ t) as Hskip.
    { intros t. destruct ys; cbn [map String.concat]; rewrite Hy, ?append_cons;
        apply skip_ws_head, Hws. }
    rewrite Hskip, IH.
    + rewrite <- app_assoc. reflexivity.
    + discriminate.
    + cbn [map]. lia.
Qed.

Lemma dict_set_fresh k v acc :
  k ∉ map fst acc → dict_set k v acc = acc ++ [(k, v)].
Proof.
  induction acc as [|[k' x] acc IH]; [reflexivity|].
  cbn [map fst dict_set app]. intros Hk.
  destruct (String.eqb_spec k' k) as [->|Hne].
  - exfalso. apply Hk. left.
  - rewrite IH; [reflexivity|]. intros Hin. apply Hk. right. exact Hin.
Qed.

Lemma member_text_shape L k x t :
  member_text L (k, x) +:+ t
  = String "034" (escape k +:+ dq +:+ String ":" (String " " (dumps L x +:+ t))).
Proof.
  unfold member_text, quote. cbn [fst snd]. unfold dq at 1.
  rewrite !append_assoc. reflexivity.
Qed.

Lemma member_text_length L k x :
  (String.length (escape k) + String.length (dumps L x) + 4
   = String.length (member_text L (k, x)))%nat.
Proof.
  unfold member_text, quote, dq. cbn [fst snd].
  rewrite !length_append. cbn [String.length]. lia.
Qed.

Lemma parse_members_items L lvl rest kvs :
  kvs ≠ [] →
  Forall (λ kv, json_plain kv.2 ∧ round_trips kv.2) kvs →
  NoDup (map fst kvs) →
  ∀ acc f,
    (∀ k, k ∈ map fst kvs → k ∉ map fst acc) →
    (String.length (String.concat (separator L) (map (member_text L) kvs)) + 1
     < f)%nat →
    parse_members f
      (String.concat (separator L) (map (member_text L) kvs)
       +:+ newline_indent lvl +:+ "}" +:+ rest) acc
    = Some (PDict (acc ++ kvs), rest).
Proof.
  intros Hne Hall.
  induction Hall as [|[k x] kvs [Hplain Hx] Hkvs IH]; [congruence|].
  clear Hne. intros Hnodup acc f Hfresh Hf. destruct f as [|f]; [lia|].
  cbn [fst snd] in *. apply NoDup_cons in Hnodup as [Hk Hnodup].
  assert (dict_set k x acc = acc ++ [(k, x)]) as Hset.
  { apply dict_set_fresh, Hfresh. left. }
  pose proof (dumps_length L x Hplain) as Hlen.
  destruct (dumps_head L x Hplain) as (c & r & Hhead & Hws & _).
  destruct kvs as [|[k' y] kvs'].
  - cbn [map String.concat] in *.
    rewrite member_text_shape, parse_members_step.
    rewrite <- member_text_length in Hf.
    rewrite scan_string_escape
      by (rewrite !length_append; cbn [String.length]; lia).
    rewrite skip_ws_head by reflexivity.
    change (Ascii.eqb ":" ":") with true. cbv iota.
    cbn [skip_ws]. change (is_ws " ") with true. cbv iota.
    rewrite Hhead at 1. rewrite append_cons, (skip_ws_head c) by exact Hws.
    rewrite <- append_cons, <- Hhead.
    rewrite (Hx L _ f (number_end_newline lvl _)) by lia.
    rewrite skip_ws_newline_indent, Hset. reflexivity.
  - cbn [map] in *. rewrite concat_cons2 in *.
    rewrite !length_append in Hf. rewrite <- member_text_length in Hf.
    pose proof (eq_refl : String.length (separator L)
                          = S (String.length (newline_indent L))) as Hsep.
    rewrite !append_assoc, member_text_shape, parse_members_step.
    rewrite scan_string_escape
      by (rewrite !length_append; cbn [String.length]; lia).
    rewrite skip_ws_head by reflexivity.
    change (Ascii.eqb ":" ":") with true. cbv iota.
    cbn [skip_ws]. change (is_ws " ") with true. cbv iota.
    rewrite Hhead at 1. rewrite append_cons, (skip_ws_head c) by exact Hws.
    rewrite <- append_cons, <- Hhead.
    unfold separator at 1. rewrite append_assoc.
    change ("," +:+ ?t) with (String "," t).
    rewrite (Hx L _ f (number_end_comma _)) by lia.
    rewrite skip_ws_head by reflexivity.
    change (Ascii.eqb "," "}") with false. change (Ascii.eqb "," ",") with true.
    cbv iota. rewrite skip_ws_newline_indent, Hset.
    assert (∀ t, skip_ws (String.concat (separator L)
                            (member_text L (k', y)
                             :: map (member_text L) kvs') +:+ t)
                 = String.concat (separator L)
                     (member_text L (k', y)
                      :: map (member_text L) kvs') +:+ t) as Hskip.
    { intros t. destruct kvs'; cbn [map String.concat];
        rewrite ?append_assoc, member_text_shape; reflexivity. }
    rewrite Hskip, IH.
    + rewrite <- app_assoc. reflexivity.
    + discriminate.
    + exact Hnodup.
    + intros k0 Hk0. rewrite map_app, elem_of_app. cbn [map fst].
      intros [Hacc | Hin].
      * apply (Hfresh k0); [right; exact Hk0|exact Hacc].
      * apply list_elem_of_singleton in Hin as ->. apply Hk, Hk0.
    + cbn [map]. lia.
Qed.

Lemma Forall_and_plain {A} (P Q : A → Prop) l :
  Forall P l → Forall Q l → Forall (λ x, P x ∧ Q x) l.
Proof. intros HP HQ. induction HP; inversion HQ; subst; constructor; auto. Qed.

Theorem parse_value_dumps v : json_plain v → round_trips v.
Proof.
  induction v as [ |b|z|lit|s|l IH|kvs IH] using pyval_nested_ind;
    intros Hplain level rest f Hend Hf.
  - destruct f; [cbn in Hf; lia|]. reflexivity.
  - destruct f; [cbn in Hf; lia|]. destruct b; reflexivity.
  - destruct f; [lia|]. cbn [dumps] in *.
    destruct (pretty_Z_head z) as (c & r & Hz & Hshape).
    rewrite <- (scan_number_pretty z rest Hend), Hz, append_cons.
    apply parse_value_number.
    destruct Hshape as [Hd | [-> (d & r' & -> & Hd)]]; [left; exact Hd|].
    right. split; [reflexivity|]. rewrite append_cons. eauto.
  - destruct Hplain.
  - destruct f; [lia|]. cbn [dumps] in *. unfold quote in *.
    rewrite !append_assoc. unfold dq at 1. rewrite append_cons, append_nil_l.
    rewrite parse_value_string, scan_string_escape; [reflexivity|].
    rewrite !length_append. cbn. lia.
  - apply json_plain_list in Hplain.
    assert (Forall (λ x, json_plain x ∧ round_trips x) l) as Hall.
    { apply Forall_and_plain; [exact Hplain|].
      clear -IH Hplain. induction IH; inversion Hplain; subst;
        constructor; auto. }
    destruct f; [lia|]. destruct l as [|x l]; [reflexivity|].
    change (dumps level (PList (x :: l)))
      with ("[" +:+ newline_indent (S level)
            +:+ String.concat (separator (S level))
                  (map (dumps (S level)) (x :: l))
            +:+ newline_indent level +:+ "]") in *.
    rewrite !length_append in Hf. cbn [String.length] in Hf.
    pose proof (newline_indent_length (S level)).
    pose proof (newline_indent_length level).
    rewrite !append_assoc. change ("[" +:+ ?t) with (String "[" t).
    rewrite parse_value_list, skip_ws_newline_indent.
    apply Forall_cons in Hplain as [Hxp _].
    destruct (dumps_head (S level) x Hxp) as (c & r & Hx & Hws & Hb & _).
    assert (∀ t, ∃ r', String.concat (separator (S level))
                         (map (dumps (S level)) (x :: l)) +:+ t
                       = String c r') as Hshape.
    { intros t. destruct l; cbn [map String.concat]; rewrite Hx;
        rewrite ?append_assoc, ?append_cons; eauto. }
    destruct (Hshape (newline_indent level +:+ "]" +:+ rest)) as [r' Hr'].
    rewrite Hr', skip_ws_head by exact Hws. rewrite Hb, <- Hr'.
    apply (parse_elements_items (S level) level rest (x :: l));
      [discriminate|exact Hall|]. lia.
  - apply json_plain_dict in Hplain as [Hnodup Hplain].
    assert (Forall (λ kv, json_plain kv.2 ∧ round_trips kv.2) kvs) as Hall.
    { apply Forall_and_plain; [exact Hplain|].
      clear -IH Hplain. induction IH; inversion Hplain; subst;
        constructor; auto. }
    destruct f; [lia|]. destruct kvs as [|[k x] kvs]; [reflexivity|].
    change (dumps level (PDict ((k, x) :: kvs)))
      with ("{" +:+ newline_indent (S level)
            +:+ String.concat (separator (S level))
                  (map (member_text (S level)) ((k, x) :: kvs))
            +:+ newline_indent level +:+ "}") in *.
    rewrite !length_append in Hf. cbn [String.length] in Hf.
    pose proof (newline_indent_length (S level)).
    pose proof (newline_indent_length level).
    rewrite !append_assoc. change ("{" +:+ ?t) with (String "{" t).
    rewrite parse_value_dict, skip_ws_newline_indent.
    assert (∀ t, ∃ r', String.concat (separator (S level))
                   (map (member_text (S level)) ((k, x) :: kvs)) +:+ t
                 = String "034" r') as Hshape.
    { intros t. destruct kvs; cbn [map String.concat];
        rewrite ?append_assoc, member_text_shape; eauto. }
    destruct (Hshape (newline_indent level +:+ "}" +:+ rest)) as [r' Hr'].
    rewrite Hr', skip_ws_head by reflexivity.
    change (Ascii.eqb "034" "}") with false. cbv iota. rewrite <- Hr'.
    apply (parse_members_items (S level) level rest ((k, x) :: kvs));
      [discriminate|exact Hall|exact Hnodup|intros ? _ []%elem_of_nil|].
    lia.
Qed.

Theorem loads_dumps v : json_plain v → loads (dumps 0 v) = Some v.
Proof.
  intros Hplain. unfold loads.
  destruct (dumps_head 0 v Hplain) as (c & r & Hhead & Hws & _).
  rewrite Hhead at 2. rewrite skip_ws_head by exact Hws. rewrite <- Hhead.
  rewrite <- (append_nil_r (dumps 0 v)) at 2.
  rewrite (parse_value_dumps v Hplain 0%nat "" _ I) by lia.
  reflexivity.
Qed.

(** *** The text decodes *)

Lemma utf8_valid_ascii a b :
  ascii_only a → utf8_valid (a +:+ b) = utf8_valid b.
Proof.
  unfold ascii_only. induction a as [|c a IH]; [reflexivity|].
  cbn [list_ascii_of_string]. intros [Hc Ha]%Forall_cons.
  rewrite append_cons. cbn [utf8_valid].
  rewrite (proj2 (Nat.ltb_lt _ _) Hc). apply IH, Ha.
Qed.

Lemma utf8_valid_app a b :
  utf8_valid a = true → utf8_valid b = true → utf8_valid (a +:+ b) = true.
Proof.
  intros Ha Hb. remember (String.length a) as n eqn:Hn.
  revert a Hn Ha. induction n as [n IH] using lt_wf_ind. intros a Hn Ha.
  destruct a as [|c0 r]; [exact Hb|]. rewrite append_cons.
  cbn [utf8_valid String.length] in Ha, Hn |- *.
  destruct (nat_of_ascii c0 <? 128)%nat.
  { eapply IH; [|reflexivity|exact Ha]. lia. }
  destruct (in_range 194 223 c0).
  { destruct r as [|c1 r1]; [discriminate|]. rewrite append_cons.
    apply andb_true_iff in Ha as [-> Ha]. cbn [andb String.length] in *.
    eapply IH; [|reflexivity|exact Ha]. lia. }
  destruct (in_range 224 239 c0).
  { destruct r as [|c1 [|c2 r2]]; try discriminate. rewrite !append_cons.
    apply andb_true_iff in Ha as [[-> ->]%andb_true_iff Ha].
    cbn [andb String.length] in *.
    eapply IH; [|reflexivity|exact Ha]. lia. }
  destruct (in_range 240 244 c0); [|discriminate].
  destruct r as [|c1 [|c2 [|c3 r3]]]; try discriminate. rewrite !append_cons.
  apply andb_true_iff in Ha as [[[-> ->]%andb_true_iff ->]%andb_true_iff Ha].
  cbn [andb String.length] in *.
  eapply IH; [|reflexivity|exact Ha]. lia.
Qed.

Lemma ascii_only_valid a : ascii_only a → utf8_valid a = true.
Proof.
  intros Ha. rewrite <- (append_nil_r a). rewrite utf8_valid_ascii by exact Ha.
  reflexivity.
Qed.

Lemma eqb_by_code c c' :
  nat_of_ascii c ≠ nat_of_ascii c' → Ascii.eqb c c' = false.
Proof. intros Hne. apply Ascii.eqb_neq. congruence. Qed.

Lemma escape_char_high c :
  (128 <= nat_of_ascii c)%nat → escape_char c = String c "".
Proof.
  intros Hc. unfold escape_char.
  rewrite (eqb_by_code c "034")
    by (change (nat_of_ascii "034") with 34%nat; lia).
  rewrite (eqb_by_code c "\")
    by (change (nat_of_ascii "\") with 92%nat; lia).
  repeat match goal with
         | |- context [Nat.eqb ?a ?b] => destruct (Nat.eqb_spec a b); [lia|]
         end.
  destruct (Nat.ltb_spec (nat_of_ascii c) 32); [lia|]. reflexivity.
Qed.

Lemma ascii_only_cons c s :
  ascii_only (String c s) ↔ (nat_of_ascii c < 128)%nat ∧ ascii_only s.
Proof.
  unfold ascii_only. cbn [list_ascii_of_string]. rewrite Forall_cons.
  reflexivity.
Qed.

Lemma ascii_only_nil : ascii_only "".
Proof. constructor. Qed.

Lemma ascii_only_app a b : ascii_only a → ascii_only b → ascii_only (a +:+ b).
Proof.
  induction a as [|c a IH]; [auto|]. rewrite append_cons, !ascii_only_cons.
  intros [Hc Ha] Hb. auto.
Qed.

Lemma hex_digit_ascii k : (k < 16)%nat → (nat_of_ascii (hex_digit k) < 128)%nat.
Proof.
  intros Hk. unfold hex_digit.
  destruct (k <? 10)%nat; rewrite nat_ascii_embedding; lia.
Qed.

Lemma escape_char_ascii c :
  (nat_of_ascii c < 128)%nat → ascii_only (escape_char c).
Proof.
  intros Hc. unfold escape_char.
  repeat (case_match;
          [repeat (apply ascii_only_cons; split; [vm_compute; lia|]);
           apply ascii_only_nil|]).
  case_match.
  - apply ascii_only_app.
    + repeat (apply ascii_only_cons; split; [vm_compute; lia|]).
      apply ascii_only_nil.
    + assert (nat_of_ascii c < 32)%nat by (apply Nat.ltb_lt; assumption).
      repeat (apply ascii_only_cons; split;
              [apply hex_digit_ascii;
               first [apply Nat.Div0.div_lt_upper_bound; lia
                     | apply Nat.mod_upper_bound; lia]|]).
      apply ascii_only_nil.
  - apply ascii_only_cons. split; [exact Hc|apply ascii_only_nil].
Qed.

Lemma in_range_high lo hi c :
  (128 <= lo)%nat → in_range lo hi c = true → (128 <= nat_of_ascii c)%nat.
Proof.
  unfold in_range. intros Hlo [H1 _]%andb_true_iff.
  apply Nat.leb_le in H1. lia.
Qed.

Lemma utf8_valid_escape s : utf8_valid s = true → utf8_valid (escape s) = true.
Proof.
  remember (String.length s) as n eqn:Hn.
  revert s Hn. induction n as [n IH] using lt_wf_ind. intros s Hn Hs.
  destruct s as [|c0 r]; [reflexivity|].
  cbn [escape]. cbn [utf8_valid String.length] in Hs, Hn.
  destruct (nat_of_ascii c0 <? 128)%nat eqn:H0.
  { rewrite utf8_valid_ascii
      by (apply escape_char_ascii, Nat.ltb_lt, H0).
    eapply IH; [|reflexivity|exact Hs]. lia. }
  apply Nat.ltb_ge in H0. rewrite (escape_char_high c0 H0).
  rewrite append_cons, append_nil_l. cbn [utf8_valid].
  rewrite (proj2 (Nat.ltb_ge _ _) H0).
  destruct (in_range 194 223 c0).
  { destruct r as [|c1 r1]; [discriminate|].
    apply andb_true_iff in Hs as [H1 Hs]. cbn [escape String.length] in *.
    rewrite (escape_char_high c1) by (eapply in_range_high; [|exact H1]; lia).
    rewrite append_cons, append_nil_l, H1. cbn [andb].
    eapply IH; [|reflexivity|exact Hs]. lia. }
  destruct (in_range 224 239 c0).
  { destruct r as [|c1 [|c2 r2]]; try discriminate.
    apply andb_true_iff in Hs as [[H1 H2]%andb_true_iff Hs].
    cbn [escape String.length] in *.
    rewrite (escape_char_high c1)
      by (eapply in_range_high; [|exact H1]; repeat case_match; lia).
    rewrite (escape_char_high c2) by (eapply in_range_high; [|exact H2]; lia).
    rewrite !append_cons, !append_nil_l, H1, H2. cbn [andb].
    eapply IH; [|reflexivity|exact Hs]. lia. }
  destruct (in_range 240 244 c0); [|discriminate].
  destruct r as [|c1 [|c2 [|c3 r3]]]; try discriminate.
  apply andb_true_iff in Hs as [[[H1 H2]%andb_true_iff H3]%andb_true_iff Hs].
  cbn [escape String.length] in *.
  rewrite (escape_char_high c1)
    by (eapply in_range_high; [|exact H1]; repeat case_match; lia).
  rewrite (escape_char_high c2) by (eapply in_range_high; [|exact H2]; lia).
  rewrite (escape_char_high c3) by (eapply in_range_high; [|exact H3]; lia).
  rewrite !append_cons, !append_nil_l, H1, H2, H3. cbn [andb].
  eapply IH; [|reflexivity|exact Hs]. lia.
Qed.

Lemma text_valid_list l : text_valid (PList l) ↔ Forall text_valid l.
Proof.
  cbn [text_valid]. induction l as [|x l IH]; cbn [fold_right].
  - split; [constructor|auto].
  - rewrite Forall_cons, IH. reflexivity.
Qed.

Lemma text_valid_dict kvs :
  text_valid (PDict kvs)
  ↔ Forall (λ kv, utf8_valid kv.1 = true ∧ text_valid kv.2) kvs.
Proof.
  cbn [text_valid]. induction kvs as [|x l IH]; cbn [fold_right].
  - split; [constructor|auto].
  - rewrite Forall_cons, IH. reflexivity.
Qed.

Lemma pretty_N_char_ascii k : (nat_of_ascii (pretty_N_char k) < 128)%nat.
Proof. unfold pretty_N_char. repeat case_match; vm_compute; lia. Qed.

Lemma pretty_N_go_ascii x s : ascii_only s → ascii_only (pretty_N_go x s).
Proof.
  revert s. induction (N.lt_wf_0 x) as [x _ IH]. intros s Hs.
  destruct (decide (x = 0)%N) as [->|Hx]; [exact Hs|].
  rewrite pretty_N_go_step by lia. apply IH.
  - apply N.div_lt; lia.
  - apply ascii_only_cons. split; [apply pretty_N_char_ascii|exact Hs].
Qed.

Lemma pretty_N_ascii (x : N) : ascii_only (pretty x).
Proof.
  unfold pretty, pretty_N. case_decide.
  - apply ascii_only_cons. split; [vm_compute; lia|apply ascii_only_nil].
  - apply pretty_N_go_ascii, ascii_only_nil.
Qed.

Lemma pretty_Z_ascii (z : Z) : ascii_only (pretty z).
Proof.
  destruct z as [|p|p]; unfold pretty, pretty_Z.
  - apply ascii_only_cons. split; [vm_compute; lia|apply ascii_only_nil].
  - apply (pretty_N_ascii (N.pos p)).
  - rewrite append_cons, append_nil_l. apply ascii_only_cons.
    split; [vm_compute; lia|apply (pretty_N_ascii (N.pos p))].
Qed.

Lemma repeat_char_ascii c n :
  (nat_of_ascii c < 128)%nat → ascii_only (repeat_char c n).
Proof.
  intros Hc. induction n as [|n IH]; [apply ascii_only_nil|].
  cbn [repeat_char]. apply ascii_only_cons. auto.
Qed.

Lemma newline_indent_ascii level : ascii_only (newline_indent level).
Proof.
  unfold newline_indent. apply ascii_only_cons.
  split; [vm_compute; lia|]. apply repeat_char_ascii. vm_compute; lia.
Qed.

Lemma separator_ascii level : ascii_only (separator level).
Proof.
  unfold separator. rewrite append_cons, append_nil_l.
  apply ascii_only_cons. split; [vm_compute; lia|apply newline_indent_ascii].
Qed.

Lemma utf8_valid_quote s : utf8_valid s = true → utf8_valid (quote s) = true.
Proof.
  intros Hs. unfold quote, dq. rewrite append_cons, append_nil_l.
  cbn [utf8_valid]. change (nat_of_ascii "034" <? 128)%nat with true. cbv iota.
  apply utf8_valid_app; [apply utf8_valid_escape, Hs|reflexivity].
Qed.

Lemma utf8_valid_concat sep l :
  ascii_only sep → Forall (λ s, utf8_valid s = true) l →
  utf8_valid (String.concat sep l) = true.
Proof.
  intros Hsep. induction 1 as [|s l Hs Hl IH]; [reflexivity|].
  destruct l as [|s' l]; [exact Hs|].
  rewrite concat_cons2. apply utf8_valid_app; [exact Hs|].
  rewrite utf8_valid_ascii by exact Hsep. exact IH.
Qed.

Lemma utf8_valid_bracketed level open close body :
  (nat_of_ascii open < 128)%nat → (nat_of_ascii close < 128)%nat →
  utf8_valid body = true →
  utf8_valid (String open "" +:+ newline_indent (S level) +:+ body
              +:+ newline_indent level +:+ String close "") = true.
Proof.
  intros Ho Hc Hb. rewrite append_cons, append_nil_l. cbn [utf8_valid].
  rewrite (proj2 (Nat.ltb_lt _ _) Ho).
  rewrite utf8_valid_ascii by apply newline_indent_ascii.
  apply utf8_valid_app; [exact Hb|].
  apply ascii_only_valid, ascii_only_app; [apply newline_indent_ascii|].
  apply ascii_only_cons. split; [exact Hc|apply ascii_only_nil].
Qed.

(** The reference writer produces text: what it writes for a value whose
    strings decode, decodes. *)
Theorem utf8_valid_dumps v :
  text_valid v → ∀ level, utf8_valid (dumps level v) = true.
Proof.
  induction v as [ |b|z|lit|s|l IH|kvs IH] using pyval_nested_ind;
    intros Hv level.
  - reflexivity.
  - destruct b; reflexivity.
  - apply ascii_only_valid, pretty_Z_ascii.
  - exact Hv.
  - apply utf8_valid_quote, Hv.
  - destruct l as [|x l]; [reflexivity|].
    apply text_valid_list in Hv.
    apply (utf8_valid_bracketed level "[" "]"); [vm_compute; lia..|].
    apply (utf8_valid_concat (separator (S level)));
      [apply separator_ascii|].
    apply Forall_map. eapply Forall_impl; [exact (Forall_and_plain _ _ _ IH Hv)|].
    intros y [Hy1 Hy2]. apply Hy1, Hy2.
  - destruct kvs as [|kv kvs]; [reflexivity|].
    apply text_valid_dict in Hv.
    apply (utf8_valid_bracketed level "{" "}"); [vm_compute; lia..|].
    apply (utf8_valid_concat (separator (S level)));
      [apply separator_ascii|].
    apply Forall_map. eapply Forall_impl; [exact (Forall_and_plain _ _ _ IH Hv)|].
    intros [k y] [Hy1 [Hk Hy2]]. cbn [fst snd] in *.
    apply utf8_valid_app; [apply utf8_valid_quote, Hk|].
    rewrite utf8_valid_ascii; [apply Hy1, Hy2|].
    repeat (apply ascii_only_cons; split; [vm_compute; lia|]).
    apply ascii_only_nil.
Qed.

(** *** The chunks of the encoder *)

Lemma concat_join_app l1 l2 :
  String.concat "" (l1 ++ l2) = String.concat "" l1 +:+ String.concat "" l2.
Proof.
  induction l1 as [|x l1 IH]; [reflexivity|].
  rewrite <- app_comm_cons, !concat_join_cons, IH, append_assoc. reflexivity.
Qed.

Lemma concat_sep_cons sep x l :
  String.concat sep (x :: l)
  = x +:+ String.concat "" (map (λ y, sep +:+ y) l).
Proof.
  revert x. induction l as [|y l IH]; intros x.
  - symmetry. apply append_nil_r.
  - rewrite concat_cons2, IH. cbn [map]. rewrite concat_join_cons.
    rewrite !append_assoc. reflexivity.
Qed.

Lemma concat_join_flat_map {A} (f : A → list string) (g : A → string) l :
  Forall (λ x, String.concat "" (f x) = g x) l →
  String.concat "" (flat_map f l) = String.concat "" (map g l).
Proof.
  induction 1 as [|x l Hx _ IH]; [reflexivity|].
  cbn [flat_map map]. rewrite concat_join_app, concat_join_cons, Hx, IH.
  reflexivity.
Qed.

(** The chunks of the encoder, joined, are the text of the printer. *)
Lemma iterencode_joined v :
  ∀ level, String.concat "" (iterencode level v) = dumps level v.
Proof.
  revert v. apply (pyval_nested_ind
    (λ v, ∀ level, String.concat "" (iterencode level v) = dumps level v));
    try reflexivity.
  - intros l IH level. destruct l as [|x l]; [reflexivity|].
    apply Forall_cons in IH as [Hx Hl].
    set (sep := "," +:+ newline_indent (S level)).
    set (item := λ (buf : string) (x : pyval),
           match x with
           | PList _ | PDict _ => buf :: iterencode (S level) x
           | _ => [buf +:+ dumps (S level) x]
           end).
    assert (∀ buf y, (∀ level, String.concat "" (iterencode level y)
                               = dumps level y) →
                     String.concat "" (item buf y)
                     = buf +:+ dumps (S level) y) as Hitem.
    { intros buf y Hy. unfold item.
      destruct y; try reflexivity; rewrite concat_join_cons, Hy; reflexivity. }
    change (iterencode level (PList (x :: l)))
      with (item ("[" +:+ newline_indent (S level)) x
            ++ flat_map (item sep) l ++ [newline_indent level; "]"]).
    change (dumps level (PList (x :: l)))
      with ("[" +:+ newline_indent (S level)
            +:+ String.concat sep (map (dumps (S level)) (x :: l))
            +:+ newline_indent level +:+ "]").
    rewrite !concat_join_app, (Hitem _ x Hx).
    rewrite (concat_join_flat_map (item sep) (λ y, sep +:+ dumps (S level) y)).
    2: { eapply Forall_impl; [exact Hl|]. intros y Hy. apply Hitem, Hy. }
    cbn [map]. rewrite (concat_sep_cons sep), map_map.
    rewrite !concat_join_cons. change (String.concat "" []) with "".
    rewrite !append_assoc, append_nil_r. reflexivity.
  - intros kvs IH level. destruct kvs as [|kv kvs]; [reflexivity|].
    apply Forall_cons in IH as [Hx Hl].
    set (sep := "," +:+ newline_indent (S level)).
    set (member := λ kv : string * pyval,
           quote kv.1 :: ": " :: iterencode (S level) kv.2).
    set (text := λ kv : string * pyval,
           quote kv.1 +:+ ": " +:+ dumps (S level) kv.2).
    assert (∀ kv, (∀ level, String.concat "" (iterencode level kv.2)
                            = dumps level kv.2) →
                  String.concat "" (member kv) = text kv) as Hmember.
    { intros y Hy. unfold member, text.
      rewrite !concat_join_cons, Hy. reflexivity. }
    change (iterencode level (PDict (kv :: kvs)))
      with ("{" :: newline_indent (S level) :: member kv
            ++ flat_map (λ kv, sep :: member kv) kvs
            ++ [newline_indent level; "}"]).
    change (dumps level (PDict (kv :: kvs)))
      with ("{" +:+ newline_indent (S level)
            +:+ String.concat sep (map text (kv :: kvs))
            +:+ newline_indent level +:+ "}").
    rewrite !concat_join_cons, !concat_join_app, (Hmember kv Hx).
    rewrite (concat_join_flat_map (λ kv, sep :: member kv)
               (λ kv, sep +:+ text kv)).
    2: { eapply Forall_impl; [exact Hl|]. intros y Hy.
         rewrite concat_join_cons, (Hmember y Hy). reflexivity. }
    cbn [map]. rewrite (concat_sep_cons sep), map_map.
    rewrite !concat_join_cons. change (String.concat "" []) with "".
    rewrite !append_assoc, append_nil_r. reflexivity.
Qed.

(** The reference JSON module round-trips every plain value whose strings
    decode. *)
Theorem reference_json_round_trips v :
  json_plain v → text_valid v → json_round_trips (J := json) v.
Proof.
  intros Hplain Htext. unfold json_round_trips, json_dumps.
  cbn [json_iterencode json_loads json fst]. rewrite iterencode_joined.
  split.
  - apply (utf8_valid_dumps v Htext 0%nat).
  - rewrite loads_dumps by exact Hplain. reflexivity.
Qed.

End ReferenceJson.

(** ** The checkpoint with the reference JSON module *)

Lemma json_plain_assoc k kvs x :
  json_plain (PDict kvs) → assoc k kvs = Some x → json_plain x.
Proof.
  intros [_ Hkvs]%json_plain_dict. induction Hkvs as [|[k' y] kvs Hy _ IH];
    cbn [assoc]; [discriminate|].
  destruct (String.eqb k' k); [intros [= <-]; exact Hy|exact IH].
Qed.

Lemma text_valid_assoc k kvs x :
  text_valid (PDict kvs) → assoc k kvs = Some x → text_valid x.
Proof.
  intros Hkvs%text_valid_dict. induction Hkvs as [|[k' y] kvs [_ Hy] _ IH];
    cbn [assoc]; [discriminate|].
  destruct (String.eqb k' k); [intros [= <-]; exact Hy|exact IH].
Qed.

Lemma py_getitem_plain d key x :
  json_plain d → py_getitem d key = Ok x → json_plain x.
Proof.
  destruct d as [ | | | | | |kvs]; try discriminate. intros Hd. cbn [py_getitem].
  destruct (assoc key kvs) as [y|] eqn:Hy; [|discriminate].
  intros [= <-]. eapply json_plain_assoc; eassumption.
Qed.

Lemma py_getitem_text d key x :
  text_valid d → py_getitem d key = Ok x → text_valid x.
Proof.
  destruct d as [ | | | | | |kvs]; try discriminate. intros Hd. cbn [py_getitem].
  destruct (assoc key kvs) as [y|] eqn:Hy; [|discriminate].
  intros [= <-]. eapply text_valid_assoc; eassumption.
Qed.

Lemma result_metadata_inv r md :
  result_metadata r = Ok md →
  ∃ index line heading,
    py_getitem r "index" = Ok index ∧ py_getitem r "line" = Ok line
    ∧ py_getitem r "is_chapter_heading" = Ok heading
    ∧ md = PDict [("index", index); ("line", line);
                  ("is_chapter_heading", heading)].
Proof.
  unfold result_metadata.
  destruct (py_getitem r "index") as [index|]; [|discriminate].
  destruct (py_getitem r "line") as [line|]; [|discriminate].
  destruct (py_getitem r "is_chapter_heading") as [heading|]; [|discriminate].
  intros [= <-]. eauto 10.
Qed.

Lemma result_metadata_plain r md :
  json_plain r → result_metadata r = Ok md → json_plain md.
Proof.
  intros Hr (index & line & heading & Hi & Hl & Hh & ->)%result_metadata_inv.
  apply json_plain_dict. split.
  - apply (bool_decide_unpack _). vm_compute. reflexivity.
  - repeat constructor; cbn [snd]; eapply py_getitem_plain; eassumption.
Qed.

Lemma result_metadata_text r md :
  text_valid r → result_metadata r = Ok md → text_valid md.
Proof.
  intros Hr (index & line & heading & Hi & Hl & Hh & ->)%result_metadata_inv.
  apply text_valid_dict.
  repeat constructor; cbn [snd]; eapply py_getitem_text; eassumption.
Qed.

Lemma map_result_Forall {A B} (f : A → result B) (P : A → Prop) (Q : B → Prop)
    xs ys :
  (∀ x y, P x → f x = Ok y → Q y) →
  Forall P xs → map_result f xs = Ok ys → Forall Q ys.
Proof.
  intros Hf Hxs. revert ys. induction Hxs as [|x xs Hx _ IH]; intros ys; simpl.
  - intros [= <-]. constructor.
  - destruct (f x) as [y|] eqn:Hy; [|discriminate].
    destruct (map_result f xs) as [ys'|]; [|discriminate].
    intros [= <-]. constructor; [eapply Hf; eassumption|apply IH; reflexivity].
Qed.

(** The reference JSON module round-trips the checkpoint of plain values:
    with it, the assumption of the checkpoint round trip holds whenever the
    group mapping, the group files and the results hold no float, no
    repeated key and only strings that decode. *)
Theorem reference_json_round_trips_checkpoint clm cf results cp :
  json_plain clm → text_valid clm → json_plain cf → text_valid cf →
  Forall json_plain results → Forall text_valid results →
  checkpoint_data clm cf results = Ok cp →
  json_round_trips (J := RefJson.json) cp.
Proof.
  intros Hclm Tclm Hcf Tcf Hres Tres. unfold checkpoint_data.
  destruct (map_result result_metadata results) as [md|] eqn:Hmd;
    [|discriminate].
  intros [= <-]. apply reference_json_round_trips.
  - apply json_plain_dict. split.
    + apply (bool_decide_unpack _). vm_compute. reflexivity.
    + repeat constructor; cbn [snd]; try assumption.
      apply json_plain_list.
      eapply map_result_Forall; [apply result_metadata_plain|exact Hres|exact Hmd].
  - apply text_valid_dict.
    repeat constructor; cbn [snd]; try assumption.
    apply text_valid_list.
    eapply map_result_Forall; [apply result_metadata_text|exact Tres|exact Hmd].
Qed.

(** * Further properties of the code *)

(** ** The resume check *)

(** Validation for any count: [range], or [list(range)] when there is no
    unit directory, decides whether it runs. *)
Lemma validate_line_segments_range {P : Platform} dir v w :
  validate_line_segments dir v w
  = if decide (path_exists (w_fs w) dir) then
      match py_range v with
      | Ok indices =>
          let missing := filter (λ i, unit_missing (w_fs w) dir i) indices in
          (Ok (bool_decide (missing = []), missing), w)
      | Raise e => (Raise e, w)
      end
    else
      match py_list_range v with
      | Ok indices => (Ok (false, indices), w)
      | Raise e => (Raise e, w)
      end.
Proof.
  unfold validate_line_segments.
  rewrite bind_run. unfold os_path_exists at 1. fold (path_exists (w_fs w) dir).
  destruct (decide (path_exists (w_fs w) dir)) as [He|He].
  - rewrite bool_decide_eq_true_2 by exact He. cbn [negb].
    rewrite bind_run. unfold lift_result at 1.
    destruct (py_range v) as [indices|e]; [|reflexivity].
    rewrite bind_run, scan_line_segments_run, ret_run. cbn [app].
    cbv zeta. do 3 f_equal. apply bool_decide_ext.
    destruct (filter _ indices); simpl; split; congruence.
  - rewrite bool_decide_eq_false_2 by exact He. cbn [negb].
    rewrite bind_run. unfold lift_result at 1.
    destruct (py_list_range v) as [indices|e]; reflexivity.
Qed.

Lemma py_range_not_integer v : is_integer v = false → py_range v = Raise TypeError.
Proof. destruct v; try discriminate; reflexivity. Qed.

Lemma py_list_range_not_integer {P : Platform} v :
  is_integer v = false → py_list_range v = Raise TypeError.
Proof. destruct v; try discriminate; reflexivity. Qed.

Section ResumingMore.
Context {J : JsonModule} {P : Platform}.

Lemma load_recovery_checkpoint_only_prints dir w r w' :
  load_recovery_checkpoint dir w = (r, w') →
  ∃ out, w' = with_fs_out (w_fs w) out w ∧ (length out <= 1)%nat.
Proof.
  assert (∃ out, w = with_fs_out (w_fs w) out w ∧ (length out <= 1)%nat)
    as Hsame.
  { exists []. split; [symmetry; apply with_fs_out_nil|simpl; lia]. }
  assert (∀ p, ∃ out, printing p w = with_fs_out (w_fs w) out w
                      ∧ (length out <= 1)%nat) as Hprint.
  { intros p. exists [p]. split; [reflexivity|simpl; lia]. }
  destruct (w_fs w !! checkpoint_path dir) as [[data pin|size]|] eqn:E.
  - rewrite (load_recovery_checkpoint_file _ _ _ _ E).
    destruct (utf8_valid data);
      [destruct (json_loads data) as [v|e];
       [|destruct (is_JSONDecodeError e || is_OSError e)]|];
      intros [= <- <-]; auto.
  - rewrite (load_recovery_checkpoint_directory _ _ _ E).
    intros [= <- <-]. auto.
  - rewrite (load_recovery_checkpoint_absent _ _ E).
    intros [= <- <-]. auto.
Qed.

(** What [can_resume_from_assembly] does after the checkpoint is loaded. *)
Lemma can_resume_from_assembly_loaded dir udir w cp w' :
  load_recovery_checkpoint dir w = (Ok cp, w') →
  can_resume_from_assembly dir udir w
  = if py_truthy cp then
      match py_get cp "total_lines" (PInt 0) with
      | Raise e => (Raise e, w')
      | Ok expected_lines =>
          match validate_line_segments udir expected_lines w' with
          | (Ok (true, _), w'') =>
              (Ok (true, cp), printing (AllSegmentsFound expected_lines) w'')
          | (Ok (false, missing), w'') =>
              (Ok (false, PNone),
               printing (CannotResume (length missing) expected_lines) w'')
          | (Raise e, w'') => (Raise e, w'')
          end
      end
    else (Ok (false, PNone), w').
Proof.
  intros Hload. unfold can_resume_from_assembly. rewrite bind_run, Hload.
  destruct (py_truthy cp); [|reflexivity]. cbn [negb].
  rewrite bind_run. unfold lift_result at 1.
  destruct (py_get cp "total_lines" (PInt 0)) as [n|e]; [|reflexivity].
  rewrite bind_run.
  destruct (validate_line_segments udir n w') as [[[[] missing]|e] w''];
    reflexivity.
Qed.

(** A checkpoint whose [total_lines] is not an integer (a string, a float,
    [null], a list, an object) makes [can_resume_from_assembly] raise
    [TypeError]: the value goes to [range] as it is. *)
Theorem can_resume_from_assembly_total_lines_not_integer dir udir w kvs v w' :
  load_recovery_checkpoint dir w = (Ok (PDict kvs), w') →
  assoc "total_lines" kvs = Some v →
  is_integer v = false →
  can_resume_from_assembly dir udir w = (Raise TypeError, w').
Proof.
  intros Hload Hv Hint.
  rewrite (can_resume_from_assembly_loaded _ _ _ _ _ Hload).
  destruct kvs as [|kv kvs']; [discriminate|]. cbn [py_truthy py_get].
  rewrite Hv. change (default (PInt 0) (Some v)) with v.
  rewrite validate_line_segments_range, (py_range_not_integer v Hint),
    (py_list_range_not_integer v Hint).
  destruct (decide (path_exists (w_fs w') udir)); reflexivity.
Qed.

Lemma can_resume_from_assembly_effects dir udir w r w' :
  can_resume_from_assembly dir udir w = (r, w') →
  w_fs w' = w_fs w ∧ w_yielded w' = w_yielded w ∧ w_calls w' = w_calls w
  ∧ ∃ out, w_stdout w' = w_stdout w ++ out ∧ (length out <= 2)%nat.
Proof.
  intros Hrun.
  destruct (load_recovery_checkpoint dir w) as [[cp|e] w0] eqn:Hload.
  2: { rewrite (can_resume_from_assembly_raise _ _ _ _ _ Hload) in Hrun.
       injection Hrun as <- <-.
       destruct (load_recovery_checkpoint_only_prints _ _ _ _ Hload)
         as (out & -> & Hlen).
       repeat split. exists out. split; [reflexivity|lia]. }
  destruct (load_recovery_checkpoint_only_prints _ _ _ _ Hload)
    as (out & Hw0 & Hlen).
  assert (∀ p, w' = printing p w0 ∨ w' = w0 →
               w_fs w' = w_fs w ∧ w_yielded w' = w_yielded w
               ∧ w_calls w' = w_calls w
               ∧ ∃ out, w_stdout w' = w_stdout w ++ out
                        ∧ (length out <= 2)%nat) as Hdone.
  { intros p [-> | ->]; rewrite Hw0; repeat split.
    - exists (out ++ [p]). cbn. rewrite app_assoc, length_app. simpl.
      split; [reflexivity|lia].
    - exists out. split; [reflexivity|lia]. }
  rewrite (can_resume_from_assembly_loaded _ _ _ _ _ Hload) in Hrun.
  destruct (py_truthy cp);
    [|injection Hrun as <- <-; apply (Hdone (WarnCheckpointLoad TypeError));
      right; reflexivity].
  destruct (py_get cp "total_lines" (PInt 0)) as [n|e];
    [|injection Hrun as <- <-; apply (Hdone (WarnCheckpointLoad TypeError));
      right; reflexivity].
  rewrite validate_line_segments_range in Hrun.
  destruct (decide (path_exists (w_fs w0) udir)).
  - destruct (py_range n) as [indices|e];
      [|injection Hrun as <- <-; apply (Hdone (WarnCheckpointLoad TypeError));
        right; reflexivity].
    cbv zeta in Hrun. destruct (bool_decide _);
      injection Hrun as <- <-; eapply Hdone; left; reflexivity.
  - destruct (py_list_range n) as [indices|e];
      [|injection Hrun as <- <-; apply (Hdone (WarnCheckpointLoad TypeError));
        right; reflexivity].
    injection Hrun as <- <-; eapply Hdone; left; reflexivity.
Qed.

(** The check only reads and prints: whatever [can_resume_from_assembly]
    returns or raises, the files, the yielded messages and the recorded
    media calls are as before, and at most two lines have been printed. *)
Theorem can_resume_from_assembly_only_prints dir udir w r w' :
  can_resume_from_assembly dir udir w = (r, w') →
  w_fs w' = w_fs w ∧ w_yielded w' = w_yielded w ∧ w_calls w' = w_calls w
  ∧ ∃ out, w_stdout w' = w_stdout w ++ out ∧ (length out <= 2)%nat.
Proof. apply can_resume_from_assembly_effects. Qed.

End ResumingMore.

(** *** Paths below the working directory *)

Lemma has_slash_startswith x : has_slash x = false → startswith_slash x = false.
Proof.
  destruct x as [|c x]; [reflexivity|]. unfold has_slash, has_char. cbn.
  intros [Hc _]%orb_false_iff. exact Hc.
Qed.

(** A relative path joined to [dir] is a fixed prefix followed by the
    path, and the prefix ends a component. *)
Lemma os_path_join_prefix dir :
  ∃ prefix comps,
    (∀ x, startswith_slash x = false → os_path_join dir x = prefix +:+ x)
    ∧ (∀ x, py_split "/" (prefix +:+ x) = comps ++ py_split "/" x)
    ∧ (∀ x, x ≠ "" → endswith_slash x = false →
            String.eqb (prefix +:+ x) "" = false
            ∧ endswith_slash (prefix +:+ x) = false).
Proof.
  assert (∀ a x, x ≠ "" → endswith_slash x = false →
                 String.eqb (a +:+ x) "" = false
                 ∧ endswith_slash (a +:+ x) = false) as Hend.
  { intros a x Hx Hs. induction a as [|c a [IH1 IH2]].
    - split; [apply String.eqb_neq, Hx|exact Hs].
    - rewrite append_cons. split; [reflexivity|].
      cbn [endswith_slash]. destruct (a +:+ x); [discriminate|exact IH2]. }
  destruct (String.eqb_spec dir "") as [->|Hne].
  - exists "", []. split; [|split; [reflexivity|apply Hend]].
    intros x Hx. unfold os_path_join. rewrite Hx. reflexivity.
  - destruct (endswith_slash dir) eqn:Hslash.
    + destruct (endswith_slash_inv dir Hslash) as [d' ->].
      exists (d' +:+ "/"), (py_split "/" d').
      split; [|split; [|apply Hend]].
      * intros x Hx. unfold os_path_join. rewrite Hx, Hslash, orb_true_r.
        reflexivity.
      * intros x. rewrite append_assoc.
        change ("/" +:+ x) with (String "/" x). apply py_split_app.
    + exists (dir +:+ "/"), (py_split "/" dir).
      split; [|split; [|apply Hend]].
      * intros x Hx. unfold os_path_join. rewrite Hx, Hslash.
        rewrite (proj2 (String.eqb_neq dir "") Hne). cbn [orb].
        symmetry. apply append_assoc.
      * intros x. rewrite append_assoc.
        change ("/" +:+ x) with (String "/" x). apply py_split_app.
Qed.

Lemma endswith_slash_no_slash x : has_slash x = false → endswith_slash x = false.
Proof.
  unfold has_slash, has_char. induction x as [|c x IH]; [reflexivity|].
  cbn. intros [Hc Hx]%orb_false_iff. destruct x; [exact Hc|apply IH, Hx].
Qed.

(** An entry of a subdirectory, as the code spells it with two joins, is
    the working directory joined with the relative path. *)
Lemma os_path_join_nested dir sub name :
  sub ≠ "" → has_slash sub = false → startswith_slash name = false →
  os_path_join (os_path_join dir sub) name
  = os_path_join dir (sub +:+ "/" +:+ name).
Proof.
  intros Hne Hsub Hname.
  destruct (os_path_join_prefix dir) as (p & cs & Hjoin & _ & Hend).
  rewrite (Hjoin sub (has_slash_startswith _ Hsub)).
  destruct (Hend sub Hne (endswith_slash_no_slash _ Hsub)) as [H1 H2].
  unfold os_path_join at 1. rewrite Hname, H1, H2. cbn [orb].
  rewrite Hjoin.
  - rewrite !append_assoc. reflexivity.
  - destruct sub as [|c sub]; [congruence|].
    apply (has_slash_startswith _ Hsub).
Qed.

Lemma components_match_length pats names :
  components_match pats names = true → length pats = length names.
Proof.
  revert names. induction pats as [|p pats IH]; intros [|n names]; cbn;
    try discriminate; [reflexivity|].
  intros [_ H]%andb_true_iff. f_equal. apply IH, H.
Qed.

Lemma components_match_app_inv comps a b :
  components_match (comps ++ a) (comps ++ b) = true →
  components_match a b = true.
Proof.
  induction comps as [|c comps IH]; cbn; [auto|].
  intros [_ H]%andb_true_iff. apply IH, H.
Qed.

Lemma has_slash_split x :
  has_slash x = true → (2 <= length (py_split "/" x))%nat.
Proof.
  unfold has_slash, has_char. induction x as [|c x IH]; cbn; [discriminate|].
  pose proof (py_split_nonempty "/" x) as Hne.
  destruct (Ascii.eqb c "/") eqn:Hc.
  - intros _. destruct (py_split "/" x); [congruence|]. cbn. lia.
  - cbn [orb]. intros Hx%IH.
    destruct (py_split "/" x) as [|y [|z l]]; cbn in *; lia.
Qed.

(** What the cleaner goes after is a direct entry of the working
    directory: a relative path with a slash in it is not stale when the
    listed names have none. *)
Lemma stale_below_subdirectory dir files x :
  Forall (λ f, has_slash f = false) files →
  startswith_slash x = false → has_slash x = true →
  stale dir files (os_path_join dir x) = false.
Proof.
  intros Hfiles Hrel Hslash.
  destruct (os_path_join_prefix dir) as (p & cs & Hjoin & Hsplit & _).
  pose proof (has_slash_split x Hslash) as Hlen.
  unfold stale. apply orb_false_iff. split.
  - apply bool_decide_eq_false_2. intros (f & Heq & Hf)%list_elem_of_fmap.
    rewrite Forall_forall in Hfiles. specialize (Hfiles f Hf).
    apply (f_equal (py_split "/")) in Heq.
    rewrite (Hjoin x Hrel), (Hjoin f (has_slash_startswith _ Hfiles)) in Heq.
    rewrite !Hsplit, (py_split_no_slash f Hfiles) in Heq.
    apply app_inv_head in Heq. rewrite Heq in Hlen. cbn in Hlen. lia.
  - apply not_true_iff_false. intros (pat & Hpat & Hm)%existsb_exists.
    unfold temp_patterns in Hpat. unfold glob_match in Hm.
    rewrite (Hjoin x Hrel), Hsplit in Hm.
    assert (∃ name, pat = os_path_join dir name ∧ has_slash name = false)
      as (name & -> & Hname).
    { destruct Hpat as [<-|[<-|[<-|[]]]]; eexists; split;
        reflexivity. }
    rewrite (Hjoin name (has_slash_startswith _ Hname)), Hsplit in Hm.
    rewrite (py_split_no_slash name Hname) in Hm.
    apply components_match_app_inv, components_match_length in Hm.
    cbn in Hm. lia.
Qed.

(** A direct entry of the working directory that is not listed and whose
    name matches no transient pattern is not stale. *)
Lemma stale_other_name dir files name :
  Forall (λ f, has_slash f = false) files →
  has_slash name = false → name ∉ files →
  Forall (λ pattern, fnmatch name pattern = false) temp_name_patterns →
  stale dir files (os_path_join dir name) = false.
Proof.
  intros Hfiles Hname Hnot Hpats.
  destruct (os_path_join_prefix dir) as (p & cs & Hjoin & Hsplit & _).
  unfold stale. apply orb_false_iff. split.
  - apply bool_decide_eq_false_2. intros (f & Heq & Hf)%list_elem_of_fmap.
    rewrite Forall_forall in Hfiles. specialize (Hfiles f Hf).
    apply (f_equal (py_split "/")) in Heq.
    rewrite (Hjoin name (has_slash_startswith _ Hname)),
      (Hjoin f (has_slash_startswith _ Hfiles)) in Heq.
    rewrite !Hsplit, (py_split_no_slash f Hfiles),
      (py_split_no_slash name Hname) in Heq.
    apply app_inv_head in Heq. injection Heq as ->. contradiction.
  - apply not_true_iff_false. intros (pat & Hpat & Hm)%existsb_exists.
    unfold temp_patterns in Hpat. unfold glob_match in Hm.
    rewrite (Hjoin name (has_slash_startswith _ Hname)), Hsplit in Hm.
    rewrite (py_split_no_slash name Hname) in Hm.
    assert (∃ pattern, pat = os_path_join dir pattern
                       ∧ has_slash pattern = false
                       ∧ has_magic pattern = true
                       ∧ fnmatch name pattern = false)
      as (pattern & -> & Hps & Hmagic & Hno).
    { unfold temp_name_patterns in Hpats.
      apply Forall_cons in Hpats as [H1 Hpats].
      apply Forall_cons in Hpats as [H2 Hpats].
      apply Forall_cons in Hpats as [H3 _].
      destruct Hpat as [<-|[<-|[<-|[]]]]; eexists;
        (split; [reflexivity|]); (split; [reflexivity|]);
        (split; [reflexivity|]); assumption. }
    rewrite (Hjoin pattern (has_slash_startswith _ Hps)), Hsplit in Hm.
    rewrite (py_split_no_slash pattern Hps) in Hm.
    apply components_match_app_inv in Hm. cbn in Hm.
    unfold component_match in Hm. rewrite Hmagic, Hno in Hm.
    rewrite !andb_false_r in Hm. discriminate.
Qed.

Lemma cleaned_not_stale dir files fs q :
  stale dir files q = false → cleaned dir files fs !! q = fs !! q.
Proof.
  intros Hs. rewrite cleaned_lookup, Hs. destruct (fs !! q); reflexivity.
Qed.

(** The cleaner leaves alone what is not a partial result: a directory,
    whatever its name; everything below a subdirectory of the working
    directory (the unit files); and every direct entry that is not listed
    and matches no transient pattern (the checkpoint).  The listed names
    are file names, without a slash. *)
Theorem cleanup_partial_chapters_keeps dir files w w1 :
  Forall (λ f, has_slash f = false) files →
  cleanup_partial_chapters dir files w = (Ok (), w1) →
  (∀ q size, w_fs w !! q = Some (Dir size) → w_fs w1 !! q = Some (Dir size))
  ∧ (∀ x, startswith_slash x = false → has_slash x = true →
          w_fs w1 !! os_path_join dir x = w_fs w !! os_path_join dir x)
  ∧ (∀ name,
       has_slash name = false → name ∉ files →
       Forall (λ pattern, fnmatch name pattern = false) temp_name_patterns →
       w_fs w1 !! os_path_join dir name = w_fs w !! os_path_join dir name).
Proof.
  intros Hfiles Hrun.
  destruct (cleanup_partial_chapters_run dir files w) as [out Hout].
  rewrite Hout in Hrun. injection Hrun as <-. cbn [w_fs with_fs_out].
  split; [|split].
  - intros q size Hq. rewrite cleaned_lookup, Hq. cbn [is_deletable].
    rewrite andb_false_r. reflexivity.
  - intros x Hrel Hslash. apply cleaned_not_stale.
    apply stale_below_subdirectory; assumption.
  - intros name Hname Hnot Hpats. apply cleaned_not_stale.
    apply stale_other_name; assumption.
Qed.

Section ResumingFrame.
Context {J : JsonModule} {P : Platform}.

Lemma unit_missing_ext fs1 fs2 dir i :
  fs1 !! unit_path dir i = fs2 !! unit_path dir i →
  unit_missing fs1 dir i ↔ unit_missing fs2 dir i.
Proof. unfold unit_missing. intros ->. reflexivity. Qed.

(** The answer of [can_resume_from_assembly] depends on the checkpoint
    file, on the unit directory and on the unit files only. *)
Lemma can_resume_from_assembly_frame dir udir w1 w2 :
  w_fs w1 !! checkpoint_path dir = w_fs w2 !! checkpoint_path dir →
  w_fs w1 !! udir = w_fs w2 !! udir →
  (∀ i, w_fs w1 !! unit_path udir i = w_fs w2 !! unit_path udir i) →
  (can_resume_from_assembly dir udir w1).1
  = (can_resume_from_assembly dir udir w2).1.
Proof.
  intros Hcp Hudir Hunits.
  assert (∃ r w1' w2',
            load_recovery_checkpoint dir w1 = (r, w1')
            ∧ load_recovery_checkpoint dir w2 = (r, w2')
            ∧ w_fs w1' = w_fs w1 ∧ w_fs w2' = w_fs w2)
    as (r & w1' & w2' & Hl1 & Hl2 & Hfs1 & Hfs2).
  { destruct (w_fs w2 !! checkpoint_path dir) as [[data pin|size]|] eqn:E2.
    - rewrite (load_recovery_checkpoint_file _ _ _ _ Hcp),
        (load_recovery_checkpoint_file _ _ _ _ E2).
      destruct (utf8_valid data);
        [destruct (json_loads data) as [v|e];
         [|destruct (is_JSONDecodeError e || is_OSError e)]|];
        eexists _, _, _; repeat split.
    - rewrite (load_recovery_checkpoint_directory _ _ _ Hcp),
        (load_recovery_checkpoint_directory _ _ _ E2).
      eexists _, _, _; repeat split.
    - rewrite (load_recovery_checkpoint_absent _ _ Hcp),
        (load_recovery_checkpoint_absent _ _ E2).
      eexists _, _, _; repeat split. }
  destruct r as [cp|e].
  2: { rewrite (can_resume_from_assembly_raise _ _ _ _ _ Hl1),
         (can_resume_from_assembly_raise _ _ _ _ _ Hl2). reflexivity. }
  rewrite (can_resume_from_assembly_loaded _ _ _ _ _ Hl1),
    (can_resume_from_assembly_loaded _ _ _ _ _ Hl2).
  destruct (py_truthy cp); [|reflexivity].
  destruct (py_get cp "total_lines" (PInt 0)) as [n|e]; [|reflexivity].
  rewrite !validate_line_segments_range.
  rewrite Hfs1, Hfs2. unfold path_exists. rewrite Hudir.
  destruct (decide (is_Some (w_fs w2 !! udir))) as [He|He].
  - destruct (py_range n) as [indices|e]; [|reflexivity]. cbv zeta.
    assert (filter (λ i, unit_missing (w_fs w1) udir i) indices
            = filter (λ i, unit_missing (w_fs w2) udir i) indices) as ->.
    { apply list_filter_iff. intros i. apply unit_missing_ext, Hunits. }
    destruct (bool_decide _); reflexivity.
  - destruct (py_list_range n) as [indices|e]; reflexivity.
Qed.

(** Cleaning does not change the answer of the resume check: after
    [cleanup_partial_chapters] on chapter file names (no slash, neither the
    checkpoint's name nor the unit directory's), [can_resume_from_assembly]
    returns or raises what it did before. *)
Theorem cleanup_partial_chapters_keeps_resumable dir files w w1 :
  Forall (λ f, has_slash f = false ∧ f ≠ "recovery_checkpoint.json"
               ∧ f ≠ "line_segments") files →
  cleanup_partial_chapters dir files w = (Ok (), w1) →
  (can_resume_from_assembly dir (os_path_join dir "line_segments") w1).1
  = (can_resume_from_assembly dir (os_path_join dir "line_segments") w).1.
Proof.
  intros Hfiles Hrun.
  assert (Forall (λ f, has_slash f = false) files) as Hslash.
  { eapply Forall_impl; [exact Hfiles|]. intros f [H _]. exact H. }
  destruct (cleanup_partial_chapters_keeps dir files w w1 Hslash Hrun)
    as (_ & Hbelow & Hother).
  apply can_resume_from_assembly_frame.
  - apply Hother; [reflexivity| |repeat constructor].
    intros Hin. rewrite Forall_forall in Hfiles.
    destruct (Hfiles _ Hin) as (_ & Hne & _). congruence.
  - apply Hother; [reflexivity| |repeat constructor].
    intros Hin. rewrite Forall_forall in Hfiles.
    destruct (Hfiles _ Hin) as (_ & _ & Hne). congruence.
  - intros i. unfold unit_path.
    rewrite os_path_join_nested by (reflexivity || discriminate).
    apply Hbelow; reflexivity.
Qed.

End ResumingFrame.

(** ** Writing the checkpoint *)

Lemma first_missing_field_None kvs :
  first_missing_field kvs = None →
  ∃ md, result_metadata (PDict kvs) = Ok md.
Proof.
  unfold first_missing_field, result_metadata. cbn [List.find py_getitem].
  destruct (assoc "index" kvs) as [i|];
    [rewrite bool_decide_eq_true_2 by eauto|discriminate].
  destruct (assoc "line" kvs) as [l|];
    [rewrite bool_decide_eq_true_2 by eauto|discriminate].
  destruct (assoc "is_chapter_heading" kvs) as [h|];
    [rewrite bool_decide_eq_true_2 by eauto|discriminate].
  eauto.
Qed.

Lemma first_missing_field_Some kvs field :
  first_missing_field kvs = Some field →
  result_metadata (PDict kvs) = Raise (KeyError field).
Proof.
  unfold first_missing_field, result_metadata. cbn [List.find py_getitem].
  destruct (assoc "index" kvs) as [i|];
    [rewrite bool_decide_eq_true_2 by eauto
    |rewrite bool_decide_eq_false_2 by (intros [? [=]]);
     intros [= <-]; reflexivity].
  destruct (assoc "line" kvs) as [l|];
    [rewrite bool_decide_eq_true_2 by eauto
    |rewrite bool_decide_eq_false_2 by (intros [? [=]]);
     intros [= <-]; reflexivity].
  destruct (assoc "is_chapter_heading" kvs) as [h|];
    [rewrite bool_decide_eq_true_2 by eauto
    |rewrite bool_decide_eq_false_2 by (intros [? [=]]);
     intros [= <-]; reflexivity].
  discriminate.
Qed.

Lemma map_result_first_error {A B} (f : A → result B) pre x post e :
  Forall (λ a, ∃ b, f a = Ok b) pre → f x = Raise e →
  map_result f (pre ++ x :: post) = Raise e.
Proof.
  intros Hpre Hx. induction Hpre as [|a pre [b Hb] _ IH]; cbn.
  - rewrite Hx. reflexivity.
  - rewrite Hb, IH. reflexivity.
Qed.

(** A result without one of the fields [index], [line] and
    [is_chapter_heading] makes [create_recovery_checkpoint] raise
    [KeyError] for the first field that the first such result lacks, before
    the file is opened: nothing is written or printed, and a checkpoint
    that was there stays as it was. *)
Theorem create_recovery_checkpoint_incomplete_result {J : JsonModule}
    dir clm cf pre kvs post field w :
  Forall (λ r, ∃ kvs', r = PDict kvs' ∧ first_missing_field kvs' = None) pre →
  first_missing_field kvs = Some field →
  create_recovery_checkpoint dir clm cf (pre ++ PDict kvs :: post) w
  = (Raise (KeyError field), w).
Proof.
  intros Hpre Hfield. unfold create_recovery_checkpoint, checkpoint_data.
  rewrite bind_run. unfold lift_result.
  rewrite (map_result_first_error result_metadata pre (PDict kvs) post
             (KeyError field)).
  - reflexivity.
  - eapply Forall_impl; [exact Hpre|]. intros r (kvs' & -> & Hnone).
    apply first_missing_field_None, Hnone.
  - apply first_missing_field_Some, Hfield.
Qed.

(** The chunks before one that does not encode are written, and no
    more. *)
Lemma write_chunks_unencodable before chunk after failure written :
  Forall (λ c, utf8_valid c = true) before →
  utf8_valid chunk = false →
  write_chunks (before ++ chunk :: after) failure written
  = (Raise UnicodeEncodeError, written +:+ String.concat "" before).
Proof.
  intros Hbefore Hchunk. revert written.
  induction Hbefore as [|c before Hc _ IH]; intros written.
  - cbn [app write_chunks]. rewrite Hchunk, append_nil_r. reflexivity.
  - cbn [app write_chunks]. rewrite Hc, IH, concat_join_cons, append_assoc.
    reflexivity.
Qed.

(** A checkpoint with text that does not encode as UTF-8 (a lone surrogate
    in a title) is not written: [create_recovery_checkpoint] raises
    [UnicodeEncodeError] from inside [json.dump], prints nothing, and
    leaves a truncated file, holding the chunks of the encoder that come
    before the one that does not encode.  The checkpoint that was there
    before is lost: the file was emptied when it was opened. *)
Theorem create_recovery_checkpoint_unencodable {J : JsonModule} dir clm cf
    results w cp before chunk after failure old pin :
  checkpoint_data clm cf results = Ok cp →
  json_iterencode cp = (before ++ chunk :: after, failure) →
  Forall (λ c, utf8_valid c = true) before →
  utf8_valid chunk = false →
  w_fs w !! checkpoint_path dir = Some (File old pin) →
  create_recovery_checkpoint dir clm cf results w
  = (Raise UnicodeEncodeError,
     set_fs (<[checkpoint_path dir := File (String.concat "" before) pin]>
               (w_fs w)) w).
Proof.
  intros Hcp Hchunks Hbefore Hchunk Hfile.
  unfold create_recovery_checkpoint. rewrite bind_run.
  unfold lift_result at 1. rewrite Hcp.
  rewrite bind_run. fold (checkpoint_path dir).
  unfold json_dump. rewrite Hchunks.
  rewrite (write_chunks_unencodable _ _ _ _ _ Hbefore Hchunk).
  unfold open_write. rewrite Hfile. reflexivity.
Qed.

(** ** The whole pipeline *)

Section PipelineRun.
Context {U : AudiobookUtils}.
Variables (chapter_line_map : pyval) (temp_audio_dir temp_line_audio_dir : string).

Lemma run_schedule_total steps w :
  (∀ c fs, ∃ fs', run_media c fs = (Ok (), fs')) →
  Forall (λ s, ∀ e, s ≠ Fail e) steps →
  ∃ w1, run_schedule steps w = (Ok (), w1).
Proof.
  intros Hmedia Hsteps. revert w.
  induction Hsteps as [|s steps Hs _ IH]; intros w.
  - eexists. reflexivity.
  - rewrite run_schedule_cons. destruct s as [c|msg|e].
    + cbn [run_step]. unfold external.
      destruct (Hmedia c (w_fs w)) as [fs' ->]. apply IH.
    + cbn [run_step yield]. apply IH.
    + exfalso. eapply Hs. reflexivity.
Qed.

Lemma assembling_steps_mapped files :
  Forall (λ f, ∃ lines, py_getitem chapter_line_map f = Ok lines) files →
  Forall (λ s, ∀ e, s ≠ Fail e)
    (assembling_steps chapter_line_map temp_audio_dir temp_line_audio_dir files)
  ∧ emits (assembling_steps chapter_line_map temp_audio_dir
             temp_line_audio_dir files)
    = map assembled files
  ∧ length (calls (assembling_steps chapter_line_map temp_audio_dir
                     temp_line_audio_dir files))
    = length files.
Proof.
  induction 1 as [|f files [lines Hf] _ (IH1 & IH2 & IH3)].
  - repeat split. constructor.
  - cbn [assembling_steps flat_map]. rewrite Hf. cbn [app].
    split; [|split].
    + repeat (constructor; [discriminate|]). exact IH1.
    + cbn. f_equal. exact IH2.
    + cbn. f_equal. exact IH3.
Qed.

Lemma flat_map_no_fail {A} (steps_of : A → list step) xs :
  (∀ x, Forall (λ s, ∀ e, s ≠ Fail e) (steps_of x)) →
  Forall (λ s, ∀ e, s ≠ Fail e) (flat_map steps_of xs).
Proof.
  intros Hx. induction xs as [|x xs IH]; cbn; [constructor|].
  apply Forall_app. split; [apply Hx|exact IH].
Qed.

Lemma calls_app a b : calls (a ++ b) = calls a ++ calls b.
Proof. unfold calls. rewrite !flat_map_concat_map, map_app, concat_app. reflexivity. Qed.

Lemma calls_pairs (call_of : string → media_call) (msg_of : string → string)
    files :
  calls (flat_map (λ f, [Media (call_of f); Emit (msg_of f)]) files)
  = map call_of files.
Proof.
  induction files as [|f files IH]; [reflexivity|]. cbn. f_equal. exact IH.
Qed.

Lemma assembly_and_post_processing_phase_total files output_format narrator_gender
    generate book_path add_emotion_tags w :
  (∀ c fs, ∃ fs', run_media c fs = (Ok (), fs')) →
  Forall (λ f, ∃ lines, py_getitem chapter_line_map f = Ok lines) files →
  ∃ w1,
    assembly_and_post_processing_phase files chapter_line_map temp_audio_dir
      temp_line_audio_dir output_format narrator_gender generate book_path
      add_emotion_tags w = (Ok (), w1)
    ∧ w_stdout w1 = w_stdout w
    ∧ w_yielded w1 = w_yielded w ++ events_of_run files generate
    ∧ ∃ made,
        w_calls w1 = w_calls w ++ made
        ∧ length made
          = (3 * length files + if generate then 1 else 0)%nat
        ∧ (generate = true →
           last made = Some (GenerateM4b (map m4a_name files) temp_audio_dir
                               book_path narrator_gender)).
Proof.
  intros Hmedia Hmapped.
  destruct (assembling_steps_mapped files Hmapped) as (Hnf & Hev & Hlen).
  rewrite assembly_and_post_processing_phase_schedule.
  set (sched := schedule _ _ _ _ _ _ _).
  assert (Forall (λ s, ∀ e, s ≠ Fail e) sched) as Hsched.
  { unfold sched, schedule. repeat (apply Forall_app; split).
    - exact Hnf.
    - repeat constructor; discriminate.
    - apply flat_map_no_fail. intros f. repeat constructor; discriminate.
    - apply flat_map_no_fail. intros f. repeat constructor; discriminate.
    - repeat constructor; discriminate.
    - unfold final_merging_steps. destruct generate;
        repeat constructor; discriminate.
    - repeat constructor; discriminate. }
  destruct (run_schedule_total sched w Hmedia Hsched) as [w1 Hrun].
  exists w1. split; [exact Hrun|].
  destruct (run_schedule_ok _ _ _ Hrun) as (Hout & Hy & Hc).
  split; [exact Hout|]. split.
  - rewrite Hy. f_equal. unfold sched, schedule, events_of_run.
    rewrite !emits_app, Hev, emits_post_processing, emits_converting.
    destruct generate; reflexivity.
  - exists (calls sched). split; [exact Hc|].
    unfold sched, schedule. rewrite !calls_app.
    unfold post_processing_steps, converting_steps. rewrite !calls_pairs.
    split.
    + rewrite !length_app, Hlen, !length_map.
      destruct generate; cbn; lia.
    + intros ->. cbn [final_merging_steps calls flat_map app].
      rewrite !app_assoc. apply last_snoc.
Qed.

(** When every chapter file has its entry in the chapter map and no media
    call fails, the pipeline runs to its end: it yields the progress
    messages of all chapters, state by state, and makes three media calls
    per chapter, and one more for the M4B file if that is asked for; it
    prints nothing itself. *)
Theorem pipeline_runs_to_completion files output_format narrator_gender
    generate book_path add_emotion_tags w :
  (∀ c fs, ∃ fs', run_media c fs = (Ok (), fs')) →
  Forall (λ f, ∃ lines, py_getitem chapter_line_map f = Ok lines) files →
  ∃ w1,
    assembly_and_post_processing_phase files chapter_line_map temp_audio_dir
      temp_line_audio_dir output_format narrator_gender generate book_path
      add_emotion_tags w = (Ok (), w1)
    ∧ w_stdout w1 = w_stdout w
    ∧ w_yielded w1 = w_yielded w ++ events_of_run files generate
    ∧ ∃ made,
        w_calls w1 = w_calls w ++ made
        ∧ length made
          = (3 * length files + if generate then 1 else 0)%nat
        ∧ (generate = true →
           last made = Some (GenerateM4b (map m4a_name files) temp_audio_dir
                               book_path narrator_gender)).
Proof. apply assembly_and_post_processing_phase_total. Qed.

(** A chapter file without an entry in the chapter map ends the pipeline
    with the exception of the look-up ([KeyError] for a dictionary), before
    the media interface is called for it: the chapters before it have been
    assembled and announced, nothing else has happened. *)
Theorem pipeline_stops_at_unmapped_chapter files done g rest e output_format
    narrator_gender generate book_path add_emotion_tags w w1 :
  files = done ++ g :: rest →
  py_getitem chapter_line_map g = Raise e →
  run_schedule
    (assembling_steps chapter_line_map temp_audio_dir temp_line_audio_dir done)
    w = (Ok (), w1) →
  assembly_and_post_processing_phase files chapter_line_map temp_audio_dir
    temp_line_audio_dir output_format narrator_gender generate book_path
    add_emotion_tags w = (Raise e, w1)
  ∧ w_yielded w1 = w_yielded w ++ map assembled done
  ∧ ∃ made, w_calls w1 = w_calls w ++ made ∧ length made = length done.
Proof.
  intros -> Hg Hdone. rewrite assembly_and_post_processing_phase_schedule.
  unfold schedule, assembling_steps at 1. rewrite flat_map_app.
  cbn [flat_map]. rewrite Hg. fold (assembling_steps chapter_line_map
    temp_audio_dir temp_line_audio_dir done).
  rewrite <- !app_assoc, run_schedule_app, Hdone. cbn [app].
  rewrite run_schedule_cons. cbn [run_step]. split; [reflexivity|].
  destruct (run_schedule_ok _ _ _ Hdone) as (_ & Hy & Hc).
  rewrite (emits_assembling _ _ _ _ _ _ Hdone) in Hy. split; [exact Hy|].
  eexists. split; [exact Hc|].
  clear -Hdone. revert w Hdone. induction done as [|f done IH]; intros w;
    [reflexivity|].
  cbn [assembling_steps flat_map].
  destruct (py_getitem chapter_line_map f) as [lines|e'].
  - cbn [app]. rewrite !run_schedule_cons. cbn [run_step].
    destruct (external _ w) as [[[]|e'] w2]; [|discriminate].
    intros Hrest%IH. cbn. f_equal. exact Hrest.
  - discriminate.
Qed.

End PipelineRun.

(** ** Resuming from a checkpoint *)




Lemma remove_partial_chapter_run dir f w :
  ∃ out,
    remove_partial_chapter dir f w
    = (Ok (), with_fs_out (unlink (os_path_join dir f) (w_fs w)).2 out w).
Proof.
  unfold remove_partial_chapter. rewrite bind_run.
  unfold os_path_exists, unlink.
  destruct (w_fs w !! os_path_join dir f) as [[d [|]|sz]|] eqn:E.
  - rewrite bool_decide_eq_true_2 by eauto.
    exists [WarnCouldNotRemove f PermissionError].
    unfold try_except. rewrite bind_run. unfold os_remove, unlink.
    rewrite E. cbn. rewrite set_fs_same. reflexivity.
  - rewrite bool_decide_eq_true_2 by eauto.
    exists [RemovedPartial f].
    unfold try_except. rewrite bind_run. unfold os_remove, unlink.
    rewrite E. reflexivity.
  - rewrite bool_decide_eq_true_2 by eauto.
    exists [WarnCouldNotRemove f IsADirectoryError].
    unfold try_except. rewrite bind_run. unfold os_remove, unlink.
    rewrite E. cbn. rewrite set_fs_same. reflexivity.
  - rewrite bool_decide_eq_false_2 by (intros [? [=]]).
    exists []. cbn [snd]. rewrite with_fs_out_nil. reflexivity.
Qed.





Section ResumePhase.
Context {J : JsonModule} {P : Platform}.



(** A checkpoint without ["chapter_files"] or without
    ["chapter_line_map"] makes [resume_from_assembly_phase] raise the
    [KeyError] of the look-up before anything is removed or printed. *)
Theorem resume_from_assembly_phase_missing_field dir udir cp e w :
  py_getitem cp "chapter_files" = Raise e
  ∨ ((∃ cf, py_getitem cp "chapter_files" = Ok cf)
     ∧ py_getitem cp "chapter_line_map" = Raise e) →
  resume_from_assembly_phase dir udir cp w = (Raise e, w).
Proof.
  unfold resume_from_assembly_phase. rewrite bind_run. unfold lift_result at 1.
  intros [-> | [[cf ->] Hclm]]; [reflexivity|].
  rewrite bind_run. unfold lift_result at 1. rewrite Hclm. reflexivity.
Qed.


End ResumePhase.

(** ** The generator with recovery *)

Section RecoveryGenerator.
Context {J : JsonModule} {U : AudiobookUtils} {P : Platform}.
Variable original_generator_func : string → string → bool → pyval → bool → M unit.

(** Without a checkpoint file in [temp_audio] the generator with recovery
    is the original generator: it runs on the same world, nothing having
    been printed, yielded or touched before it starts. *)
Theorem recovery_enabled_generator_without_checkpoint output_format
    narrator_gender generate book_path add_emotion_tags w :
  w_fs w !! "temp_audio/recovery_checkpoint.json" = None →
  create_recovery_enabled_generator original_generator_func output_format
    narrator_gender generate book_path add_emotion_tags w
  = original_generator_func output_format narrator_gender generate book_path
      add_emotion_tags w.
Proof.
  intros Habsent. unfold create_recovery_enabled_generator. rewrite bind_run.
  rewrite (can_resume_from_assembly_falsy "temp_audio" _ w PNone w);
    [reflexivity| |reflexivity].
  apply load_recovery_checkpoint_absent. exact Habsent.
Qed.

(** A checkpoint file whose bytes are not UTF-8 stops the generator with
    recovery before it generates anything: the [UnicodeDecodeError] of the
    loader goes through, and the original generator is not run. *)
Theorem recovery_enabled_generator_undecodable_checkpoint output_format
    narrator_gender generate book_path add_emotion_tags w data pin :
  w_fs w !! "temp_audio/recovery_checkpoint.json" = Some (File data pin) →
  utf8_valid data = false →
  create_recovery_enabled_generator original_generator_func output_format
    narrator_gender generate book_path add_emotion_tags w
  = (Raise UnicodeDecodeError, w).
Proof.
  intros Hfile Hbytes. unfold create_recovery_enabled_generator.
  rewrite bind_run.
  rewrite (can_resume_from_assembly_raise "temp_audio" _ w UnicodeDecodeError w);
    [reflexivity|].
  rewrite (load_recovery_checkpoint_file "temp_audio" w data pin Hfile), Hbytes.
  reflexivity.
Qed.

End RecoveryGenerator.

Section RecoveryMode.
Context {J : JsonModule} {U : AudiobookUtils} {P : Platform}.


End RecoveryMode.

(** ** The retry script *)

Lemma script_bind_run {A B} (m : Script A) (f : A → Script B) s :
  (m ≫= f) s = match m s with
               | (Ok a, s') => f a s'
               | (Raise e, s') => (Raise e, s')
               end.
Proof. reflexivity. Qed.

Lemma utils_run {A} (m : M A) w out r w' printed_lines :
  m w = (r, w') → w_stdout w' = w_stdout w ++ printed_lines →
  utils m (ScriptWorld w out)
  = (r, ScriptWorld w' (out ++ map UtilsLine printed_lines)).
Proof.
  intros Hm Hout. unfold utils. cbn [sw_world sw_stdout]. rewrite Hm, Hout.
  rewrite drop_app_length. reflexivity.
Qed.

Lemma utils_quiet {A} (m : M A) w out r :
  m w = (r, w) → utils m (ScriptWorld w out) = (r, ScriptWorld w out).
Proof.
  intros Hm. rewrite (utils_run m w out r w [] Hm).
  - cbn. rewrite app_nil_r. reflexivity.
  - rewrite app_nil_r. reflexivity.
Qed.




Section ScheduleEffects.
Context {U : AudiobookUtils}.


End ScheduleEffects.


Section RetryAssemblyFacts.
Context {J : JsonModule} {U : AudiobookUtils} {P : Platform}.

(** When the check says that the run cannot be resumed, [retry_assembly]
    returns the exit code 1 after its two lines of advice: no file has been
    touched and the media interface has not been called. *)
Theorem retry_assembly_not_resumable temp_dir output_format narrator_gender
    book_path generate_m4b add_emotion_tags force_cleanup w out cp w0 :
  can_resume_from_assembly temp_dir (os_path_join temp_dir "line_segments") w
  = (Ok (false, cp), w0) →
  ∃ out',
    retry_assembly temp_dir output_format narrator_gender book_path
      generate_m4b add_emotion_tags force_cleanup (ScriptWorld w out)
    = (Ok 1, ScriptWorld w0 (out ++ out'))
    ∧ last out' = Some (ScriptLine RunFullGenerationFirst)
    ∧ w_fs w0 = w_fs w ∧ w_calls w0 = w_calls w.
Proof.
  intros Hcheck.
  destruct (can_resume_from_assembly_effects _ _ _ _ _ Hcheck)
    as (Hfs & _ & Hcalls & o0 & Ho0 & _).
  unfold retry_assembly. cbv zeta.
  rewrite script_bind_run. cbn [say sw_world sw_stdout].
  rewrite script_bind_run, (utils_run _ _ _ _ _ _ Hcheck Ho0). cbn [negb].
  repeat (rewrite script_bind_run; cbn [say sw_world sw_stdout]).
  exists ([ScriptLine CheckingRecoveryData] ++ map UtilsLine o0
          ++ [ScriptLine CannotResumeMissingData]
          ++ [ScriptLine RunFullGenerationFirst]).
  split; [rewrite <- !app_assoc; reflexivity|].
  split; [|split; assumption].
  rewrite !app_assoc. apply last_snoc.
Qed.

End RetryAssemblyFacts.

Section RetryAssemblyRun.
Context {J : JsonModule} {U : AudiobookUtils} {P : Platform}.

Ltac script_step :=
  rewrite script_bind_run; cbn [say sw_world sw_stdout].


(** A checkpoint without the field [total_lines], which the check accepts
    when the unit directory exists, makes [retry_assembly] raise [KeyError]
    instead of returning an exit code; no file has been touched. *)
Theorem retry_assembly_without_total_lines temp_dir output_format
    narrator_gender book_path generate_m4b add_emotion_tags force_cleanup
    w out kvs w0 :
  can_resume_from_assembly temp_dir (os_path_join temp_dir "line_segments") w
  = (Ok (true, PDict kvs), w0) →
  assoc "total_lines" kvs = None →
  ∃ out',
    retry_assembly temp_dir output_format narrator_gender book_path
      generate_m4b add_emotion_tags force_cleanup (ScriptWorld w out)
    = (Raise (KeyError "total_lines"), ScriptWorld w0 (out ++ out'))
    ∧ w_fs w0 = w_fs w ∧ w_calls w0 = w_calls w.
Proof.
  intros Hcheck Htotal.
  destruct (can_resume_from_assembly_effects _ _ _ _ _ Hcheck)
    as (Hfs & _ & Hcalls & o0 & Ho0 & _).
  unfold retry_assembly. cbv zeta. script_step.
  rewrite script_bind_run, (utils_run _ _ _ _ _ _ Hcheck Ho0). cbn [negb].
  script_step. rewrite script_bind_run.
  rewrite (utils_quiet _ _ _ (Raise (KeyError "total_lines"))).
  2: { cbn [py_getitem lift_result]. rewrite Htotal. reflexivity. }
  exists ([ScriptLine CheckingRecoveryData] ++ map UtilsLine o0
          ++ [ScriptLine RecoveryDataFound]).
  split; [rewrite <- !app_assoc; reflexivity|]. split; assumption.
Qed.

Lemma status_messages_one p :
  (∀ msg, p ≠ StatusMessage msg) → status_messages [ScriptLine p] = [].
Proof. intros Hp. destruct p; try reflexivity. exfalso. eapply Hp. reflexivity. Qed.





End RetryAssemblyRun.

(** ** Examples *)

Section MoreExamples.
Import Examples.

Local Abbreviation unit_dir := "temp_audio/line_segments".

(** A checkpoint whose [total_lines] is the string "2". *)
Lemma can_resume_from_assembly_total_lines_not_integer_witness :
  let cp := PDict [("chapter_files", PList []); ("total_lines", PStr "2")] in
  let w := fresh_world (workdir (RefJson.dumps 0 cp) line_segments) in
  can_resume_from_assembly (J := RefJson.json) "temp_audio" unit_dir w
  = (Raise TypeError, w).
Proof.
  intros cp w.
  eapply (can_resume_from_assembly_total_lines_not_integer (J := RefJson.json)
            "temp_audio" unit_dir w _ (PStr "2") w);
    vm_compute; reflexivity.
Defined.

(** The check on the checkpoint of two chapters whose second unit file is
    missing. *)
Lemma can_resume_from_assembly_only_prints_witness :
  let w := fresh_world
             (workdir (RefJson.dumps 0 two_chapters)
                [("temp_audio/line_segments", Dir 4096);
                 ("temp_audio/line_segments/line_000000.wav", wav)]) in
  ∃ w',
    can_resume_from_assembly (J := RefJson.json) "temp_audio" unit_dir w
    = (Ok (false, PNone), w')
    ∧ w_fs w' = w_fs w ∧ w_yielded w' = w_yielded w ∧ w_calls w' = w_calls w
    ∧ ∃ out, w_stdout w' = w_stdout w ++ out ∧ (length out <= 2)%nat.
Proof.
  intros w. eexists. split; [vm_compute; reflexivity|].
  eapply (can_resume_from_assembly_only_prints (J := RefJson.json)
            "temp_audio" unit_dir w).
  vm_compute. reflexivity.
Defined.

(** A working directory with a partial chapter, a transient file, the
    checkpoint and the unit files, cleaned. *)
Lemma cleanup_partial_chapters_keeps_witness :
  let w := fresh_world
             (workdir "{}"
                (("temp_audio/ch1.wav", wav)
                 :: ("temp_audio/ch1.temp.wav", wav) :: line_segments)) in
  ∃ w1,
    cleanup_partial_chapters "temp_audio" ["ch1.wav"; "ch2.wav"] w = (Ok (), w1)
    ∧ w_fs w1 !! "temp_audio/line_segments/line_000001.wav"
      = w_fs w !! "temp_audio/line_segments/line_000001.wav"
    ∧ w_fs w1 !! "temp_audio/recovery_checkpoint.json"
      = w_fs w !! "temp_audio/recovery_checkpoint.json".
Proof.
  intros w.
  pose (w1 := (cleanup_partial_chapters "temp_audio" ["ch1.wav"; "ch2.wav"] w).2).
  assert (cleanup_partial_chapters "temp_audio" ["ch1.wav"; "ch2.wav"] w
          = (Ok (), w1)) as Hrun by (vm_compute; reflexivity).
  exists w1. split; [exact Hrun|].
  destruct (cleanup_partial_chapters_keeps "temp_audio" ["ch1.wav"; "ch2.wav"]
              w w1) as (_ & Hbelow & Hother);
    [repeat constructor | exact Hrun |].
  split.
  - exact (Hbelow "line_segments/line_000001.wav" eq_refl eq_refl).
  - apply (Hother "recovery_checkpoint.json" eq_refl).
    + intros Hin. apply list_elem_of_In in Hin. cbn in Hin.
      destruct Hin as [?|[?|[]]]; discriminate.
    + repeat constructor.
Defined.

(** The check before and after the cleaning of the same directory. *)
Lemma cleanup_partial_chapters_keeps_resumable_witness :
  let w := fresh_world
             (workdir (RefJson.dumps 0 two_chapters)
                (("temp_audio/ch1.wav", wav) :: line_segments)) in
  ∃ w1,
    cleanup_partial_chapters "temp_audio" ["ch1.wav"; "ch2.wav"] w = (Ok (), w1)
    ∧ (can_resume_from_assembly (J := RefJson.json) "temp_audio" unit_dir w1).1
      = Ok (true, two_chapters)
    ∧ (can_resume_from_assembly (J := RefJson.json) "temp_audio" unit_dir w).1
      = Ok (true, two_chapters).
Proof.
  intros w. eexists. split; [vm_compute; reflexivity|].
  split; [|vm_compute; reflexivity].
  rewrite (cleanup_partial_chapters_keeps_resumable (J := RefJson.json)
             "temp_audio" ["ch1.wav"; "ch2.wav"] w).
  - vm_compute. reflexivity.
  - repeat constructor; discriminate.
  - vm_compute. reflexivity.
Defined.

(** The second of two results has no [line]. *)
Lemma create_recovery_checkpoint_incomplete_result_witness :
  let w := fresh_world (workdir "{}" []) in
  create_recovery_checkpoint (J := RefJson.json) "temp_audio" (PDict [])
    (PList [])
    ([PDict [("index", PInt 0); ("line", PStr "Chapter 1");
             ("is_chapter_heading", PBool true)]]
     ++ PDict [("index", PInt 1); ("is_chapter_heading", PBool false)] :: [])
    w
  = (Raise (KeyError "line"), w).
Proof.
  intros w.
  apply (create_recovery_checkpoint_incomplete_result (J := RefJson.json)).
  - repeat constructor. eexists. split; reflexivity.
  - reflexivity.
Defined.

(** The only chapter file of the book has a lone surrogate in its name:
    the checkpoint in place is replaced by the first 47 bytes of the new
    one, which end where the list of chapter files would start. *)
Lemma create_recovery_checkpoint_unencodable_witness :
  let cf := PList [PStr lone_surrogate] in
  let cp := PDict [("chapter_line_map", PDict []); ("chapter_files", cf);
                   ("total_lines", PInt 0); ("results_metadata", PList [])] in
  let w := fresh_world (workdir (RefJson.dumps 0 two_chapters) []) in
  create_recovery_checkpoint (J := RefJson.json) "temp_audio" (PDict []) cf []
    w
  = (Raise UnicodeEncodeError,
     fresh_world (workdir (String.substring 0 47 (RefJson.dumps 0 cp)) [])).
Proof.
  intros cf cp w.
  rewrite (create_recovery_checkpoint_unencodable (J := RefJson.json)
             "temp_audio" (PDict []) cf [] w cp
             (take 8 (RefJson.iterencode 0 cp))
             (default "" (RefJson.iterencode 0 cp !! 8%nat))
             (drop 9 (RefJson.iterencode 0 cp)) None
             (RefJson.dumps 0 two_chapters) false);
    [|reflexivity|vm_compute; reflexivity|vm_compute; repeat constructor
     |vm_compute; reflexivity|vm_compute; reflexivity].
  vm_compute. reflexivity.
Defined.

End MoreExamples.

Section PipelineExamples.
Import Examples.

Local Abbreviation unit_dir := "temp_audio/line_segments".
Local Abbreviation groups :=
  (PDict [("ch1.wav", PList [PInt 0]); ("ch2.wav", PList [PInt 1])]).

(** Two chapters, a media interface that never fails, the M4B file asked
    for: seven calls, ten messages. *)
Lemma pipeline_runs_to_completion_witness :
  let U := RefMedia.media (λ _, false) in
  let w := fresh_world (workdir "{}" line_segments) in
  ∃ w1,
    assembly_and_post_processing_phase (U := U) ["ch1.wav"; "ch2.wav"] groups
      "temp_audio" unit_dir "m4a" "male" true (PStr "book.epub") false w
    = (Ok (), w1)
    ∧ w_yielded w1 = events_of_run ["ch1.wav"; "ch2.wav"] true
    ∧ length (w_calls w1) = 7%nat.
Proof.
  intros U w.
  destruct (pipeline_runs_to_completion (U := U) groups "temp_audio" unit_dir
              ["ch1.wav"; "ch2.wav"] "m4a" "male" true (PStr "book.epub")
              false w)
    as (w1 & Hrun & _ & Hy & made & Hc & Hlen & _).
  - intros c fs. exists fs. reflexivity.
  - repeat constructor; eexists; reflexivity.
  - exists w1. split; [exact Hrun|]. split; [exact Hy|].
    rewrite Hc. exact Hlen.
Defined.

(** The chapter map has no entry for the second chapter. *)
Lemma pipeline_stops_at_unmapped_chapter_witness :
  let U := RefMedia.media (λ _, false) in
  let w := fresh_world (workdir "{}" line_segments) in
  ∃ w1,
    assembly_and_post_processing_phase (U := U) ["ch1.wav"; "ch2.wav"]
      (PDict [("ch1.wav", PList [PInt 0])])
      "temp_audio" unit_dir "m4a" "male" false PNone false w
    = (Raise (KeyError "ch2.wav"), w1)
    ∧ w_yielded w1 = ["Assembled chapter: ch1.wav"]
    ∧ ∃ made, w_calls w1 = made ∧ length made = 1%nat.
Proof.
  intros U w. eexists.
  eapply (pipeline_stops_at_unmapped_chapter (U := U)
            (PDict [("ch1.wav", PList [PInt 0])]) "temp_audio" unit_dir
            ["ch1.wav"; "ch2.wav"] ["ch1.wav"] "ch2.wav" []
            (KeyError "ch2.wav") "m4a" "male" false PNone false w);
    [reflexivity | reflexivity | vm_compute; reflexivity].
Defined.


(** A checkpoint with its chapter files and without its chapter map. *)
Lemma resume_from_assembly_phase_missing_field_witness :
  let w := fresh_world
             (workdir "{}" (("temp_audio/ch1.wav", wav) :: line_segments)) in
  resume_from_assembly_phase "temp_audio" unit_dir
    (PDict [("chapter_files", PList [PStr "ch1.wav"]); ("total_lines", PInt 1)])
    w
  = (Raise (KeyError "chapter_line_map"), w).
Proof.
  intros w. apply resume_from_assembly_phase_missing_field.
  right. split; [eexists|]; reflexivity.
Defined.


(** No checkpoint: the generator with recovery is the original one. *)
Lemma recovery_enabled_generator_without_checkpoint_witness :
  let U := RefMedia.media (λ _, false) in
  let w := fresh_world (list_to_map [("temp_audio", Dir 4096)]) in
  let original := λ (_ _ : string) (_ : bool) (_ : pyval) (_ : bool),
                    yield "Generating line 1" in
  create_recovery_enabled_generator (J := RefJson.json) (U := U) original
    "m4a" "male" false PNone false w
  = original "m4a" "male" false PNone false w.
Proof.
  intros U w original.
  apply (recovery_enabled_generator_without_checkpoint (J := RefJson.json)
           (U := U)).
  vm_compute. reflexivity.
Defined.

(** The checkpoint file was cut inside a two-byte letter. *)
Lemma recovery_enabled_generator_undecodable_checkpoint_witness :
  let U := RefMedia.media (λ _, false) in
  let w := fresh_world (workdir interrupted_checkpoint line_segments) in
  let original := λ (_ _ : string) (_ : bool) (_ : pyval) (_ : bool),
                    yield "Generating line 1" in
  create_recovery_enabled_generator (J := RefJson.json) (U := U) original
    "m4a" "male" false PNone false w
  = (Raise UnicodeDecodeError, w).
Proof.
  intros U w original.
  eapply (recovery_enabled_generator_undecodable_checkpoint
            (J := RefJson.json) (U := U));
    vm_compute; reflexivity.
Defined.


End PipelineExamples.

Section RetryExamples.
Import Examples.

Local Abbreviation unit_dir := "temp_audio/line_segments".
Local Abbreviation groups :=
  (PDict [("ch1.wav", PList [PInt 0]); ("ch2.wav", PList [PInt 1])]).

(** The retry script in a directory without checkpoint. *)
Lemma retry_assembly_not_resumable_witness :
  let U := RefMedia.media (λ _, false) in
  let w := fresh_world (list_to_map [("temp_audio", Dir 4096)]) in
  ∃ w0 out',
    retry_assembly (J := RefJson.json) (U := U) "temp_audio" "m4a" "male"
      PNone false false false (ScriptWorld w [])
    = (Ok 1, ScriptWorld w0 ([] ++ out'))
    ∧ last out' = Some (ScriptLine RunFullGenerationFirst)
    ∧ w_fs w0 = w_fs w ∧ w_calls w0 = w_calls w.
Proof.
  intros U w. exists w.
  apply (retry_assembly_not_resumable (J := RefJson.json) (U := U)
           "temp_audio" "m4a" "male" PNone false false false w [] PNone w).
  vm_compute. reflexivity.
Defined.

(** The retry script on the checkpoint without [total_lines]. *)
Lemma retry_assembly_without_total_lines_witness :
  let U := RefMedia.media (λ _, false) in
  let w := fresh_world (workdir (RefJson.dumps 0 without_total) line_segments) in
  ∃ w0 out',
    retry_assembly (J := RefJson.json) (U := U) "temp_audio" "m4a" "male"
      PNone false false false (ScriptWorld w [])
    = (Raise (KeyError "total_lines"), ScriptWorld w0 ([] ++ out'))
    ∧ w_fs w0 = w_fs w ∧ w_calls w0 = w_calls w.
Proof.
  intros U w. eexists.
  eapply (retry_assembly_without_total_lines (J := RefJson.json) (U := U)
            "temp_audio" "m4a" "male" PNone false false false w []).
  - vm_compute. reflexivity.
  - reflexivity.
Defined.



End RetryExamples.

(** ** The names of the unit files *)

Lemma append_inv_head a b c : a +:+ b = a +:+ c → b = c.
Proof.
  induction a as [|x a IH]; [auto|]. rewrite !append_cons.
  intros [= H]. apply IH, H.
Qed.

Lemma read_digits_zeros k c t :
  read_digits 0 c (repeat_char "0" k +:+ t) = read_digits 0 (c + Z.of_nat k) t.
Proof.
  revert c. induction k as [|k IH]; intros c.
  - rewrite append_nil_l. f_equal. lia.
  - cbn [repeat_char]. rewrite append_cons. cbn [read_digits].
    change (digit_of "0"%char) with (Some 0). cbv iota.
    change (10 * 0 + 0) with 0. rewrite IH. f_equal. lia.
Qed.

(** The number that [f"{i:06d}"] prints is read back as [i]. *)
Lemma read_digits_fmt_06d i t :
  (∀ c r, t = String c r → digit_of c = None) →
  (read_digits 0 0 (fmt_06d i +:+ t)).1.1 = Z.of_nat i.
Proof.
  intros Ht. unfold fmt_06d. rewrite append_assoc, read_digits_zeros.
  assert (∀ a c, read_digits a c t = (a, c, t)) as Hstop.
  { intros a c. destruct t as [|d r]; [reflexivity|].
    cbn [read_digits]. rewrite (Ht d r eq_refl). reflexivity. }
  unfold pretty, pretty_nat, pretty, pretty_N.
  destruct (decide (N.of_nat i = 0%N)) as [Hz|Hnz].
  - rewrite append_cons, append_nil_l. cbn [read_digits].
    change (digit_of "0"%char) with (Some 0). cbv iota. rewrite Hstop. cbn. lia.
  - rewrite pretty_N_go_append, append_nil_l.
    destruct (read_digits_pretty_N_go (N.of_nat i) 0
                (0 + Z.of_nat (6 - String.length
                   (if decide (N.of_nat i = 0%N) then "0"
                    else pretty_N_go (N.of_nat i) ""))) t)
      as (a' & c' & Heq & Ha).
    destruct (decide (N.of_nat i = 0%N)); [contradiction|].
    rewrite Heq, Hstop. cbn [fst]. rewrite (Ha eq_refl). lia.
Qed.

(** Two indices never share a unit file: the path of the unit file
    determines its index. *)
Theorem unit_path_injective dir i j :
  unit_path dir i = unit_path dir j → i = j.
Proof.
  unfold unit_path. intros Heq.
  destruct (os_path_join_prefix dir) as (p & _ & Hjoin & _).
  rewrite !Hjoin in Heq by reflexivity.
  apply append_inv_head in Heq.
  change ("line_" +:+ ?x) with (String "l" (String "i" (String "n"
    (String "e" (String "_" x))))) in Heq.
  injection Heq as Heq.
  apply (f_equal (λ s, (read_digits 0 0 s).1.1)) in Heq.
  rewrite !read_digits_fmt_06d in Heq; [lia|..];
    intros c r [= <- _]; reflexivity.
Qed.

Lemma unit_path_injective_witness :
  unit_path "temp_audio/line_segments" 7 = "temp_audio/line_segments/line_000007.wav"
  ∧ 7%nat = 7%nat.
Proof.
  split; [reflexivity|].
  apply (unit_path_injective "temp_audio/line_segments"). reflexivity.
Defined.

(** ** Loading and the check, after writing *)

Section WrittenCheckpoint.
Context {J : JsonModule} {P : Platform}.

(** When [load_recovery_checkpoint] answers [None]: silently when there is
    no checkpoint file; with a warning when a directory is in its place,
    and when the file decodes and [json.load] rejects its text with
    [JSONDecodeError].  The files are as before.  The other exceptions of
    [json.load] are not answered with [None]: a [RecursionError] (text
    nested too deep) or a [ValueError] (an integer of too many digits) is
    raised to the caller, nothing having been printed. *)
Theorem load_recovery_checkpoint_none dir w :
  (w_fs w !! checkpoint_path dir = None →
   load_recovery_checkpoint dir w = (Ok PNone, w))
  ∧ (∀ size,
       w_fs w !! checkpoint_path dir = Some (Dir size) →
       load_recovery_checkpoint dir w
       = (Ok PNone, printing (WarnCheckpointLoad IsADirectoryError) w))
  ∧ (∀ data pin,
       w_fs w !! checkpoint_path dir = Some (File data pin) →
       utf8_valid data = true → json_loads data = Raise JSONDecodeError →
       load_recovery_checkpoint dir w
       = (Ok PNone, printing (WarnCheckpointLoad JSONDecodeError) w))
  ∧ (∀ data pin e,
       w_fs w !! checkpoint_path dir = Some (File data pin) →
       utf8_valid data = true → json_loads data = Raise e →
       e = RecursionError ∨ e = ValueError →
       load_recovery_checkpoint dir w = (Raise e, w)).
Proof.
  split; [apply load_recovery_checkpoint_absent|].
  split; [apply load_recovery_checkpoint_directory|].
  split.
  - intros data pin Hfile Hutf Hjson.
    rewrite (load_recovery_checkpoint_file _ _ _ _ Hfile), Hutf, Hjson.
    reflexivity.
  - intros data pin e Hfile Hutf Hjson He.
    rewrite (load_recovery_checkpoint_file _ _ _ _ Hfile), Hutf, Hjson.
    destruct He as [-> | ->]; reflexivity.
Qed.

(** A checkpoint that has just been written is accepted by the check
    exactly when its units are all on disk: after
    [create_recovery_checkpoint] for [results], [can_resume_from_assembly]
    on the same directory returns the written checkpoint when the unit
    directory exists and holds a non-empty file for every index below the
    number of results, and [(False, None)] otherwise.  The one case where
    it does not answer is the one where the validation cannot build its
    list: with no unit directory and no memory for a list of as many
    indices as there are results, the check raises the [MemoryError] of
    [list(range(n))].  The JSON module is assumed to read back what it
    writes for this checkpoint. *)
Theorem create_recovery_checkpoint_then_check dir udir clm cf results w w' :
  create_recovery_checkpoint dir clm cf results w = (Ok (), w') →
  (∀ cp, checkpoint_data clm cf results = Ok cp → json_round_trips cp) →
  ∃ cp,
    checkpoint_data clm cf results = Ok cp
    ∧ (path_exists (w_fs w') udir ∨ list_fits (Z.of_nat (length results)) →
       ∃ (resumable : bool) w'',
         can_resume_from_assembly dir udir w'
         = (Ok (resumable, if resumable then cp else PNone), w'')
         ∧ (resumable = true
            ↔ units_complete (w_fs w') udir (length results)))
    ∧ (¬ path_exists (w_fs w') udir →
       ¬ list_fits (Z.of_nat (length results)) →
       can_resume_from_assembly dir udir w'
       = (Raise (if sys_maxsize <? Z.of_nat (length results)
                 then OverflowError else MemoryError), w')).
Proof.
  intros Hcreate Hjson.
  destruct (create_recovery_checkpoint_ok _ _ _ _ _ _ Hcreate)
    as (cp & pin & Hcp & ->).
  destruct (Hjson cp Hcp) as [Hutf Hparse].
  match goal with
  | |- context [can_resume_from_assembly dir udir ?x] => set (w1 := x)
  end.
  assert (load_recovery_checkpoint dir w1 = (Ok cp, w1)) as Hload.
  { rewrite (load_recovery_checkpoint_file _ _ (json_dumps cp) pin).
    - rewrite Hutf, Hparse. reflexivity.
    - cbn. apply lookup_insert_eq. }
  exists cp. split; [exact Hcp|].
  unfold checkpoint_data in Hcp.
  destruct (map_result result_metadata results) as [metadata|] eqn:Hmeta;
    [|discriminate].
  injection Hcp as Hcp. subst cp. split.
  - intros Hbuilt.
    edestruct (can_resume_from_assembly_dict dir udir w1 _
                 (Z.of_nat (length results)) w1 Hload)
      as (ap & missing & _ & Hiff & Hrun);
      [discriminate|reflexivity|exact Hbuilt|].
    rewrite Nat2Z.id in Hiff.
    destruct ap; eexists _, _; (split; [exact Hrun|exact Hiff]).
  - intros He Hfits.
    apply (can_resume_from_assembly_dict_raise dir udir w1 _
             (Z.of_nat (length results)) w1 Hload);
      [discriminate|reflexivity|exact He|exact Hfits].
Qed.

End WrittenCheckpoint.

Section WrittenExamples.
Import Examples.

Lemma load_recovery_checkpoint_none_witness :
  let w := fresh_world (workdir "{ not json" []) in
  load_recovery_checkpoint (J := RefJson.json) "temp_audio" w
  = (Ok PNone, printing (WarnCheckpointLoad JSONDecodeError) w).
Proof.
  intros w.
  destruct (load_recovery_checkpoint_none (J := RefJson.json) "temp_audio" w)
    as (_ & _ & Hbad & _).
  apply (Hbad "{ not json" false); vm_compute; reflexivity.
Defined.

(** The checkpoint of two results, written where both unit files are. *)
Lemma create_recovery_checkpoint_then_check_witness :
  let clm := PDict [("ch1.wav", PList [PInt 0]); ("ch2.wav", PList [PInt 1])] in
  let cf := PList [PStr "ch1.wav"; PStr "ch2.wav"] in
  let w := fresh_world (list_to_map (("temp_audio", Dir 4096) :: line_segments)) in
  ∃ w' cp w'',
    create_recovery_checkpoint (J := RefJson.json) "temp_audio" clm cf
      two_results w = (Ok (), w')
    ∧ checkpoint_data clm cf two_results = Ok cp
    ∧ can_resume_from_assembly (J := RefJson.json) "temp_audio"
        "temp_audio/line_segments" w'
      = (Ok (true, cp), w'').
Proof.
  intros clm cf w.
  pose (w' := (create_recovery_checkpoint (J := RefJson.json) "temp_audio"
                 clm cf two_results w).2).
  assert (create_recovery_checkpoint (J := RefJson.json) "temp_audio" clm cf
            two_results w = (Ok (), w')) as Hcreate
    by (vm_compute; reflexivity).
  exists w'.
  destruct (create_recovery_checkpoint_then_check (J := RefJson.json)
              "temp_audio" "temp_audio/line_segments" clm cf two_results w w'
              Hcreate) as (cp & Hcp & Hcheck & _).
  - intros cp Hcp. vm_compute in Hcp. injection Hcp as <-.
    split; vm_compute; reflexivity.
  - destruct Hcheck as (resumable & w'' & Hcheck & Hiff);
      [left; vm_compute; eauto|].
    exists cp, w''. split; [exact Hcreate|]. split; [exact Hcp|].
    rewrite Hcheck. assert (resumable = true) as ->; [|reflexivity].
    change (length two_results) with 2%nat in Hiff.
    apply Hiff. split; [vm_compute; eauto|].
    intros i Hi Hmiss.
    assert (i = 0 ∨ i = 1)%nat as [-> | ->] by lia;
      (specialize (Hmiss wav); vm_compute in Hmiss;
       specialize (Hmiss eq_refl); discriminate).
Defined.

End WrittenExamples.

(** ** Sanitizing titles *)

Lemma has_char_app ch a b :
  has_char ch (a +:+ b) = has_char ch a || has_char ch b.
Proof.
  unfold has_char. induction a as [|c a IH];
    rewrite ?append_nil_l, ?append_cons; cbn; [reflexivity|].
  rewrite IH, orb_assoc. reflexivity.
Qed.

Lemma has_char_replace_other ch old new s :
  has_char ch new = false → has_char ch s = false →
  has_char ch (py_replace old new s) = false.
Proof.
  intros Hnew. induction s as [|c s IH]; [reflexivity|].
  unfold has_char at 1. cbn [list_ascii_of_string existsb].
  intros [Hc Hs]%orb_false_iff. cbn [py_replace].
  rewrite has_char_app, (IH Hs), orb_false_r.
  destruct (Ascii.eqb c old); [exact Hnew|].
  unfold has_char. cbn. rewrite Hc. reflexivity.
Qed.

Lemma has_char_replace_old old new s :
  has_char old new = false → has_char old (py_replace old new s) = false.
Proof.
  intros Hnew. induction s as [|c s IH]; [reflexivity|].
  cbn [py_replace]. rewrite has_char_app, IH, orb_false_r.
  destruct (Ascii.eqb c old) eqn:Hc; [exact Hnew|].
  unfold has_char. cbn. rewrite Hc. reflexivity.
Qed.

Lemma py_replace_absent old new s :
  has_char old s = false → py_replace old new s = s.
Proof.
  induction s as [|c s IH]; [reflexivity|].
  unfold has_char. cbn [list_ascii_of_string existsb].
  intros [Hc Hs]%orb_false_iff. cbn [py_replace].
  rewrite Hc, (IH Hs). reflexivity.
Qed.

(** A chain of replacements whose new texts are free of [ch] removes [ch]
    as soon as one of them replaces it. *)
Lemma replace_chain_removes ch pairs s :
  Forall (λ p : ascii * string, has_char ch p.2 = false) pairs →
  ch ∈ map fst pairs ∨ has_char ch s = false →
  has_char ch (replace_chain s pairs) = false.
Proof.
  intros Hnew. revert s. unfold replace_chain.
  induction Hnew as [|[old new] pairs Hp _ IH]; intros s; cbn [foldl map].
  - intros [Hin|Hs]; [|exact Hs]. apply elem_of_nil in Hin as [].
  - cbn [snd] in Hp. intros [Hin|Hs].
    + apply elem_of_cons in Hin as [->|Hin].
      * apply IH. right. apply has_char_replace_old, Hp.
      * apply IH. left. exact Hin.
    + apply IH. right. apply has_char_replace_other; assumption.
Qed.

Lemma replace_chain_absent pairs s :
  Forall (λ p : ascii * string, has_char p.1 s = false) pairs →
  replace_chain s pairs = s.
Proof.
  unfold replace_chain. induction 1 as [|[old new] pairs Hp _ IH];
    [reflexivity|].
  cbn [foldl]. rewrite (py_replace_absent old new s Hp). exact IH.
Qed.

Lemma replace_chain_app s a b :
  replace_chain (replace_chain s a) b = replace_chain s (a ++ b).
Proof. unfold replace_chain. rewrite foldl_app. reflexivity. Qed.

(** *** Splitting at white space *)

Lemma has_char_split_whitespace ch skip word s :
  has_char ch word = false → has_char ch s = false →
  Forall (λ w, has_char ch w = false) (split_whitespace skip word s).
Proof.
  revert skip word. induction s as [|c s IH]; intros skip word Hw Hs.
  - cbn. destruct (String.eqb word ""); repeat constructor. exact Hw.
  - pose proof Hs as Hs'. unfold has_char in Hs'.
    cbn [list_ascii_of_string existsb] in Hs'.
    apply orb_false_iff in Hs' as [Hc Hrest].
    cbn [split_whitespace]. destruct skip as [|skip]; [|apply IH; assumption].
    destruct (space_width (String c s)).
    + apply IH; [|exact Hrest]. rewrite has_char_app, Hw.
      unfold has_char. cbn. rewrite Hc. reflexivity.
    + apply Forall_app. split; [|apply IH; [reflexivity|exact Hrest]].
      destruct (String.eqb word ""); repeat constructor. exact Hw.
Qed.

Lemma has_char_concat ch sep l :
  has_char ch sep = false → Forall (λ w, has_char ch w = false) l →
  has_char ch (String.concat sep l) = false.
Proof.
  intros Hsep. induction 1 as [|w l Hw Hl IH]; [reflexivity|].
  destruct l as [|w' l]; [exact Hw|].
  rewrite concat_cons2, !has_char_app, Hw, Hsep. exact IH.
Qed.

Lemma sanitize_filename_chain text :
  sanitize_filename text
  = String.concat " " (py_split_whitespace (replace_chain text replacements)).
Proof. reflexivity. Qed.

Lemma space_width_tail b t t' :
  b ≠ "" → space_width (b +:+ t) = 0%nat → word_end t' →
  space_width (b +:+ t') = 0%nat.
Proof.
  intros Hb H Ht'. destruct b as [|c0 b]; [congruence|]. clear Hb.
  rewrite append_cons in *. cbn [space_width] in *.
  set (ws1 := ((9 <=? nat_of_ascii c0) && (nat_of_ascii c0 <=? 13)
               || (28 <=? nat_of_ascii c0) && (nat_of_ascii c0 <=? 32))%nat%bool)
    in *.
  destruct ws1; [discriminate|].
  destruct b as [|c1 b].
  - rewrite append_nil_l in *. destruct t' as [|c t']; [reflexivity|].
    cbn in Ht'. subst c.
    change (nat_of_ascii " ") with 32%nat. cbn [Nat.eqb orb].
    destruct (nat_of_ascii c0 =? 194)%nat; [reflexivity|].
    destruct t' as [|c2 t']; [reflexivity|].
    rewrite !andb_false_r. reflexivity.
  - rewrite append_cons in *.
    destruct (nat_of_ascii c0 =? 194)%nat; [exact H|].
    destruct b as [|c2 b].
    + rewrite append_nil_l in *. destruct t' as [|c t']; [reflexivity|].
      cbn in Ht'. subst c.
      change (nat_of_ascii " ") with 32%nat. cbn [Nat.eqb Nat.leb orb andb].
      rewrite !andb_false_r. reflexivity.
    + rewrite append_cons in *. exact H.
Qed.

Lemma split_whitespace_word b word t :
  (∀ a' b', b = a' +:+ b' → b' ≠ "" → space_width (b' +:+ t) = 0%nat) →
  split_whitespace 0 word (b +:+ t) = split_whitespace 0 (word +:+ b) t.
Proof.
  revert word. induction b as [|c b IH]; intros word Hb.
  - rewrite append_nil_l, append_nil_r. reflexivity.
  - rewrite append_cons. cbn [split_whitespace].
    rewrite <- append_cons, (Hb "" (String c b) eq_refl) by discriminate.
    rewrite IH.
    + rewrite append_assoc. reflexivity.
    + intros a' b' -> Hb'. apply (Hb (String c a') b'); [reflexivity|exact Hb'].
Qed.

(** Splitting the words joined by single spaces gives the words back. *)
Lemma py_split_whitespace_concat ws :
  Forall (λ w, w ≠ "" ∧ no_space_in w) ws →
  py_split_whitespace (String.concat " " ws) = ws.
Proof.
  unfold py_split_whitespace.
  induction 1 as [|w ws [Hne Hw] Hws IH]; [reflexivity|].
  destruct ws as [|w' ws].
  - cbn [String.concat]. rewrite <- (append_nil_r w) at 1.
    rewrite split_whitespace_word.
    + rewrite append_nil_l. cbn.
      rewrite (proj2 (String.eqb_neq w "") Hne). reflexivity.
    + intros a' b' Heq Hb'. apply (Hw a' b' "" Heq Hb' I).
  - rewrite concat_cons2, split_whitespace_word.
    + rewrite append_nil_l.
      change (" " +:+ String.concat " " (w' :: ws))
        with (String " " (String.concat " " (w' :: ws))).
      cbn [split_whitespace space_width].
      change (nat_of_ascii " ") with 32%nat. cbn [Nat.leb andb orb].
      rewrite (proj2 (String.eqb_neq w "") Hne), IH. reflexivity.
    + intros a' b' Heq Hb'. apply (Hw a' b' _ Heq Hb'). reflexivity.
Qed.

Lemma append_snoc_inv word c a b :
  word +:+ String c "" = a +:+ b → b ≠ "" →
  ∃ b0, b = b0 +:+ String c "" ∧ word = a +:+ b0.
Proof.
  revert word. induction a as [|x a IH]; intros word Heq Hb.
  - exists word. rewrite append_nil_l in *. auto.
  - destruct word as [|y word]; rewrite !append_cons in Heq.
    + rewrite append_nil_l in Heq. injection Heq as _ Heq.
      destruct a; [|discriminate]. rewrite append_nil_l in Heq. congruence.
    + injection Heq as -> Heq. destruct (IH word Heq Hb) as (b0 & -> & ->).
      exists b0. auto.
Qed.

Lemma append_eq_nil a b : "" = a +:+ b → b = "".
Proof. destruct a; [rewrite append_nil_l; auto|discriminate]. Qed.

(** The words that the scan returns are not empty and hold no white
    space. *)
Lemma split_whitespace_words s skip word :
  (skip = 0%nat →
   ∀ a b, word = a +:+ b → b ≠ "" → space_width (b +:+ s) = 0%nat) →
  (skip ≠ 0%nat → word = "") →
  Forall (λ w, w ≠ "" ∧ no_space_in w) (split_whitespace skip word s).
Proof.
  assert (∀ word s,
            (∀ a b, word = a +:+ b → b ≠ "" → space_width (b +:+ s) = 0%nat) →
            Forall (λ w, w ≠ "" ∧ no_space_in w)
              (if String.eqb word "" then [] else [word])) as Hword.
  { intros wd s0 Hinv. destruct (String.eqb_spec wd ""); repeat constructor.
    - assumption.
    - intros a b t Heq Hb Ht. eapply space_width_tail; eauto. }
  revert skip word. induction s as [|c s IH]; intros skip word Hinv Hskip.
  - cbn [split_whitespace]. destruct skip as [|k].
    + apply (Hword word ""). apply Hinv. reflexivity.
    + rewrite Hskip by discriminate. constructor.
  - cbn [split_whitespace]. destruct skip as [|k].
    + specialize (Hinv eq_refl).
      destruct (space_width (String c s)) as [|k] eqn:Hc.
      * apply IH; [|congruence]. intros _ a b Heq Hb.
        destruct (append_snoc_inv _ _ _ _ Heq Hb) as (b0 & -> & ->).
        rewrite append_assoc. change (String c "" +:+ s) with (String c s).
        destruct b0 as [|x b0]; [exact Hc|].
        apply (Hinv a (String x b0)); [reflexivity|discriminate].
      * apply Forall_app. split; [apply (Hword word (String c s)), Hinv|].
        apply IH; [|reflexivity].
        intros _ a b Heq%append_eq_nil Hb. contradiction.
    + rewrite Hskip by discriminate. apply IH.
      * intros _ a b Heq%append_eq_nil Hb. contradiction.
      * reflexivity.
Qed.

Lemma sanitize_filename_free ch text :
  ch ∈ map fst replacements → has_char ch (sanitize_filename text) = false.
Proof.
  intros Hin. rewrite sanitize_filename_chain.
  assert (has_char ch " " = false
          ∧ Forall (λ p : ascii * string, has_char ch p.2 = false) replacements)
    as [Hsp Hnew].
  { cbn in Hin.
    repeat (apply elem_of_cons in Hin as [->|Hin];
            [split; [reflexivity|repeat constructor]|]).
    apply elem_of_nil in Hin as []. }
  apply has_char_concat; [exact Hsp|].
  apply has_char_split_whitespace; [reflexivity|].
  apply replace_chain_removes; [exact Hnew|left; exact Hin].
Qed.

(** No character that [sanitize_filename] removes or replaces is left in
    its result: none of the quotes, the slash and the backslash, the dot,
    the wildcard characters, the brackets and the other punctuation that it
    lists. *)
Theorem sanitize_filename_safe text ch :
  ch ∈ unsafe_characters → has_char ch (sanitize_filename text) = false.
Proof.
  intros Hin. apply sanitize_filename_free.
  unfold unsafe_characters in Hin. cbn in Hin.
  repeat (apply elem_of_cons in Hin as [->|Hin];
          [apply list_elem_of_In; cbn; tauto|]).
  apply elem_of_nil in Hin as [].
Qed.

(** Sanitizing is idempotent: a sanitized title is left as it is. *)
Theorem sanitize_filename_idempotent text :
  sanitize_filename (sanitize_filename text) = sanitize_filename text.
Proof.
  rewrite (sanitize_filename_chain (sanitize_filename text)).
  rewrite replace_chain_absent.
  - rewrite (sanitize_filename_chain text) at 1.
    rewrite py_split_whitespace_concat; [symmetry; apply sanitize_filename_chain|].
    apply split_whitespace_words; [|congruence].
    intros _ a b Heq%append_eq_nil Hb. contradiction.
  - apply Forall_forall. intros [old new] Hin. cbn [fst].
    apply sanitize_filename_free.
    apply (list_elem_of_fmap_2 fst) in Hin. exact Hin.
Qed.

(** The chapter file of a sanitized title has one dot, so the conversion
    names its output by replacing the extension: the name that the code
    builds by cutting at the first dot is the chapter file name with [m4a]
    for [wav]. *)
Theorem sanitize_filename_m4a_name title :
  m4a_name (sanitize_filename title +:+ ".wav")
  = sanitize_filename title +:+ ".m4a"
  ∧ with_extension (sanitize_filename title +:+ ".wav") "m4a"
    = sanitize_filename title +:+ ".m4a".
Proof.
  assert (has_char "." (sanitize_filename title) = false) as Hdot.
  { apply sanitize_filename_free. apply list_elem_of_In. cbn. tauto. }
  split.
  - apply (m4a_name_single_dot _ "wav" Hdot).
  - apply (with_extension_single_dot _ "wav" "m4a" Hdot). reflexivity.
Qed.

(** A title of the test script, with its dots. *)
Lemma sanitize_filename_safe_witness :
  sanitize_filename "Epilogue: The End... Or Is It?" = "Epilogue The End Or Is It"
  ∧ has_char "." (sanitize_filename "Epilogue: The End... Or Is It?") = false.
Proof.
  split; [reflexivity|].
  apply sanitize_filename_safe. apply (bool_decide_unpack _).
  vm_compute. exact I.
Defined.
